(** * NOARZ content store: GitHubAPI and DataManager

    A shallow embedding of [github-config.js] (the configuration object and
    the [GitHubAPI] class) and of the data manager script (the [DataManager]
    class), together with the browser built-ins they call: [btoa]/[atob],
    [JSON.stringify]/[JSON.parse], [localStorage], [sessionStorage] and
    [fetch].

    JavaScript strings are sequences of UTF-16 code units, written here as
    lists of [N].  Asynchronous functions are terms of a small free monad
    whose suspension points are the network calls and the wait on the shared
    initialisation promise. *)

From Stdlib Require Import ZArith NArith String Ascii List Lia Bool.
From Stdlib Require Import DecimalString DecimalN.
From stdpp Require Import base option list gmap.

Local Open Scope N_scope.
Set Warnings "-register-all".

(* ================================================================== *)
(** ** JavaScript strings *)
(* ================================================================== *)

(** A string is its list of UTF-16 code units. *)
Abbreviation jsstring := (list N).

(** Source literals (all ASCII but one) are written as Rocq strings. *)
Definition js (s : string) : jsstring :=
  List.map N_of_ascii (list_ascii_of_string s).

(** [String.prototype.startsWith] *)
Fixpoint starts_with (needle s : jsstring) : bool :=
  match needle, s with
  | [], _ => true
  | _ :: _, [] => false
  | a :: needle', b :: s' => (a =? b) && starts_with needle' s'
  end.

(** [String.prototype.includes] *)
Fixpoint includes (s needle : jsstring) : bool :=
  starts_with needle s ||
  match s with
  | [] => false
  | _ :: t => includes t needle
  end.

(** Number-to-string conversion of a template literal, for the
    non-negative integers that occur (HTTP status codes). *)
Definition N_to_js (n : N) : jsstring :=
  js (NilZero.string_of_uint (N.to_uint n)).

(** Truthiness of a string: the empty string is the only falsy one. *)
Definition nonempty (s : jsstring) : bool :=
  match s with [] => false | _ :: _ => true end.

(* ================================================================== *)
(** ** [btoa] and [atob] *)
(* ================================================================== *)

Definition b64_char (i : N) : N :=
  if i <? 26 then 65 + i
  else if i <? 52 then 97 + (i - 26)
  else if i <? 62 then 48 + (i - 52)
  else if i =? 62 then 43
  else 47.

Definition b64_index (c : N) : option N :=
  if (65 <=? c) && (c <=? 90) then Some (c - 65)
  else if (97 <=? c) && (c <=? 122) then Some (c - 97 + 26)
  else if (48 <=? c) && (c <=? 57) then Some (c - 48 + 52)
  else if c =? 43 then Some 62
  else if c =? 47 then Some 63
  else None.

Definition pad : N := 61.

Fixpoint b64_encode (bytes : list N) : jsstring :=
  match bytes with
  | [] => []
  | [a] => [b64_char (a / 4); b64_char ((a mod 4) * 16); pad; pad]
  | [a; b] =>
      [b64_char (a / 4); b64_char ((a mod 4) * 16 + b / 16);
       b64_char ((b mod 16) * 4); pad]
  | a :: b :: c :: rest =>
      b64_char (a / 4) :: b64_char ((a mod 4) * 16 + b / 16)
      :: b64_char ((b mod 16) * 4 + c / 64) :: b64_char (c mod 64)
      :: b64_encode rest
  end.

Definition is_latin1 (s : jsstring) : bool := forallb (fun c => c <=? 255) s.

(** [btoa(s)]: [None] stands for the [InvalidCharacterError] thrown when a
    code unit is above 0xFF. *)
Definition btoa (s : jsstring) : option jsstring :=
  if is_latin1 s then Some (b64_encode s) else None.

Definition is_ascii_ws (c : N) : bool :=
  (c =? 9) || (c =? 10) || (c =? 12) || (c =? 13) || (c =? 32).

(** Removal of one or two trailing [=]. *)
Fixpoint strip_pad (s : jsstring) : jsstring :=
  match s with
  | [] => []
  | c :: t =>
      match t with
      | [] => if c =? pad then [] else [c]
      | [d] => if (c =? pad) && (d =? pad) then [] else c :: strip_pad t
      | _ => c :: strip_pad t
      end
  end.

Fixpoint b64_sextets (s : jsstring) : option (list N) :=
  match s with
  | [] => Some []
  | c :: t =>
      match b64_index c, b64_sextets t with
      | Some i, Some l => Some (i :: l)
      | _, _ => None
      end
  end.

Fixpoint b64_bytes (l : list N) : list N :=
  match l with
  | a :: b :: c :: d :: rest =>
      (a * 4 + b / 16) :: ((b mod 16) * 16 + c / 4) :: ((c mod 4) * 64 + d)
      :: b64_bytes rest
  | [a; b; c] => [a * 4 + b / 16; (b mod 16) * 16 + c / 4]
  | [a; b] => [a * 4 + b / 16]
  | _ => []
  end.

(** [atob(s)], the forgiving base64 decoder: [None] stands for the
    [InvalidCharacterError] it throws. *)
Definition atob (s : jsstring) : option jsstring :=
  let s1 := List.filter (fun c => negb (is_ascii_ws c)) s in
  let s2 := if N.of_nat (length s1) mod 4 =? 0 then strip_pad s1 else s1 in
  if N.of_nat (length s2) mod 4 =? 1 then None
  else option_map b64_bytes (b64_sextets s2).

(* ================================================================== *)
(** ** JavaScript values and [JSON] *)
(* ================================================================== *)

(** The values that flow through the program: what [JSON.parse] can
    produce, plus [undefined] (the result of reading a missing property).
    A number is kept as its literal text; an object is its list of
    properties in insertion order. *)
Inductive value : Type :=
| VUndefined
| VNull
| VBool (b : bool)
| VNum (lit : jsstring)
| VStr (s : jsstring)
| VArr (items : list value)
| VObj (props : list (jsstring * value)).

Definition is_digit (c : N) : bool := (48 <=? c) && (c <=? 57).

(** A numeric literal denotes zero when its mantissa has no non-zero digit
    (literals that underflow to zero are not tracked). *)
Fixpoint mantissa_zero (lit : jsstring) : bool :=
  match lit with
  | [] => true
  | c :: t =>
      if (c =? 101) || (c =? 69) then true
      else if (49 <=? c) && (c <=? 57) then false
      else mantissa_zero t
  end.

(** [ToBoolean] *)
Definition truthy (v : value) : bool :=
  match v with
  | VUndefined | VNull => false
  | VBool b => b
  | VNum lit => negb (mantissa_zero lit)
  | VStr s => nonempty s
  | VArr _ | VObj _ => true
  end.

Fixpoint join (sep : jsstring) (parts : list jsstring) : jsstring :=
  match parts with
  | [] => []
  | p :: rest =>
      match rest with
      | [] => p
      | _ :: _ => p ++ sep ++ join sep rest
      end
  end.

(** [ToString] *)
Fixpoint ToString (v : value) : jsstring :=
  match v with
  | VUndefined => js "undefined"
  | VNull => js "null"
  | VBool true => js "true"
  | VBool false => js "false"
  | VNum lit => lit
  | VStr s => s
  | VArr items =>
      join [44]
        ((fix each (l : list value) : list jsstring :=
            match l with
            | [] => []
            | x :: t =>
                match x with
                | VUndefined | VNull => []
                | _ => ToString x
                end :: each t
            end) items)
  | VObj _ => js "[object Object]"
  end.

Fixpoint assoc (k : jsstring) (props : list (jsstring * value)) : option value :=
  match props with
  | [] => None
  | (k', v) :: t => if decide (k' = k) then Some v else assoc k t
  end.

(** Property read [v.k]: [None] stands for the [TypeError] raised on
    [null] and [undefined]; a missing property reads as [undefined]. *)
Definition get_prop (v : value) (k : jsstring) : option value :=
  match v with
  | VUndefined | VNull => None
  | VObj props => Some (default VUndefined (assoc k props))
  | _ => Some VUndefined
  end.

(** Property write on an object: an existing key keeps its place. *)
Fixpoint obj_set (props : list (jsstring * value)) (k : jsstring) (v : value)
  : list (jsstring * value) :=
  match props with
  | [] => [(k, v)]
  | (k', v') :: t =>
      if decide (k' = k) then (k', v) :: t else (k', v') :: obj_set t k v
  end.

(** *** [JSON.stringify] *)

Definition hex_digit (d : N) : N := if d <? 10 then 48 + d else 87 + d.

Definition uescape (c : N) : jsstring :=
  [92; 117; hex_digit (c / 4096); hex_digit ((c / 256) mod 16);
   hex_digit ((c / 16) mod 16); hex_digit (c mod 16)].

Definition is_high (c : N) : bool := (55296 <=? c) && (c <=? 56319).
Definition is_low (c : N) : bool := (56320 <=? c) && (c <=? 57343).

(** One code unit of [QuoteJSONString]; a surrogate is copied only as part
    of a pair. *)
Definition quote_unit (prev_high next_low : bool) (c : N) : jsstring :=
  if c =? 8 then [92; 98]
  else if c =? 9 then [92; 116]
  else if c =? 10 then [92; 110]
  else if c =? 12 then [92; 102]
  else if c =? 13 then [92; 114]
  else if c =? 34 then [92; 34]
  else if c =? 92 then [92; 92]
  else if c <? 32 then uescape c
  else if is_high c then (if next_low then [c] else uescape c)
  else if is_low c then (if prev_high then [c] else uescape c)
  else [c].

Fixpoint quote_units (prev_high : bool) (s : jsstring) : jsstring :=
  match s with
  | [] => []
  | c :: t =>
      let next_low := match t with d :: _ => is_low d | [] => false end in
      let paired := is_high c && next_low in
      quote_unit prev_high next_low c ++ quote_units paired t
  end.

Definition quote (s : jsstring) : jsstring := 34 :: quote_units false s ++ [34].

(** The text around the parts of an array or object. *)
Definition wrap (opening closing : N) (gap stepback indent : jsstring)
    (parts : list jsstring) : jsstring :=
  match parts with
  | [] => [opening; closing]
  | _ :: _ =>
      if nonempty gap
      then [opening] ++ [10] ++ indent ++ join ([44; 10] ++ indent) parts
           ++ [10] ++ stepback ++ [closing]
      else [opening] ++ join [44] parts ++ [closing]
  end.

(** [SerializeJSONProperty]; [None] is the [undefined] result. *)
Fixpoint serialize (gap indent : jsstring) (v : value) : option jsstring :=
  match v with
  | VUndefined => None
  | VNull => Some (js "null")
  | VBool true => Some (js "true")
  | VBool false => Some (js "false")
  | VNum lit => Some lit
  | VStr s => Some (quote s)
  | VArr items =>
      let inner := indent ++ gap in
      Some (wrap 91 93 gap indent inner
        ((fix each (l : list value) : list jsstring :=
            match l with
            | [] => []
            | x :: t => default (js "null") (serialize gap inner x) :: each t
            end) items))
  | VObj props =>
      let inner := indent ++ gap in
      Some (wrap 123 125 gap indent inner
        ((fix each (l : list (jsstring * value)) : list jsstring :=
            match l with
            | [] => []
            | (k, x) :: t =>
                match serialize gap inner x with
                | Some text =>
                    (quote k ++ (if nonempty gap then [58; 32] else [58]) ++ text)
                    :: each t
                | None => each t
                end
            end) props))
  end.

(** [JSON.stringify(v)] and [JSON.stringify(v, null, 2)] *)
Definition JSON_stringify (v : value) : option jsstring := serialize [] [] v.
Definition JSON_stringify_2 (v : value) : option jsstring :=
  serialize [32; 32] [] v.

(** A string argument built from a possibly [undefined] result. *)
Definition text_of (o : option jsstring) : jsstring :=
  default (js "undefined") o.

(** *** [JSON.parse] *)

Definition is_json_ws (c : N) : bool :=
  (c =? 9) || (c =? 10) || (c =? 13) || (c =? 32).

Fixpoint skip_ws (s : jsstring) : jsstring :=
  match s with
  | [] => []
  | c :: t => if is_json_ws c then skip_ws t else s
  end.

Definition hex_value (c : N) : option N :=
  if is_digit c then Some (c - 48)
  else if (97 <=? c) && (c <=? 102) then Some (c - 87)
  else if (65 <=? c) && (c <=? 70) then Some (c - 55)
  else None.

Definition hex4 (a b c d : N) : option N :=
  match hex_value a, hex_value b, hex_value c, hex_value d with
  | Some x, Some y, Some z, Some w => Some (x * 4096 + y * 256 + z * 16 + w)
  | _, _, _, _ => None
  end.

Definition unescape (e : N) : option N :=
  if e =? 34 then Some 34
  else if e =? 92 then Some 92
  else if e =? 47 then Some 47
  else if e =? 98 then Some 8
  else if e =? 102 then Some 12
  else if e =? 110 then Some 10
  else if e =? 114 then Some 13
  else if e =? 116 then Some 9
  else None.

(** The rest of a string literal, after its opening quote: the decoded
    string and the text after the closing quote. *)
Fixpoint parse_string (s : jsstring) : option (jsstring * jsstring) :=
  match s with
  | [] => None
  | c :: t =>
      if c =? 34 then Some ([], t)
      else if c =? 92 then
        match t with
        | [] => None
        | e :: t1 =>
            if e =? 117 then
              match t1 with
              | h1 :: h2 :: h3 :: h4 :: t2 =>
                  match hex4 h1 h2 h3 h4, parse_string t2 with
                  | Some u, Some (str, rest) => Some (u :: str, rest)
                  | _, _ => None
                  end
              | _ => None
              end
            else
              match unescape e, parse_string t1 with
              | Some u, Some (str, rest) => Some (u :: str, rest)
              | _, _ => None
              end
        end
      else if c <? 32 then None
      else
        match parse_string t with
        | Some (str, rest) => Some (c :: str, rest)
        | None => None
        end
  end.

(** The longest run of decimal digits at the head of [s]. *)
Fixpoint digits (s : jsstring) : jsstring * jsstring :=
  match s with
  | [] => ([], [])
  | c :: t =>
      if is_digit c then let '(ds, rest) := digits t in (c :: ds, rest)
      else ([], s)
  end.

(** A numeric literal at the head of [s]: an optional minus sign, an
    integer part (a lone 0, or a non-zero digit and more digits), an optional
    fraction (a dot and one or more digits) and an optional exponent (e or E,
    an optional sign, one or more digits). *)
Definition parse_number (s : jsstring) : option (jsstring * jsstring) :=
  let '(sign, s1) :=
    match s with
    | c :: t => if c =? 45 then ([c], t) else ([], s)
    | [] => ([], s)
    end in
  match s1 with
  | [] => None
  | c :: t =>
      if negb (is_digit c) then None
      else
        let '(int_part, s2) :=
          if c =? 48 then ([c], t)
          else let '(ds, rest) := digits t in (c :: ds, rest) in
        let frac :=
          match s2 with
          | d :: t2 =>
              if d =? 46 then
                let '(ds, rest) := digits t2 in
                if nonempty ds then Some (d :: ds, rest) else None
              else Some ([], s2)
          | [] => Some ([], s2)
          end in
        match frac with
        | None => None
        | Some (frac_part, s3) =>
            let expo :=
              match s3 with
              | e :: t3 =>
                  if (e =? 101) || (e =? 69) then
                    let '(esign, t4) :=
                      match t3 with
                      | g :: t5 =>
                          if (g =? 43) || (g =? 45) then ([g], t5) else ([], t3)
                      | [] => ([], t3)
                      end in
                    let '(ds, rest) := digits t4 in
                    if nonempty ds then Some (e :: esign ++ ds, rest) else None
                  else Some ([], s3)
              | [] => Some ([], s3)
              end in
            match expo with
            | None => None
            | Some (exp_part, s4) =>
                Some (sign ++ int_part ++ frac_part ++ exp_part, s4)
            end
        end
  end.

Inductive presult (A : Type) : Type :=
| Parsed (a : A) (rest : jsstring)
| Malformed
| Exhausted.
Arguments Parsed {A} a rest.
Arguments Malformed {A}.
Arguments Exhausted {A}.

Definition expect (word : jsstring) (v : value) (s : jsstring) : presult value :=
  if starts_with word s then Parsed v (drop (length word) s) else Malformed.

(** Recursive descent over the text; [fuel] bounds the depth of the
    descent. *)
Fixpoint parse_value (fuel : nat) (s : jsstring) : presult value :=
  match fuel with
  | O => Exhausted
  | S f =>
      match skip_ws s with
      | [] => Malformed
      | c :: t =>
          if c =? 110 then expect (js "null") VNull (c :: t)
          else if c =? 116 then expect (js "true") (VBool true) (c :: t)
          else if c =? 102 then expect (js "false") (VBool false) (c :: t)
          else if c =? 34 then
            match parse_string t with
            | Some (str, rest) => Parsed (VStr str) rest
            | None => Malformed
            end
          else if c =? 91 then
            match skip_ws t with
            | [] => Malformed
            | d :: rest =>
                if d =? 93 then Parsed (VArr []) rest
                else parse_elements f t []
            end
          else if c =? 123 then
            match skip_ws t with
            | [] => Malformed
            | d :: rest =>
                if d =? 125 then Parsed (VObj []) rest
                else parse_members f t []
            end
          else
            match parse_number (c :: t) with
            | Some (lit, rest) => Parsed (VNum lit) rest
            | None => Malformed
            end
      end
  end
with parse_elements (fuel : nat) (s : jsstring) (acc : list value)
  : presult value :=
  match fuel with
  | O => Exhausted
  | S f =>
      match parse_value f s with
      | Parsed v rest =>
          match skip_ws rest with
          | [] => Malformed
          | c :: rest' =>
              if c =? 44 then parse_elements f rest' (acc ++ [v])
              else if c =? 93 then Parsed (VArr (acc ++ [v])) rest'
              else Malformed
          end
      | Malformed => Malformed
      | Exhausted => Exhausted
      end
  end
with parse_members (fuel : nat) (s : jsstring) (acc : list (jsstring * value))
  : presult value :=
  match fuel with
  | O => Exhausted
  | S f =>
      match skip_ws s with
      | [] => Malformed
      | q :: t =>
          if negb (q =? 34) then Malformed
          else
            match parse_string t with
            | None => Malformed
            | Some (k, rest) =>
                match skip_ws rest with
                | [] => Malformed
                | c :: rest1 =>
                    if negb (c =? 58) then Malformed
                    else
                      match parse_value f rest1 with
                      | Parsed v rest2 =>
                          match skip_ws rest2 with
                          | [] => Malformed
                          | d :: rest3 =>
                              if d =? 44
                              then parse_members f rest3 (obj_set acc k v)
                              else if d =? 125
                              then Parsed (VObj (obj_set acc k v)) rest3
                              else Malformed
                          end
                      | Malformed => Malformed
                      | Exhausted => Exhausted
                      end
                end
            end
      end
  end.

(** [JSON.parse(text)]: [None] stands for the [SyntaxError] it throws. *)
Definition JSON_parse (text : jsstring) : option value :=
  match parse_value (2 * length text + 2) text with
  | Parsed v rest =>
      match skip_ws rest with
      | [] => Some v
      | _ :: _ => None
      end
  | _ => None
  end.

(* ================================================================== *)
(** ** The browser environment *)
(* ================================================================== *)

(** A thrown [Error] object. *)
Record JsError := mkError { err_name : jsstring; err_message : jsstring }.

(** The argument of [fetch(url, options)]. *)
Record Request := mkRequest {
  req_url : jsstring;
  req_method : jsstring;
  req_headers : list (jsstring * jsstring);
  req_mode : jsstring;
  req_body : option jsstring
}.

(** What the code reads of a [Response]. *)
Record Response := mkResponse {
  status : N;
  statusText : jsstring;
  body : jsstring
}.

(** [response.ok] *)
Definition ok (r : Response) : bool := (200 <=? status r) && (status r <=? 299).

(** [response.json()]; [None] is its rejection. *)
Definition response_json (r : Response) : option value := JSON_parse (body r).

(** [fetch] either rejects or resolves with a response. *)
Inductive FetchOutcome : Type :=
| Rejected (e : JsError)
| Responded (r : Response).

Inductive Level : Type := LLog | LWarn | LError.

(** One [console] call: its level, its text and the error passed along. *)
Record LogEntry := mkLog {
  log_level : Level;
  log_text : jsstring;
  log_error : option JsError
}.

(** Instance fields of [GitHubAPI]. *)
Record GitHubAPI := mkGitHubAPI {
  token : jsstring;
  apiBaseUrl : jsstring;
  username : option jsstring;
  repoName : option jsstring
}.

(** Instance fields of [DataManager]; [initPromise] refers to a promise of
    the heap. *)
Record DataManager := mkDataManager {
  githubApi : option GitHubAPI;
  isInitialized : bool;
  useGitHub : bool;
  initPromise : option nat
}.

(** The data fields of [GITHUB_CONFIG]; its [getToken] is [getToken]
    below. *)
Record GITHUB_CONFIG := mkConfig {
  cfg_username : jsstring;
  cfg_repoName : jsstring;
  cfg_enabled : bool
}.

(** The mutable state the scripts share: the [window.dataManager] instance,
    the two storages, the globals the configuration script defines (or
    not), and the promises allocated so far ([None] for a pending one). *)
Record Heap := mkHeap {
  dataManager : DataManager;
  localStorage : gmap jsstring jsstring;
  sessionStorage : gmap jsstring jsstring;
  window_GITHUB_CONFIG : option GITHUB_CONFIG;
  window_GitHubAPI : bool;
  promises : list (option bool)
}.

Definition set_dataManager (f : DataManager -> DataManager) (h : Heap) : Heap :=
  mkHeap (f (dataManager h)) (localStorage h) (sessionStorage h)
         (window_GITHUB_CONFIG h) (window_GitHubAPI h) (promises h).

Definition set_localStorage
    (f : gmap jsstring jsstring -> gmap jsstring jsstring) (h : Heap) : Heap :=
  mkHeap (dataManager h) (f (localStorage h)) (sessionStorage h)
         (window_GITHUB_CONFIG h) (window_GitHubAPI h) (promises h).

Definition set_promises
    (f : list (option bool) -> list (option bool)) (h : Heap) : Heap :=
  mkHeap (dataManager h) (localStorage h) (sessionStorage h)
         (window_GITHUB_CONFIG h) (window_GitHubAPI h) (f (promises h)).

Definition set_githubApi (a : option GitHubAPI) (d : DataManager) :=
  mkDataManager a (isInitialized d) (useGitHub d) (initPromise d).
Definition set_isInitialized (b : bool) (d : DataManager) :=
  mkDataManager (githubApi d) b (useGitHub d) (initPromise d).
Definition set_useGitHub (b : bool) (d : DataManager) :=
  mkDataManager (githubApi d) (isInitialized d) b (initPromise d).
Definition set_initPromise (p : option nat) (d : DataManager) :=
  mkDataManager (githubApi d) (isInitialized d) (useGitHub d) p.

(** What the browser leaves open: the remote server behind [fetch], the
    local calendar, and the texts of the errors the built-ins throw. *)
Record Host := mkHost {
  remote : Type;
  fetch : remote -> Request -> FetchOutcome * remote;
  setDate_back : Z -> Z -> Z;
  toISOString : Z -> jsstring;
  json_syntax_error : jsstring -> JsError;
  atob_error : JsError;
  btoa_error : JsError;
  null_property_error : jsstring -> JsError;
  not_a_constructor_error : JsError
}.

(* ================================================================== *)
(** ** Asynchronous programs *)
(* ================================================================== *)

(** An [async] function body.  [Fetch] and [Await] are the points where it
    may be suspended; everything between two of them runs without
    interruption. *)
Inductive prog (A : Type) : Type :=
| Ret (a : A)
| Throw (e : JsError)
| GetHeap (k : Heap -> prog A)
| SetHeap (f : Heap -> Heap) (k : prog A)
| Console (entry : LogEntry) (k : prog A)
| NewDate (k : Z -> prog A)
| Fetch (req : Request) (k : FetchOutcome -> prog A)
| Await (p : nat) (k : bool -> prog A).
Arguments Ret {A} a.
Arguments Throw {A} e.
Arguments GetHeap {A} k.
Arguments SetHeap {A} f k.
Arguments Console {A} entry k.
Arguments NewDate {A} k.
Arguments Fetch {A} req k.
Arguments Await {A} p k.

Fixpoint bind {A B : Type} (m : prog A) (f : A -> prog B) : prog B :=
  match m with
  | Ret a => f a
  | Throw e => Throw e
  | GetHeap k => GetHeap (fun h => bind (k h) f)
  | SetHeap g k => SetHeap g (bind k f)
  | Console entry k => Console entry (bind k f)
  | NewDate k => NewDate (fun t => bind (k t) f)
  | Fetch req k => Fetch req (fun o => bind (k o) f)
  | Await p k => Await p (fun b => bind (k b) f)
  end.

(** [try { m } catch (error) { handler error }] *)
Fixpoint try_catch {A : Type} (m : prog A) (handler : JsError -> prog A)
  : prog A :=
  match m with
  | Ret a => Ret a
  | Throw e => handler e
  | GetHeap k => GetHeap (fun h => try_catch (k h) handler)
  | SetHeap g k => SetHeap g (try_catch k handler)
  | Console entry k => Console entry (try_catch k handler)
  | NewDate k => NewDate (fun t => try_catch (k t) handler)
  | Fetch req k => Fetch req (fun o => try_catch (k o) handler)
  | Await p k => Await p (fun b => try_catch (k b) handler)
  end.

Declare Scope prog_scope.
Delimit Scope prog_scope with prog.
Bind Scope prog_scope with prog.
Notation "x <- m ;; k" := (bind m (fun x => k))
  (at level 100, m at next level, k at level 200, right associativity)
  : prog_scope.
Notation "m ;; k" := (bind m (fun _ => k))
  (at level 100, k at level 200, right associativity) : prog_scope.
Local Open Scope prog_scope.

Definition set_heap (f : Heap -> Heap) : prog unit := SetHeap f (Ret tt).
Definition console_log (text : string) : prog unit :=
  Console (mkLog LLog (js text) None) (Ret tt).
Definition console_warn (text : string) : prog unit :=
  Console (mkLog LWarn (js text) None) (Ret tt).
Definition console_error (text : string) (e : JsError) : prog unit :=
  Console (mkLog LError (js text) (Some e)) (Ret tt).

(** A built-in that returns or throws. *)
Definition or_throw {A : Type} (o : option A) (e : JsError) : prog A :=
  match o with
  | Some a => Ret a
  | None => Throw e
  end.

(** A template-literal slot holding a string or [null]. *)
Definition slot (o : option jsstring) : jsstring := default (js "null") o.

Section Program.

Variable host : Host.

(** [JSON.parse(x)], [atob(x)], [btoa(x)] and a property read, as steps
    that may throw. *)
Definition JSON_parse_js (text : jsstring) : prog value :=
  or_throw (JSON_parse text) (json_syntax_error host text).
Definition atob_js (text : jsstring) : prog jsstring :=
  or_throw (atob text) (atob_error host).
Definition btoa_js (text : jsstring) : prog jsstring :=
  or_throw (btoa text) (btoa_error host).
Definition prop (v : value) (k : string) : prog value :=
  or_throw (get_prop v (js k)) (null_property_error host (js k)).

(* ================================================================== *)
(** ** [github-config.js]: the configuration object *)
(* ================================================================== *)

(** [GITHUB_CONFIG.getToken()] *)
Definition getToken (h : Heap) : option jsstring :=
  sessionStorage h !! js "github_token".

(* ================================================================== *)
(** ** [github-config.js]: class [GitHubAPI] *)
(* ================================================================== *)

(** [new GitHubAPI(token)] *)
Definition new_GitHubAPI (tok : jsstring) : GitHubAPI :=
  mkGitHubAPI tok (js "https://api.github.com") None None.

(** The receiver of a method call on [dataManager.githubApi]. *)
Definition with_this {A : Type} (f : GitHubAPI -> prog A) : prog A :=
  GetHeap (fun h =>
    match githubApi (dataManager h) with
    | Some this => f this
    | None => Throw (null_property_error host (js "githubApi"))
    end).

Definition GET : jsstring := js "GET".
Definition PUT : jsstring := js "PUT".
Definition DELETE : jsstring := js "DELETE".

(** The [url] and [options] that [makeRequest] passes to [fetch]. *)
Definition build_request (this : GitHubAPI) (endpoint method : jsstring)
    (data : value) : Request :=
  let url := apiBaseUrl this ++ endpoint in
  let headers :=
    [(js "Authorization", js "token " ++ token this);
     (js "Accept", js "application/vnd.github.v3+json");
     (js "Content-Type", js "application/json")] in
  let options_body :=
    if truthy data &&
       (bool_decide (method = js "POST") || bool_decide (method = js "PUT")
        || bool_decide (method = js "PATCH"))
    then JSON_stringify data
    else None in
  mkRequest url method headers (js "cors") options_body.

(** The text of the error [makeRequest] throws on a response that is not
    ok. *)
Definition api_error (response : Response) : JsError :=
  let errorData := default (VObj []) (response_json response) in
  mkError (js "Error")
    (js "GitHub API Error: " ++ N_to_js (status response) ++ js " "
     ++ statusText response ++ js " - " ++ text_of (JSON_stringify errorData)).

(** What [makeRequest] does with the outcome of its [fetch]. *)
Definition settle (method : jsstring) (o : FetchOutcome) : prog value :=
  match o with
  | Rejected e => Throw e
  | Responded response =>
      if negb (ok response) then Throw (api_error response)
      else if bool_decide (method = js "HEAD") || (status response =? 204)%N
      then Ret (VObj [(js "status", VNum (N_to_js (status response)));
                      (js "ok", VBool (ok response))])
      else or_throw (response_json response)
                    (json_syntax_error host (body response))
  end.

(** [makeRequest(endpoint, method = 'GET', data = null)] *)
Definition makeRequest (endpoint method : jsstring) (data : value) : prog value :=
  with_this (fun this =>
    Fetch (build_request this endpoint method data) (settle method)).

(** [initialize(username, repoName)] *)
Definition GitHubAPI_initialize (user repo : jsstring) : prog bool :=
  set_heap (set_dataManager (fun d =>
    set_githubApi
      (option_map (fun this =>
         mkGitHubAPI (token this) (apiBaseUrl this) (Some user) (Some repo))
         (githubApi d)) d));;
  try_catch
    (makeRequest (js "/repos/" ++ user ++ js "/" ++ repo) GET VNull;;
     console_log "GitHub API initialized successfully";;
     Ret true)
    (fun error =>
       console_error "Failed to initialize GitHub API:" error;;
       Ret false).

Definition contents_endpoint (this : GitHubAPI) (path : jsstring) : jsstring :=
  js "/repos/" ++ slot (username this) ++ js "/" ++ slot (repoName this)
  ++ js "/contents/" ++ path.

(** [getFile(path)]: an object with [content], [sha] and [path], or
    [null]. *)
Definition getFile (path : jsstring) : prog value :=
  try_catch
    (with_this (fun this =>
       let endpoint := contents_endpoint this path in
       response <- makeRequest endpoint GET VNull;;
       encoded <- prop response "content";;
       content <- atob_js (ToString encoded);;
       sha <- prop response "sha";;
       file_path <- prop response "path";;
       Ret (VObj [(js "content", VStr content); (js "sha", sha);
                  (js "path", file_path)])))
    (fun error =>
       if includes (err_message error) (js "404")
       then Ret VNull
       else Throw error).

(** [saveFile(path, content, message)] *)
Definition saveFile (path content message : jsstring) : prog value :=
  existingFile <- getFile path;;
  sha <- (if truthy existingFile then prop existingFile "sha" else Ret VNull);;
  with_this (fun this =>
    let endpoint := contents_endpoint this path in
    encoded <- btoa_js content;;
    let data :=
      [(js "message", VStr message); (js "content", VStr encoded);
       (js "branch", VStr (js "main"))] in
    let data := if truthy sha then obj_set data (js "sha") sha else data in
    makeRequest endpoint PUT (VObj data)).

(** [deleteFile(path, message)] *)
Definition deleteFile (path message : jsstring) : prog value :=
  existingFile <- getFile path;;
  if negb (truthy existingFile)
  then Throw (mkError (js "Error") (js "File not found: " ++ path))
  else
    with_this (fun this =>
      let endpoint := contents_endpoint this path in
      sha <- prop existingFile "sha";;
      let data :=
        [(js "message", VStr message); (js "sha", sha);
         (js "branch", VStr (js "main"))] in
      makeRequest endpoint DELETE (VObj data)).

(** The four readers share one shape: [getFile], then [JSON.parse] of the
    content, with a fixed value when the file is absent or anything
    fails. *)
Definition read_document (path : string) (what : string) (fallback : value)
  : prog value :=
  try_catch
    (file <- getFile (js path);;
     if truthy file
     then content <- prop file "content";; JSON_parse_js (ToString content)
     else Ret fallback)
    (fun error => console_error what error;; Ret fallback).

(** The four writers share one shape: [JSON.stringify(v, null, 2)], then
    [saveFile]; [true] on success and [false] when anything fails. *)
Definition write_document (path : string) (v : value) (message what : string)
  : prog value :=
  try_catch
    (saveFile (js path) (text_of (JSON_stringify_2 v)) (js message);;
     Ret (VBool true))
    (fun error => console_error what error;; Ret (VBool false)).

Definition default_social_links : value :=
  VObj [(js "youtube", VStr (js "https://www.youtube.com"));
        (js "discord", VStr (js "https://discord.com"))].

Definition default_admin_settings : value :=
  VObj [(js "adminCode", VStr (js "0988131688"))].

Definition GitHubAPI_getNewsItems : prog value :=
  read_document "news.json" "Error getting news items:" (VArr []).
Definition GitHubAPI_saveNewsItems (newsItems : value) : prog value :=
  write_document "news.json" newsItems "Update news items"
    "Error saving news items:".
Definition GitHubAPI_getSiteSettings : prog value :=
  read_document "settings.json" "Error getting site settings:" (VObj []).
Definition GitHubAPI_saveSiteSettings (settings : value) : prog value :=
  write_document "settings.json" settings "Update site settings"
    "Error saving site settings:".
Definition GitHubAPI_getSocialLinks : prog value :=
  read_document "social.json" "Error getting social links:"
    default_social_links.
Definition GitHubAPI_saveSocialLinks (links : value) : prog value :=
  write_document "social.json" links "Update social media links"
    "Error saving social links:".
Definition GitHubAPI_getAdminSettings : prog value :=
  read_document "admin.json" "Error getting admin settings:"
    default_admin_settings.
Definition GitHubAPI_saveAdminSettings (settings : value) : prog value :=
  write_document "admin.json" settings "Update admin settings"
    "Error saving admin settings:".

(* ================================================================== *)
(** ** The data manager script: class [DataManager] *)
(* ================================================================== *)

(** [new DataManager()] *)
Definition new_DataManager : DataManager := mkDataManager None false false None.

Definition set_field (f : DataManager -> DataManager) : prog unit :=
  set_heap (set_dataManager f).

(** The tail of the promise executor, "Fallback to localStorage". *)
Definition fallback_to_localStorage : prog bool :=
  console_log "Using localStorage for data storage";;
  set_field (set_useGitHub false);;
  set_field (set_isInitialized true);;
  Ret true.

(** The body of the promise executor of [initialize]; its result is the
    argument of the one [resolve] call it makes. *)
Definition executor : prog bool :=
  try_catch
    (GetHeap (fun h =>
       match window_GITHUB_CONFIG h with
       | Some config =>
           if cfg_enabled config then
             let user := cfg_username config in
             let repo := cfg_repoName config in
             let tok := getToken h in
             if nonempty user && nonempty repo && nonempty (default [] tok)
             then
               (if window_GitHubAPI h
                then set_field (set_githubApi
                                  (Some (new_GitHubAPI (default [] tok))))
                else Throw (not_a_constructor_error host));;
               success <- GitHubAPI_initialize user repo;;
               if success : bool then
                 console_log "Using GitHub API for data storage";;
                 set_field (set_useGitHub true);;
                 set_field (set_isInitialized true);;
                 Ret true
               else
                 console_warn
                   "Failed to initialize GitHub API, falling back to localStorage";;
                 fallback_to_localStorage
             else
               console_warn
                 "GitHub API configuration is incomplete, falling back to localStorage";;
               fallback_to_localStorage
           else fallback_to_localStorage
       | None => fallback_to_localStorage
       end))
    (fun error =>
       console_error "Error initializing data manager:" error;;
       set_field (set_useGitHub false);;
       set_field (set_isInitialized true);;
       Ret false).

(** [resolve(b)] on promise [p] *)
Definition resolve (p : nat) (b : bool) (h : Heap) : Heap :=
  set_promises (fun ps => <[p := Some b]> ps) h.

(** [initialize()]: the promise it hands back.  The first call allocates
    the promise and runs the executor; the executor is an [async] function
    whose only caller is this one, so it is run in line, and the promise
    is resolved with its result. *)
Definition initialize : prog nat :=
  GetHeap (fun h =>
    match initPromise (dataManager h) with
    | Some p => Ret p
    | None =>
        let p := length (promises h) in
        set_heap (fun h' =>
          set_dataManager (set_initPromise (Some p))
            (set_promises (fun ps => ps ++ [None]) h'));;
        b <- executor;;
        set_heap (resolve p b);;
        Ret p
    end).

(** [_ensureInitialized()] *)
Definition _ensureInitialized : prog unit :=
  GetHeap (fun h =>
    if isInitialized (dataManager h) then Ret tt
    else p <- initialize;; Await p (fun _ => Ret tt)).

Definition sample_item (id title category content cover : string)
    (gallery : list string) (date : jsstring) : value :=
  VObj [(js "id", VStr (js id)); (js "title", VStr (js title));
        (js "category", VStr (js category)); (js "content", VStr (js content));
        (js "coverImageUrl", VStr (js cover));
        (js "galleryImages", VArr (List.map (fun u => VStr (js u)) gallery));
        (js "date", VStr date); (js "edited", VNull)].

(** The array [_createSampleNewsData()] builds when [new Date()] is
    [now]. *)
Definition sample_news (now : Z) : value :=
    let yesterday := setDate_back host 1 now in
    let twoDaysAgo := setDate_back host 2 now in
    VArr [
      sample_item "1" "Welcome to NOARZ" "roblox-script"
        "Welcome to our news platform! This is a sample post to show how the system works."
        "https://i.imgur.com/IuN9n69.jpg"
        ["https://i.imgur.com/IuN9n69.jpg"; "https://i.imgur.com/jCgYAFB.jpg"]%string
        (toISOString host now);
      sample_item "2" "New Features Coming Soon" "runner"
        "We are working on exciting new features for our platform. Stay tuned for updates!"
        "https://i.imgur.com/jCgYAFB.jpg"
        ["https://i.imgur.com/jCgYAFB.jpg"; "https://i.imgur.com/UKQEMkT.jpg"]%string
        (toISOString host yesterday);
      sample_item "3" "How to Use the Admin Panel" "roblox-script"
        "This guide explains how to use the admin panel to manage your news posts."
        "https://i.imgur.com/UKQEMkT.jpg"
        ["https://i.imgur.com/IuN9n69.jpg"; "https://i.imgur.com/jCgYAFB.jpg";
         "https://i.imgur.com/UKQEMkT.jpg"; "https://i.imgur.com/YTKM8bR.jpg"]%string
        (toISOString host twoDaysAgo)].

(** [_createSampleNewsData()] *)
Definition _createSampleNewsData : prog value :=
  NewDate (fun now => Ret (sample_news now)).

(** [localStorage.getItem(key)]; [None] is [null]. *)
Definition getItem (h : Heap) (key : string) : option jsstring :=
  localStorage h !! js key.

(** [localStorage.setItem(key, v)] *)
Definition setItem (key : string) (v : jsstring) : prog unit :=
  set_heap (set_localStorage (fun m => <[js key := v]> m)).

(** [localStorage.getItem(key) || fallback] *)
Definition getItem_or (h : Heap) (key : string) (fallback : jsstring) : jsstring :=
  match getItem h key with
  | Some s => if nonempty s then s else fallback
  | None => fallback
  end.

(** The dispatch every accessor makes after [_ensureInitialized()]. *)
Definition dispatch {A : Type} (on_github on_local : Heap -> prog A) : prog A :=
  _ensureInitialized;;
  GetHeap (fun h =>
    if useGitHub (dataManager h) then on_github h else on_local h).

(** [this.githubApi.m()] *)
Definition on_githubApi {A : Type} (m : prog A) : Heap -> prog A :=
  fun _ => with_this (fun _ => m).

Definition getNewsItems : prog value :=
  dispatch (on_githubApi GitHubAPI_getNewsItems)
    (fun h =>
       newsItems <- JSON_parse_js (slot (getItem h "jjkNews"));;
       if negb (truthy newsItems) then _createSampleNewsData
       else Ret newsItems).

Definition saveNewsItems (newsItems : value) : prog value :=
  dispatch (on_githubApi (GitHubAPI_saveNewsItems newsItems))
    (fun _ =>
       setItem "jjkNews" (text_of (JSON_stringify newsItems));;
       Ret (VBool true)).

(** The default header as the script spells it. *)
Definition default_newsHeader : jsstring :=
  [240; 376; 8220; 176] ++ js "MESSAGE" ++ [240; 376; 8220; 163].

Definition getSiteSettings : prog value :=
  dispatch (on_githubApi GitHubAPI_getSiteSettings)
    (fun h =>
       Ret (VObj [(js "siteTitle", VStr (getItem_or h "jjkSiteTitle" (js "NOARZ")));
                  (js "newsHeader",
                   VStr (getItem_or h "jjkNewsHeader" default_newsHeader))])).

Definition saveSiteSettings (settings : value) : prog value :=
  dispatch (on_githubApi (GitHubAPI_saveSiteSettings settings))
    (fun _ =>
       siteTitle <- prop settings "siteTitle";;
       setItem "jjkSiteTitle" (ToString siteTitle);;
       newsHeader <- prop settings "newsHeader";;
       setItem "jjkNewsHeader" (ToString newsHeader);;
       Ret (VBool true)).

Definition getSocialLinks : prog value :=
  dispatch (on_githubApi GitHubAPI_getSocialLinks)
    (fun h =>
       stored <- JSON_parse_js (slot (getItem h "jjkSocialLinks"));;
       Ret (if truthy stored then stored else default_social_links)).

Definition saveSocialLinks (links : value) : prog value :=
  dispatch (on_githubApi (GitHubAPI_saveSocialLinks links))
    (fun _ =>
       setItem "jjkSocialLinks" (text_of (JSON_stringify links));;
       Ret (VBool true)).

Definition getAdminSettings : prog value :=
  dispatch (on_githubApi GitHubAPI_getAdminSettings)
    (fun h =>
       Ret (VObj [(js "adminCode",
                   VStr (getItem_or h "jjkAdminCode" (js "0988131688")))])).

Definition saveAdminSettings (settings : value) : prog value :=
  dispatch (on_githubApi (GitHubAPI_saveAdminSettings settings))
    (fun _ =>
       adminCode <- prop settings "adminCode";;
       setItem "jjkAdminCode" (ToString adminCode);;
       Ret (VBool true)).

End Program.

(* ================================================================== *)
(** ** Running a program *)
(* ================================================================== *)

(** What surrounds the heap: the [fetch] calls made so far, the console,
    and the clock. *)
Record Env := mkEnv {
  heap : Heap;
  requests : list Request;
  console : list LogEntry;
  clock : Z
}.

Definition set_heap_of (f : Heap -> Heap) (e : Env) : Env :=
  mkEnv (f (heap e)) (requests e) (console e) (clock e).
Definition add_request (r : Request) (e : Env) : Env :=
  mkEnv (heap e) (requests e ++ [r]) (console e) (clock e).
Definition add_log (l : LogEntry) (e : Env) : Env :=
  mkEnv (heap e) (requests e) (console e ++ [l]) (clock e).
Definition set_clock (t : Z) (e : Env) : Env :=
  mkEnv (heap e) (requests e) (console e) t.

(** How an awaited call ends: it returns, it throws, or it waits on a
    promise nobody resolves. *)
Inductive outcome (A : Type) : Type :=
| Returned (a : A)
| Raised (e : JsError)
| Waiting.
Arguments Returned {A} a.
Arguments Raised {A} e.
Arguments Waiting {A}.

(** The value a promise of the heap was resolved with, if it was. *)
Definition resolved (h : Heap) (p : nat) : option bool :=
  match promises h !! p with
  | Some (Some b) => Some b
  | _ => None
  end.

Section Run.

Variable host : Host.

(** One call run on its own from start to end, every [fetch] answered
    by the remote at once. *)
Fixpoint run {A : Type} (m : prog A) (e : Env) (r : remote host)
  : outcome A * Env * remote host :=
  match m with
  | Ret a => (Returned a, e, r)
  | Throw x => (Raised x, e, r)
  | GetHeap k => run (k (heap e)) e r
  | SetHeap f k => run k (set_heap_of f e) r
  | Console entry k => run k (add_log entry e) r
  | NewDate k => run (k (clock e)) e r
  | Fetch req k =>
      let '(o, r') := fetch host r req in
      run (k o) (add_request req e) r'
  | Await p k =>
      match resolved (heap e) p with
      | Some b => run (k b) e r
      | None => (Waiting, e, r)
      end
  end.

End Run.

(** *** Calls in flight together *)

(** A call that was started: ended, or suspended at a [fetch] already
    sent, or at an [await] of a pending promise. *)
Inductive task (A : Type) : Type :=
| Ended (o : outcome A)
| OnFetch (k : FetchOutcome -> prog A)
| OnPromise (p : nat) (k : bool -> prog A).
Arguments Ended {A} o.
Arguments OnFetch {A} k.
Arguments OnPromise {A} p k.

(** A call runs without interruption up to its next suspension. *)
Fixpoint advance {A : Type} (m : prog A) (e : Env) : task A * Env :=
  match m with
  | Ret a => (Ended (Returned a), e)
  | Throw x => (Ended (Raised x), e)
  | GetHeap k => advance (k (heap e)) e
  | SetHeap f k => advance k (set_heap_of f e)
  | Console entry k => advance k (add_log entry e)
  | NewDate k => advance (k (clock e)) e
  | Fetch req k => (OnFetch k, add_request req e)
  | Await p k =>
      match resolved (heap e) p with
      | Some b => advance (k b) e
      | None => (OnPromise p k, e)
      end
  end.

(** *** A scripted remote *)

(** A remote that answers the successive [fetch] calls with a prepared list
    of outcomes, and rejects once the list is used up. *)
Definition scripted (unavailable : JsError) (script : list FetchOutcome)
    (req : Request) : FetchOutcome * list FetchOutcome :=
  match script with
  | o :: rest => (o, rest)
  | [] => (Rejected unavailable, [])
  end.

(** A decimal number left-padded with zeros to [width] digits. *)
Definition padded (width : nat) (n : Z) : jsstring :=
  let ds := N_to_js (Z.to_N n) in
  List.repeat 48%N (width - length ds) ++ ds.

(** [Date.prototype.toISOString] for the years 0000 to 9999 of the
    proleptic Gregorian calendar; [t] is in milliseconds since the epoch. *)
Definition iso_string (t : Z) : jsstring :=
  (let days := t / 86400000 in
   let ms := t mod 86400000 in
   let z := days + 719468 in
   let era := z / 146097 in
   let doe := z - era * 146097 in
   let yoe := (doe - doe / 1460 + doe / 36524 - doe / 146096) / 365 in
   let doy := doe - (365 * yoe + yoe / 4 - yoe / 100) in
   let mp := (5 * doy + 2) / 153 in
   let d := doy - (153 * mp + 2) / 5 + 1 in
   let m := if mp <? 10 then mp + 3 else mp - 9 in
   let y := yoe + era * 400 + (if m <=? 2 then 1 else 0) in
   padded 4 y ++ js "-" ++ padded 2 m ++ js "-" ++ padded 2 d ++ js "T"
   ++ padded 2 (ms / 3600000) ++ js ":" ++ padded 2 (ms / 60000 mod 60)
   ++ js ":" ++ padded 2 (ms / 1000 mod 60) ++ js "."
   ++ padded 3 (ms mod 1000) ++ js "Z")%Z.

Definition failed_to_fetch : JsError :=
  mkError (js "TypeError") (js "Failed to fetch").

(** A host for worked examples: scripted remote, UTC calendar, and the
    error texts of one browser. *)
Definition example_host : Host :=
  mkHost (list FetchOutcome) (scripted failed_to_fetch)
    (fun days t => (t - days * 86400000)%Z)
    iso_string
    (fun text => mkError (js "SyntaxError") (js "Unexpected token"))
    (mkError (js "InvalidCharacterError")
       (js "The string to be decoded is not correctly encoded."))
    (mkError (js "InvalidCharacterError")
       (js "The string to be encoded contains characters outside of the Latin1 range."))
    (fun k => mkError (js "TypeError")
       (js "Cannot read properties of null (reading '" ++ k ++ js "')"))
    (mkError (js "TypeError") (js "window.GitHubAPI is not a constructor")).

(* ================================================================== *)
(** ** Vocabulary of the properties *)
(* ================================================================== *)

(** The request [getFile(path)] sends. *)
Definition get_request (this : GitHubAPI) (path : jsstring) : Request :=
  build_request this (contents_endpoint this path) GET VNull.

(** The object [saveFile] passes to [makeRequest]: with the content-hash
    token when one was found, without a [sha] property otherwise. *)
Definition write_data (message encoded : jsstring) (sha : option value)
  : value :=
  VObj ([(js "message", VStr message); (js "content", VStr encoded);
         (js "branch", VStr (js "main"))]
        ++ match sha with
           | Some token => [(js "sha", token)]
           | None => []
           end).

(** The request [saveFile(path, content, message)] sends after its
    [getFile]. *)
Definition put_request (this : GitHubAPI) (path message encoded : jsstring)
    (sha : option value) : Request :=
  build_request this (contents_endpoint this path) PUT
    (write_data message encoded sha).

(** The remote reports "not found". *)
Definition not_found (o : FetchOutcome) : Prop :=
  exists response, o = Responded response /\ status response = 404%N.

(** The remote answers with the file: an ok response whose JSON body holds
    the base64 of [content] and the content-hash token [sha]. *)
Definition file_found (o : FetchOutcome) (content : jsstring) (sha : value)
  : Prop :=
  exists response v encoded,
    o = Responded response /\ ok response = true
    /\ status response <> 204%N
    /\ response_json response = Some v
    /\ get_prop v (js "content") = Some encoded
    /\ atob (ToString encoded) = Some content
    /\ get_prop v (js "sha") = Some sha.

(** The requests a run added to the trace. *)
Definition sent_since (before after : Env) : list Request :=
  drop (length (requests before)) (requests after).

(** The backend selection of the data manager. *)
Definition local_selected (h : Heap) : Prop :=
  isInitialized (dataManager h) = true /\ useGitHub (dataManager h) = false.

Definition remote_selected (h : Heap) (this : GitHubAPI) : Prop :=
  isInitialized (dataManager h) = true /\ useGitHub (dataManager h) = true
  /\ githubApi (dataManager h) = Some this.

(** *** Worked examples *)

Definition example_api : GitHubAPI :=
  mkGitHubAPI (js "secret") (js "https://api.github.com")
    (Some (js "noarz")) (Some (js "site-data")).

Definition example_config : GITHUB_CONFIG :=
  mkConfig (js "noarz") (js "site-data") true.

(** A page before any use of the data manager. *)
Definition fresh_heap (config : option GITHUB_CONFIG)
    (session : gmap jsstring jsstring) : Heap :=
  mkHeap new_DataManager ∅ session config true [].

(** A page whose data manager settled on the local backend. *)
Definition local_heap (storage : gmap jsstring jsstring) : Heap :=
  mkHeap (mkDataManager None true false (Some 0%nat)) storage ∅ None true
    [Some true].

(** A page whose data manager settled on the remote backend. *)
Definition remote_heap : Heap :=
  mkHeap (mkDataManager (Some example_api) true true (Some 0%nat)) ∅
    {[ js "github_token" := js "secret" ]} (Some example_config) true
    [Some true].

Definition example_env (h : Heap) : Env := mkEnv h [] [] 1793627096789.

Definition respond (code : N) (text : string) (payload : value) : FetchOutcome :=
  Responded (mkResponse code (js text) (text_of (JSON_stringify payload))).

Definition message_payload (text : string) : value :=
  VObj [(js "message", VStr (js text))].

Definition file_payload (encoded sha : jsstring) : value :=
  VObj [(js "name", VStr (js "news.json")); (js "path", VStr (js "news.json"));
        (js "sha", VStr sha); (js "content", VStr encoded)].

(** The four document kinds and their accessor pairs. *)
Inductive kind : Type := NewsItems | SiteSettings | SocialLinks | AdminSettings.

Definition get_document (host : Host) (k : kind) : prog value :=
  match k with
  | NewsItems => getNewsItems host
  | SiteSettings => getSiteSettings host
  | SocialLinks => getSocialLinks host
  | AdminSettings => getAdminSettings host
  end.

Definition save_document (host : Host) (k : kind) (v : value) : prog value :=
  match k with
  | NewsItems => saveNewsItems host v
  | SiteSettings => saveSiteSettings host v
  | SocialLinks => saveSocialLinks host v
  | AdminSettings => saveAdminSettings host v
  end.

(** The request of the connectivity probe for a configuration and a
    token. *)
Definition probe_request (config : GITHUB_CONFIG) (tok : jsstring) : Request :=
  build_request
    (mkGitHubAPI tok (js "https://api.github.com")
       (Some (cfg_username config)) (Some (cfg_repoName config)))
    (js "/repos/" ++ cfg_username config ++ js "/" ++ cfg_repoName config)
    GET VNull.

(** The outcomes of a GET on which [makeRequest] throws: the [fetch] is
    rejected, the response is not ok, or its body is not JSON. *)
Definition request_fails (o : FetchOutcome) : Prop :=
  match o with
  | Rejected _ => True
  | Responded response =>
      ok response = false
      \/ (status response <> 204%N /\ response_json response = None)
  end.

(** Remote configuration is absent, or incomplete, or the probe fails. *)
Inductive remote_unavailable (host : Host) (h : Heap) (r : remote host) : Prop :=
| config_absent :
    window_GITHUB_CONFIG h = None -> remote_unavailable host h r
| config_incomplete config :
    window_GITHUB_CONFIG h = Some config ->
    cfg_username config = [] \/ cfg_repoName config = []
    \/ getToken h = None \/ getToken h = Some [] ->
    remote_unavailable host h r
| probe_fails config tok :
    window_GITHUB_CONFIG h = Some config ->
    getToken h = Some tok ->
    request_fails (fst (fetch host r (probe_request config tok))) ->
    remote_unavailable host h r.

(** The [id] of each item of a collection. *)
Definition item_ids (v : value) : list value :=
  match v with
  | VArr items =>
      List.map (fun item => default VUndefined (get_prop item (js "id"))) items
  | _ => []
  end.

(** The path of a document kind on the remote, and the value its remote
    reader falls back to. *)
Definition remote_path (k : kind) : jsstring :=
  match k with
  | NewsItems => js "news.json"
  | SiteSettings => js "settings.json"
  | SocialLinks => js "social.json"
  | AdminSettings => js "admin.json"
  end.

Definition remote_fallback (k : kind) : value :=
  match k with
  | NewsItems => VArr []
  | SiteSettings => VObj []
  | SocialLinks => default_social_links
  | AdminSettings => default_admin_settings
  end.

(** Sequencing and catching on the results of [run]. *)
Section Results.

Variable host : Host.

Definition and_then {A B : Type} (x : outcome A * Env * remote host)
    (f : A -> Env -> remote host -> outcome B * Env * remote host)
  : outcome B * Env * remote host :=
  match x with
  | (Returned a, e, r) => f a e r
  | (Raised err, e, r) => (Raised err, e, r)
  | (Waiting, e, r) => (Waiting, e, r)
  end.

Definition or_else {A : Type} (x : outcome A * Env * remote host)
    (f : JsError -> Env -> remote host -> outcome A * Env * remote host)
  : outcome A * Env * remote host :=
  match x with
  | (Raised err, e, r) => f err e r
  | other => other
  end.

End Results.

(** What the executor leaves behind on the local path. *)
Definition settled_local (h h' : Heap) : Prop :=
  isInitialized (dataManager h') = true
  /\ useGitHub (dataManager h') = false
  /\ initPromise (dataManager h') = initPromise (dataManager h)
  /\ localStorage h' = localStorage h
  /\ promises h' = promises h.


(** The encoding of [btoa] without its padding. *)
Fixpoint b64_unpadded (bytes : list N) : jsstring :=
  match bytes with
  | [] => []
  | [a] => [b64_char (a / 4); b64_char ((a mod 4) * 16)]
  | [a; b] =>
      [b64_char (a / 4); b64_char ((a mod 4) * 16 + b / 16);
       b64_char ((b mod 16) * 4)]
  | a :: b :: c :: rest =>
      b64_char (a / 4) :: b64_char ((a mod 4) * 16 + b / 16)
      :: b64_char ((b mod 16) * 4 + c / 64) :: b64_char (c mod 64)
      :: b64_unpadded rest
  end.

(** *** Values that JSON text represents exactly *)

Definition all_ws (s : jsstring) : bool := forallb is_json_ws s.

(** Every element is a UTF-16 code unit. *)
Definition code_units (s : jsstring) : bool := forallb (fun c => c <? 65536) s.

(** No [undefined] and no number anywhere, strings made of code units,
    and no property name twice in an object. *)
Fixpoint storable (v : value) : bool :=
  match v with
  | VUndefined | VNum _ => false
  | VNull | VBool _ => true
  | VStr s => code_units s
  | VArr items =>
      (fix all (l : list value) : bool :=
         match l with
         | [] => true
         | x :: t => storable x && all t
         end) items
  | VObj props =>
      bool_decide (NoDup (List.map fst props))
      && (fix all (l : list (jsstring * value)) : bool :=
            match l with
            | [] => true
            | (k, x) :: t => code_units k && storable x && all t
            end) props
  end.

(** A bound on the depth of the descent of [parse_value] on the text of a
    value. *)
Fixpoint size (v : value) : nat :=
  match v with
  | VArr items =>
      S ((fix sum (l : list value) : nat :=
            match l with
            | [] => 0%nat
            | x :: t => (S (size x) + sum t)%nat
            end) items)
  | VObj props =>
      S ((fix sum (l : list (jsstring * value)) : nat :=
            match l with
            | [] => 0%nat
            | (_, x) :: t => (S (size x) + sum t)%nat
            end) props)
  | _ => 1%nat
  end.

(** The text of one element of an array and of one member of an object. *)
Definition element_text (gap inner : jsstring) (x : value) : jsstring :=
  default (js "null") (serialize gap inner x).

Definition colon (gap : jsstring) : jsstring :=
  if nonempty gap then [58; 32] else [58].

Definition member_text (gap inner : jsstring) (kv : jsstring * value)
  : jsstring :=
  quote (fst kv) ++ colon gap ++ text_of (serialize gap inner (snd kv)).


(** The text of [v] is read back as [v], whatever the indentation and
    whatever follows, by a descent of depth [size v]; the text has at
    least [size v] characters. *)
Definition reads_back (v : value) : Prop :=
  forall gap indent rest fuel,
    all_ws gap = true -> all_ws indent = true -> (size v <= fuel)%nat ->
    exists text,
      serialize gap indent v = Some text
      /\ parse_value fuel (text ++ rest) = Parsed v rest
      /\ (size v <= length text)%nat.

(** The commit message of the writer of a document kind. *)
Definition commit_message (k : kind) : jsstring :=
  match k with
  | NewsItems => js "Update news items"
  | SiteSettings => js "Update site settings"
  | SocialLinks => js "Update social media links"
  | AdminSettings => js "Update admin settings"
  end.

(** The values of each kind that the local backend gives back as they
    were saved: any truthy storable value for the two kinds kept as JSON
    text, and records without an empty field for the two kinds kept field
    by field. *)
Definition local_faithful (k : kind) (v : value) : Prop :=
  match k with
  | NewsItems | SocialLinks => storable v = true /\ truthy v = true
  | SiteSettings =>
      exists title header,
        v = VObj [(js "siteTitle", VStr title); (js "newsHeader", VStr header)]
        /\ title <> [] /\ header <> []
  | AdminSettings =>
      exists code, v = VObj [(js "adminCode", VStr code)] /\ code <> []
  end.

(** The remote answers a GET with a file whose base64 content is
    [encoded]. *)
Definition serves (o : FetchOutcome) (encoded : jsstring) : Prop :=
  exists response v,
    o = Responded response /\ ok response = true
    /\ status response <> 204%N
    /\ response_json response = Some v
    /\ get_prop v (js "content") = Some (VStr encoded).

(** A program that only returns or throws. *)
Definition pure {A : Type} (m : prog A) : Prop :=
  match m with
  | Ret _ | Throw _ => True
  | _ => False
  end.

(** The two branches of each accessor, as [dispatch] receives them. *)
Definition remote_reader (host : Host) (k : kind) : prog value :=
  match k with
  | NewsItems => GitHubAPI_getNewsItems host
  | SiteSettings => GitHubAPI_getSiteSettings host
  | SocialLinks => GitHubAPI_getSocialLinks host
  | AdminSettings => GitHubAPI_getAdminSettings host
  end.

Definition remote_writer (host : Host) (k : kind) (v : value) : prog value :=
  match k with
  | NewsItems => GitHubAPI_saveNewsItems host v
  | SiteSettings => GitHubAPI_saveSiteSettings host v
  | SocialLinks => GitHubAPI_saveSocialLinks host v
  | AdminSettings => GitHubAPI_saveAdminSettings host v
  end.

Definition local_reader (host : Host) (k : kind) (h : Heap) : prog value :=
  match k with
  | NewsItems =>
      newsItems <- JSON_parse_js host (slot (getItem h "jjkNews"));;
      if negb (truthy newsItems) then _createSampleNewsData host
      else Ret newsItems
  | SiteSettings =>
      Ret (VObj [(js "siteTitle",
                  VStr (getItem_or h "jjkSiteTitle" (js "NOARZ")));
                 (js "newsHeader",
                  VStr (getItem_or h "jjkNewsHeader" default_newsHeader))])
  | SocialLinks =>
      stored <- JSON_parse_js host (slot (getItem h "jjkSocialLinks"));;
      Ret (if truthy stored then stored else default_social_links)
  | AdminSettings =>
      Ret (VObj [(js "adminCode",
                  VStr (getItem_or h "jjkAdminCode" (js "0988131688")))])
  end.

Definition local_writer (host : Host) (k : kind) (v : value) (h : Heap)
  : prog value :=
  match k with
  | NewsItems =>
      setItem "jjkNews" (text_of (JSON_stringify v));; Ret (VBool true)
  | SiteSettings =>
      siteTitle <- prop host v "siteTitle";;
      setItem "jjkSiteTitle" (ToString siteTitle);;
      newsHeader <- prop host v "newsHeader";;
      setItem "jjkNewsHeader" (ToString newsHeader);;
      Ret (VBool true)
  | SocialLinks =>
      setItem "jjkSocialLinks" (text_of (JSON_stringify v));; Ret (VBool true)
  | AdminSettings =>
      adminCode <- prop host v "adminCode";;
      setItem "jjkAdminCode" (ToString adminCode);;
      Ret (VBool true)
  end.

(** What an accessor does after [_ensureInitialized()]. *)
Definition after_ensure {A : Type} (on_github on_local : Heap -> prog A)
  : prog A :=
  GetHeap (fun h =>
    if useGitHub (dataManager h) then on_github h else on_local h).

(* ================================================================== *)
(** ** The page: calls in flight together *)
(* ================================================================== *)

(** A call that some script makes on [window.dataManager]. *)
Inductive call : Type :=
| CallInitialize
| CallGet (k : kind)
| CallSave (k : kind) (v : value).

(** What such a call hands back: the promise of [initialize], or the value
    an accessor resolves to. *)
Inductive answer : Type :=
| Promise (p : nat)
| Value (v : value).

Definition call_prog (host : Host) (c : call) : prog answer :=
  match c with
  | CallInitialize => p <- initialize host;; Ret (Promise p)
  | CallGet k => v <- get_document host k;; Ret (Value v)
  | CallSave k v => x <- save_document host k v;; Ret (Value x)
  end.

(** The page: its state and the calls started so far, in order. *)
Record Page := mkPage {
  page_env : Env;
  page_tasks : list (call * task answer)
}.

(** What can happen next on the single thread: a script makes a call; the
    [fetch] of a suspended call settles; a call that waits on a promise
    which is now resolved goes on.  The network answers whatever it
    likes, whenever it likes, and waiting calls resume in any order. *)
Inductive event : Type :=
| Call (c : call)
| Reply (i : nat) (o : FetchOutcome)
| Resume (i : nat).

Definition step (host : Host) (pg : Page) (ev : event) : Page :=
  match ev with
  | Call c =>
      let '(t, e) := advance (call_prog host c) (page_env pg) in
      mkPage e (page_tasks pg ++ [(c, t)])
  | Reply i o =>
      match page_tasks pg !! i with
      | Some (c, OnFetch k) =>
          let '(t, e) := advance (k o) (page_env pg) in
          mkPage e (<[i := (c, t)]> (page_tasks pg))
      | _ => pg
      end
  | Resume i =>
      match page_tasks pg !! i with
      | Some (c, OnPromise p k) =>
          match resolved (heap (page_env pg)) p with
          | Some b =>
              let '(t, e) := advance (k b) (page_env pg) in
              mkPage e (<[i := (c, t)]> (page_tasks pg))
          | None => pg
          end
      | _ => pg
      end
  end.

Definition play (host : Host) (pg : Page) (evs : list event) : Page :=
  fold_left (step host) evs pg.

(** The probe that the configuration of a page calls for, if any. *)
Definition probe_of (h : Heap) : option Request :=
  match window_GITHUB_CONFIG h, getToken h with
  | Some config, Some tok => Some (probe_request config tok)
  | _, _ => None
  end.

#[global] Instance Request_eq_dec : EqDecision Request.
Proof. solve_decision. Defined.

Definition is_probe (h : Heap) (q : Request) : bool :=
  bool_decide (probe_of h = Some q).

(** A started call followed by [f]: the step that [bind] adds. *)
Definition advance_then {A B : Type} (x : task A * Env) (f : A -> prog B)
  : task B * Env :=
  match x with
  | (Ended (Returned a), e) => advance (f a) e
  | (Ended (Raised err), e) => (Ended (Raised err), e)
  | (Ended Waiting, e) => (Ended Waiting, e)
  | (OnFetch k, e) => (OnFetch (fun o => bind (k o) f), e)
  | (OnPromise p k, e) => (OnPromise p (fun b => bind (k b) f), e)
  end.

(** *** Invariants of programs *)

(** Every step of [m] keeps the invariant [I] of the heap, every request
    it sends satisfies [sends], the only promise it waits on is [awaited],
    and what it returns satisfies [post]. *)
Fixpoint safe {A : Type} (I : Heap -> Prop) (sends : Request -> Prop)
    (awaited : nat) (post : A -> Prop) (m : prog A) : Prop :=
  match m with
  | Ret a => post a
  | Throw _ => True
  | GetHeap k => forall h, I h -> safe I sends awaited post (k h)
  | SetHeap f k => (forall h, I h -> I (f h)) /\ safe I sends awaited post k
  | Console _ k => safe I sends awaited post k
  | NewDate k => forall t, safe I sends awaited post (k t)
  | Fetch q k => sends q /\ forall o, safe I sends awaited post (k o)
  | Await p k => p = awaited /\ forall b, safe I sends awaited post (k b)
  end.

(** The same for a call that was started. *)
Definition task_safe {A : Type} (I : Heap -> Prop) (sends : Request -> Prop)
    (awaited : nat) (post : A -> Prop) (t : task A) : Prop :=
  match t with
  | Ended (Returned a) => post a
  | Ended _ => True
  | OnFetch k => forall o, safe I sends awaited post (k o)
  | OnPromise p k => p = awaited /\ forall b, safe I sends awaited post (k b)
  end.

Section Phases.

Variable host : Host.

(** The page as it was before the first call. *)
Variable e0 : Env.

(** The promise that the first [initialize] allocates. *)
Definition shared_promise : nat := length (promises (heap e0)).

(** What no call changes. *)
Definition frozen (h : Heap) : Prop :=
  window_GITHUB_CONFIG h = window_GITHUB_CONFIG (heap e0)
  /\ window_GitHubAPI h = window_GitHubAPI (heap e0)
  /\ sessionStorage h = sessionStorage (heap e0).

(** The [GitHubAPI] instance that initialisation builds. *)
Definition configured_api (h : Heap) : Prop :=
  exists config tok,
    window_GITHUB_CONFIG (heap e0) = Some config
    /\ getToken (heap e0) = Some tok
    /\ githubApi (dataManager h)
       = Some (mkGitHubAPI tok (js "https://api.github.com")
                 (Some (cfg_username config)) (Some (cfg_repoName config))).

(** The probe is on its way: the promise is pending and nothing else has
    happened. *)
Definition probing (h : Heap) : Prop :=
  frozen h
  /\ isInitialized (dataManager h) = false
  /\ initPromise (dataManager h) = Some shared_promise
  /\ promises h = promises (heap e0) ++ [None]
  /\ localStorage h = localStorage (heap e0)
  /\ configured_api h.

(** The backend [use_github] is selected and the promise is resolved. *)
Definition settled (use_github : bool) (h : Heap) : Prop :=
  frozen h
  /\ isInitialized (dataManager h) = true
  /\ useGitHub (dataManager h) = use_github
  /\ initPromise (dataManager h) = Some shared_promise
  /\ length (promises h) = S shared_promise
  /\ is_Some (resolved h shared_promise)
  /\ (use_github = true ->
      localStorage h = localStorage (heap e0) /\ configured_api h).

(** The requests that may follow the selection: none on the local
    backend, anything but another probe on the remote one. *)
Definition follows (use_github : bool) (q : Request) : Prop :=
  use_github = true /\ is_probe (heap e0) q = false.

(** An [initialize] call hands back the shared promise. *)
Definition shared (a : answer) : Prop :=
  match a with
  | Promise p => p = shared_promise
  | Value _ => True
  end.

(** A program, and a started call, once the backend is selected. *)
Definition safe_settled {A : Type} (use_github : bool) (post : A -> Prop)
    (m : prog A) : Prop :=
  safe (settled use_github) (follows use_github) shared_promise post m.

Definition task_settled {A : Type} (use_github : bool) (post : A -> Prop)
    (t : task A) : Prop :=
  task_safe (settled use_github) (follows use_github) shared_promise post t.

(** A program run while the probe is on its way: it changes nothing and
    sends nothing; it ends at once with a result in [now], or it waits on
    the shared promise and then goes on as a program does once the backend
    is selected, towards a result in [later]. *)
Fixpoint safe_waiting {A : Type} (now later : A -> Prop) (m : prog A) : Prop :=
  match m with
  | Ret a => now a
  | Throw _ => True
  | GetHeap k => forall h, probing h -> safe_waiting now later (k h)
  | SetHeap _ _ => False
  | Console _ k => safe_waiting now later k
  | NewDate k => forall t, safe_waiting now later (k t)
  | Fetch _ _ => False
  | Await p k =>
      p = shared_promise
      /\ forall use_github b, safe_settled use_github later (k b)
  end.

(** A call started while the probe is on its way. *)
Definition task_waiting {A : Type} (now later : A -> Prop) (t : task A) : Prop :=
  match t with
  | Ended (Returned a) => now a
  | Ended _ => True
  | OnFetch _ => False
  | OnPromise p k =>
      p = shared_promise
      /\ forall use_github b, safe_settled use_github later (k b)
  end.

(** The continuation of the call that sent the probe: whatever the
    network answers, it selects a backend and resolves the promise, and
    goes on as a call does once the backend is selected. *)
Definition finishes {A : Type} (post : A -> Prop)
    (k : FetchOutcome -> prog A) : Prop :=
  forall o e,
    probing (heap e) ->
    exists use_github new,
      settled use_github (heap (snd (advance (k o) e)))
      /\ requests (snd (advance (k o) e)) = requests e ++ new
      /\ Forall (follows use_github) new
      /\ task_settled use_github post (fst (advance (k o) e)).

(** A program run on the page before any call: either it selects the
    local backend at once, or it sends the probe and is suspended. *)
Definition starts {A : Type} (post : A -> Prop) (m : prog A) : Prop :=
  (settled false (heap (snd (advance m e0)))
   /\ requests (snd (advance m e0)) = requests e0
   /\ task_settled false post (fst (advance m e0)))
  \/ (exists k probe,
        fst (advance m e0) = OnFetch k
        /\ probing (heap (snd (advance m e0)))
        /\ probe_of (heap e0) = Some probe
        /\ requests (snd (advance m e0)) = requests e0 ++ [probe]
        /\ finishes post k).

(** A backend is selected: the requests sent since the start hold at most
    one probe, and nothing but probes on the local backend. *)
Definition selected (use_github : bool) (sent : list Request) (pg : Page)
  : Prop :=
  settled use_github (heap (page_env pg))
  /\ requests (page_env pg) = requests e0 ++ sent
  /\ (length (List.filter (is_probe (heap e0)) sent) <= 1)%nat
  /\ (use_github = false -> forallb (is_probe (heap e0)) sent = true)
  /\ Forall (fun ct => task_settled use_github shared (snd ct)) (page_tasks pg).

(** The three phases of a page. *)
Inductive phase : Page -> Prop :=
| untouched :
    phase (mkPage e0 [])
| probe_sent e c k waiting probe :
    probing (heap e) ->
    probe_of (heap e0) = Some probe ->
    requests e = requests e0 ++ [probe] ->
    finishes shared k ->
    Forall (fun ct => task_waiting shared shared (snd ct)) waiting ->
    phase (mkPage e ((c, OnFetch k) :: waiting))
| backend_selected use_github sent pg :
    selected use_github sent pg ->
    phase pg.

End Phases.

(** The page after a sequence of events, from a page [e0] on which no call
    was made yet. *)
Definition after (host : Host) (e0 : Env) (evs : list event) : Page :=
  play host (mkPage e0 []) evs.

(* ================================================================== *)
(** ** Data of the worked examples *)
(* ================================================================== *)

(** A one-item news collection, as in the scenario of the specification. *)
Definition example_news : value :=
  VArr [VObj [(js "id", VStr (js "1")); (js "title", VStr (js "A"));
              (js "galleryImages", VArr []); (js "edited", VNull)]].

(** Its text as [saveNewsItems] writes it to the remote, in base64. *)
Definition example_encoded : jsstring :=
  default [] (btoa (text_of (JSON_stringify_2 example_news))).

(** Site settings with an empty title. *)
Definition untitled_settings : value :=
  VObj [(js "siteTitle", VStr []); (js "newsHeader", VStr (js "News"))].

Definition titled_settings : value :=
  VObj [(js "siteTitle", VStr (js "My site")); (js "newsHeader", VStr (js "News"))].

(** A token in session storage. *)
Definition example_session : gmap jsstring jsstring :=
  {[ js "github_token" := js "secret" ]}.

(** A remote that has no such file, accepts the write, and then serves
    what was written. *)
Definition faithful_script : list FetchOutcome :=
  [respond 404 "Not Found" (message_payload "Not Found");
   respond 201 "Created" (VObj [(js "commit", VObj [])]);
   respond 200 "OK" (file_payload example_encoded (js "95d09f2b"))].

(** Three calls made before the probe is answered, the answer, and the
    calls going on. *)
Definition example_events : list event :=
  [Call (CallGet NewsItems); Call CallInitialize; Call (CallGet SocialLinks);
   Call CallInitialize;
   Reply 0 (respond 200 "OK" (VObj [(js "full_name", VStr (js "noarz/site-data"))]));
   Resume 2; Call (CallSave NewsItems example_news);
   Reply 0 (respond 404 "Not Found" (message_payload "Not Found"))].

(* ================================================================== *)
(** ** [github-config.js]: the token kept for the session *)
(* ================================================================== *)

Definition set_sessionStorage
    (f : gmap jsstring jsstring -> gmap jsstring jsstring) (h : Heap) : Heap :=
  mkHeap (dataManager h) (localStorage h) (f (sessionStorage h))
         (window_GITHUB_CONFIG h) (window_GitHubAPI h) (promises h).

(** [GITHUB_CONFIG.setToken(token)] *)
Definition setToken (tok : value) : prog bool :=
  if truthy tok
  then set_heap (set_sessionStorage
                   (fun m => <[js "github_token" := ToString tok]> m));;
       Ret true
  else Ret false.

(** [GITHUB_CONFIG.clearToken()] *)
Definition clearToken : prog unit :=
  set_heap (set_sessionStorage (fun m => delete (js "github_token") m)).

(* ================================================================== *)
(** ** More vocabulary *)
(* ================================================================== *)

(** The object [deleteFile] passes to [makeRequest], and the request that
    [makeRequest] builds from it. *)
Definition delete_data (message : jsstring) (sha : value) : value :=
  VObj [(js "message", VStr message); (js "sha", sha);
        (js "branch", VStr (js "main"))].

Definition delete_request (this : GitHubAPI) (path message : jsstring)
    (sha : value) : Request :=
  build_request this (contents_endpoint this path) DELETE
    (delete_data message sha).

(** A text without its ASCII white space, as [atob] reads it. *)
Definition unwrapped (s : jsstring) : jsstring :=
  List.filter (fun c => negb (is_ascii_ws c)) s.

(** The remote answers a GET with a file whose content, line breaks
    apart, is [encoded], and whose content-hash token is [sha]. *)
Definition serves_wrapped (o : FetchOutcome) (encoded : jsstring) (sha : value)
  : Prop :=
  exists response v served,
    o = Responded response /\ ok response = true
    /\ status response <> 204%N
    /\ response_json response = Some v
    /\ get_prop v (js "content") = Some (VStr served)
    /\ unwrapped served = encoded
    /\ get_prop v (js "sha") = Some sha.

(** A code unit that [btoa] refuses, and that [JSON.stringify] copies as it
    is: above 0xFF and not a surrogate. *)
Definition wide (c : N) : bool := (255 <? c) && negb (is_high c) && negb (is_low c).

(** The code unit [c] is in a string of [v] that [JSON.stringify] writes
    out: a string value, or the key or the value of a property whose value
    is not [undefined]. *)
Fixpoint spells (c : N) (v : value) : bool :=
  match v with
  | VStr s => bool_decide (c ∈ s)
  | VArr items =>
      (fix any (l : list value) : bool :=
         match l with
         | [] => false
         | x :: t => spells c x || any t
         end) items
  | VObj props =>
      (fix any (l : list (jsstring * value)) : bool :=
         match l with
         | [] => false
         | (k, x) :: t =>
             match x with
             | VUndefined => any t
             | _ => bool_decide (c ∈ k) || spells c x || any t
             end
         end) props
  | _ => false
  end.

(** [s || fallback] on strings *)
Definition or_default (s fallback : jsstring) : jsstring :=
  if nonempty s then s else fallback.

(** The property [k] of an object literal, [undefined] when missing. *)
Definition field (props : list (jsstring * value)) (k : string) : value :=
  default VUndefined (assoc (js k) props).

(** The configuration is enabled and complete, and the [GitHubAPI] class
    is loaded or not. *)
Definition configured (h : Heap) (config : GITHUB_CONFIG) (tok : jsstring)
  : Prop :=
  window_GITHUB_CONFIG h = Some config /\ cfg_enabled config = true
  /\ cfg_username config <> [] /\ cfg_repoName config <> []
  /\ getToken h = Some tok /\ tok <> [].

(** The [GitHubAPI] object the executor builds and [initialize] fills
    in. *)
Definition api_of (config : GITHUB_CONFIG) (tok : jsstring) : GitHubAPI :=
  mkGitHubAPI tok (js "https://api.github.com")
    (Some (cfg_username config)) (Some (cfg_repoName config)).

(** The local-storage keys a document kind is kept under. *)
Definition local_keys (k : kind) : list jsstring :=
  match k with
  | NewsItems => [js "jjkNews"]
  | SiteSettings => [js "jjkSiteTitle"; js "jjkNewsHeader"]
  | SocialLinks => [js "jjkSocialLinks"]
  | AdminSettings => [js "jjkAdminCode"]
  end.

(** What the executor of [initialize] leaves of the heap as it found it:
    everything but the three fields of the data manager it assigns. *)
Definition executor_frame (h h' : Heap) : Prop :=
  initPromise (dataManager h') = initPromise (dataManager h)
  /\ localStorage h' = localStorage h
  /\ sessionStorage h' = sessionStorage h
  /\ window_GITHUB_CONFIG h' = window_GITHUB_CONFIG h
  /\ window_GitHubAPI h' = window_GitHubAPI h
  /\ promises h' = promises h.

(** The value of a header of a request. *)
Fixpoint assoc_header (name : jsstring) (headers : list (jsstring * jsstring))
  : option jsstring :=
  match headers with
  | [] => None
  | (n, v) :: t => if decide (n = name) then Some v else assoc_header name t
  end.

(** The value a local reader builds when nothing is stored for its kind;
    [now] is the time of the call. *)
Definition local_default (host : Host) (k : kind) (now : Z) : value :=
  match k with
  | NewsItems => sample_news host now
  | SiteSettings =>
      VObj [(js "siteTitle", VStr (js "NOARZ"));
            (js "newsHeader", VStr default_newsHeader)]
  | SocialLinks => default_social_links
  | AdminSettings => default_admin_settings
  end.

(** The page with another local storage. *)
Definition with_storage (store : gmap jsstring jsstring) (e : Env) : Env :=
  set_heap_of (set_localStorage (fun _ => store)) e.

(** The property [k] of a value that has properties, [undefined] when
    missing. *)
Definition read (v : value) (k : string) : value :=
  default VUndefined (get_prop v (js k)).

(** Local storage after the local writer of a kind has stored [v]. *)
Definition stored (k : kind) (v : value) (m : gmap jsstring jsstring)
  : gmap jsstring jsstring :=
  match k with
  | NewsItems => <[js "jjkNews" := text_of (JSON_stringify v)]> m
  | SiteSettings =>
      <[js "jjkNewsHeader" := ToString (read v "newsHeader")]>
        (<[js "jjkSiteTitle" := ToString (read v "siteTitle")]> m)
  | SocialLinks => <[js "jjkSocialLinks" := text_of (JSON_stringify v)]> m
  | AdminSettings => <[js "jjkAdminCode" := ToString (read v "adminCode")]> m
  end.

(** The values a local writer takes without throwing: anything for the
    two kinds kept as JSON text, anything with properties for the two
    kinds kept field by field. *)
Definition writable (k : kind) (v : value) : bool :=
  match k, v with
  | (SiteSettings | AdminSettings), (VUndefined | VNull) => false
  | _, _ => true
  end.

(** *** More worked examples *)

(** A page that has not called the data manager yet, with the example
    configuration and a token in the session. *)
Definition fresh_env : Env :=
  example_env (fresh_heap (Some example_config) example_session).

Definition probe_answer : FetchOutcome :=
  respond 200 "OK" (VObj [(js "full_name", VStr (js "noarz/site-data"))]).

(** A short Thai word, and site settings that carry it. *)
Definition thai_word : jsstring := [3586; 3656; 3634; 3623].

Definition thai_settings : value :=
  VObj [(js "siteTitle", VStr (js "NOARZ")); (js "newsHeader", VStr thai_word)].

(** The base64 of "hello world!", in one piece and as the remote wraps
    it. *)
Definition hello_encoded : jsstring := js "aGVsbG8gd29ybGQh".

Definition hello_served : FetchOutcome :=
  Responded
    (mkResponse 200 (js "OK")
       (text_of (JSON_stringify
          (VObj [(js "path", VStr (js "notes.txt"));
                 (js "sha", VStr (js "3b18e512"));
                 (js "content", VStr (js "aGVsbG8g" ++ [10] ++ js "d29ybGQh" ++ [10]))])))).

(* ================================================================== *)
(** ** Properties of the interpreter *)
(* ================================================================== *)

Section RunFacts.

Variable host : Host.

Lemma run_bind {A B : Type} (m : prog A) (f : A -> prog B) e r :
  run host (bind m f) e r
  = and_then host (run host m e r) (fun a => run host (f a)).
Proof.
  revert e r.
  induction m as [a|x|k IH|g k IH|entry k IH|k IH|req k IH|p k IH];
    intros e r; cbn [bind run and_then]; auto.
  - destruct (fetch host r req) as [o r']. apply IH.
  - destruct (resolved (heap e) p); [apply IH | reflexivity].
Qed.

Lemma run_try_catch {A : Type} (m : prog A) (handler : JsError -> prog A) e r :
  run host (try_catch m handler) e r
  = or_else host (run host m e r) (fun err => run host (handler err)).
Proof.
  revert e r.
  induction m as [a|x|k IH|g k IH|entry k IH|k IH|req k IH|p k IH];
    intros e r; cbn [try_catch run or_else]; auto.
  - destruct (fetch host r req) as [o r']. apply IH.
  - destruct (resolved (heap e) p); [apply IH | reflexivity].
Qed.

End RunFacts.

(* ================================================================== *)
(** ** Properties of strings *)
(* ================================================================== *)

Lemma starts_with_app n s : starts_with n (n ++ s) = true.
Proof. induction n as [|a n IH]; simpl; [done|]. by rewrite N.eqb_refl. Qed.

Lemma includes_app_r p s n : includes s n = true -> includes (p ++ s) n = true.
Proof.
  intros H. induction p as [|a p IH]; simpl; [done|].
  rewrite IH. apply orb_true_r.
Qed.

Lemma includes_middle p n s : includes (p ++ n ++ s) n = true.
Proof.
  apply includes_app_r. destruct n; simpl; [by destruct s|].
  by rewrite N.eqb_refl, starts_with_app.
Qed.

Lemma api_error_404 response :
  status response = 404%N ->
  includes (err_message (api_error response)) (js "404") = true.
Proof.
  intros H. unfold api_error. cbn [err_message]. rewrite H.
  apply (includes_middle (js "GitHub API Error: ") (js "404")).
Qed.

(* ================================================================== *)
(** ** [GitHubAPI]: the file operations *)
(* ================================================================== *)

Section FileOperations.

Variable host : Host.

Ltac step := cbn [bind try_catch run set_heap or_throw].

(** [getFile] on a path the remote reports as not found. *)
Lemma run_getFile_not_found e r this path o r' :
  githubApi (dataManager (heap e)) = Some this ->
  fetch host r (get_request this path) = (o, r') ->
  not_found o ->
  run host (getFile host path) e r
  = (Returned VNull, add_request (get_request this path) e, r').
Proof.
  intros Hthis Hf (response & -> & Hs). unfold get_request in *.
  unfold getFile, makeRequest, with_this.
  step. rewrite Hthis. step. rewrite Hthis. step. rewrite Hf.
  cbn [settle].
  assert (ok response = false) as -> by (unfold ok; rewrite Hs; reflexivity).
  cbn [negb]. step. by rewrite (api_error_404 _ Hs).
Qed.

(** [getFile] on a path whose file the remote returns. *)
Lemma run_getFile_found e r this path o r' content sha :
  githubApi (dataManager (heap e)) = Some this ->
  fetch host r (get_request this path) = (o, r') ->
  file_found o content sha ->
  exists file_path,
    run host (getFile host path) e r
    = (Returned (VObj [(js "content", VStr content); (js "sha", sha);
                       (js "path", file_path)]),
       add_request (get_request this path) e, r').
Proof.
  intros Hthis Hf (response & v & encoded & -> & Hok & H204 & Hjson & Hc & Hdec & Hsha).
  unfold get_request in *.
  assert (exists file_path, get_prop v (js "path") = Some file_path) as [fp Hfp].
  { destruct v; try discriminate; cbn; eauto. }
  exists fp.
  unfold getFile, makeRequest, with_this.
  step. rewrite Hthis. step. rewrite Hthis. step. rewrite Hf.
  cbn [settle]. rewrite Hok. cbn [negb].
  replace (bool_decide (GET = js "HEAD")) with false by reflexivity.
  apply N.eqb_neq in H204. rewrite H204. cbn [orb]. rewrite Hjson.
  step. unfold prop, atob_js. rewrite Hc. step. rewrite Hdec. step.
  rewrite Hsha. step. rewrite Hfp. reflexivity.
Qed.

(** [getFile] hands on an error whose text does not mention 404. *)
Lemma run_getFile_propagates e r this path failure r' :
  githubApi (dataManager (heap e)) = Some this ->
  fetch host r (get_request this path) = (Rejected failure, r') ->
  includes (err_message failure) (js "404") = false ->
  run host (getFile host path) e r
  = (Raised failure, add_request (get_request this path) e, r').
Proof.
  intros Hthis Hf Hno. unfold get_request in *.
  unfold getFile, makeRequest, with_this.
  step. rewrite Hthis. step. rewrite Hthis. step. rewrite Hf.
  cbn [settle]. step. by rewrite Hno.
Qed.

End FileOperations.

Section FileRequests.

Variable host : Host.

Ltac step := cbn [bind try_catch run set_heap or_throw].

Lemma sent_since_one e q : sent_since e (add_request q e) = [q].
Proof. unfold sent_since. cbn. apply drop_app_length. Qed.

Lemma sent_since_two e q1 q2 :
  sent_since e (add_request q2 (add_request q1 e)) = [q1; q2].
Proof.
  unfold sent_since. cbn. rewrite <- app_assoc. apply drop_app_length.
Qed.

(** Settling a response touches neither the page nor the remote. *)
Lemma run_settle_pure method o e r :
  exists res, run host (settle host method o) e r = (res, e, r).
Proof.
  destruct o as [x|response]; cbn [settle]; [by eexists|].
  destruct (negb (ok response)); [by eexists|].
  destruct (_ || _); [by eexists|].
  destruct (response_json response); by eexists.
Qed.

Ltac settle_step :=
  match goal with
  | |- context [run host (settle host ?m ?o) ?env ?r] =>
      let res := fresh "res" in
      destruct (run_settle_pure m o env r) as [res ->]
  end.

(** The write request carries its data as a JSON body. *)
Lemma put_request_body this path message encoded sha :
  req_body (put_request this path message encoded sha)
  = JSON_stringify (write_data message encoded sha).
Proof. reflexivity. Qed.

(** C4. [deleteFile] on a path that the remote reports as not found throws
    the error "File not found: path", and the only request it has sent is
    the GET of its [getFile]: no DELETE request goes out. *)
Theorem deleteFile_missing_path e r this path message o r' :
  githubApi (dataManager (heap e)) = Some this ->
  fetch host r (get_request this path) = (o, r') ->
  not_found o ->
  exists e',
    run host (deleteFile host path message) e r
    = (Raised (mkError (js "Error") (js "File not found: " ++ path)), e', r')
    /\ sent_since e e' = [get_request this path]
    /\ Forall (fun q => req_method q <> DELETE) (sent_since e e').
Proof.
  intros Hthis Hf Hnf.
  exists (add_request (get_request this path) e).
  rewrite sent_since_one. split; [|split; [reflexivity|]].
  - unfold deleteFile. rewrite run_bind.
    rewrite (run_getFile_not_found host e r this path o r' Hthis Hf Hnf).
    reflexivity.
  - constructor; [|constructor]. discriminate.
Qed.

(** C5 (what the code does where the claim fails). A response that is not
    ok and not a 404, but whose error text contains "404", makes [getFile]
    return [null]: the failure does not reach the caller. *)
Theorem getFile_hides_failure_mentioning_404 e r this path response r' :
  githubApi (dataManager (heap e)) = Some this ->
  fetch host r (get_request this path) = (Responded response, r') ->
  ok response = false ->
  status response <> 404%N ->
  includes (err_message (api_error response)) (js "404") = true ->
  run host (getFile host path) e r
  = (Returned VNull, add_request (get_request this path) e, r').
Proof.
  intros Hthis Hf Hok _ Hinc. unfold get_request in *.
  unfold getFile, makeRequest, with_this.
  step. rewrite Hthis. step. rewrite Hthis. step. rewrite Hf.
  cbn [settle]. rewrite Hok. cbn [negb]. step. by rewrite Hinc.
Qed.


End FileRequests.

(* ================================================================== *)
(** ** [DataManager]: initialisation *)
(* ================================================================== *)

Section Initialisation.

Variable host : Host.

Ltac step :=
  cbn [bind try_catch run set_heap set_field or_throw console_log console_warn
       console_error fallback_to_localStorage heap set_heap_of add_log
       add_request dataManager set_dataManager githubApi set_githubApi
       isInitialized set_isInitialized useGitHub set_useGitHub initPromise
       set_initPromise window_GITHUB_CONFIG window_GitHubAPI sessionStorage
       localStorage promises set_promises requests console clock
       fst snd negb andb orb default from_option id option_map
       token apiBaseUrl username repoName new_GitHubAPI and_then or_else].

(** The executor ends on the local backend whenever the remote is
    unavailable, and does not throw. *)
Lemma run_executor_unavailable e r :
  remote_unavailable host (heap e) r ->
  exists b e' r',
    run host (executor host) e r = (Returned b, e', r')
    /\ settled_local (heap e) (heap e') /\ clock e' = clock e.
Proof.
  intros Hun. unfold executor. rewrite run_try_catch. step.
  destruct Hun as [Hc | config Hc Hinc | config tok Hc Htok Hfail].
  - rewrite Hc. step. by repeat eexists.
  - rewrite Hc. destruct (cfg_enabled config); step; [|by repeat eexists].
    assert (nonempty (cfg_username config) && nonempty (cfg_repoName config)
            && nonempty (default [] (getToken (heap e))) = false) as ->.
    { destruct Hinc as [-> | [-> | [-> | ->]]]; cbn;
        rewrite ?andb_false_r; reflexivity. }
    step. by repeat eexists.
  - rewrite Hc, Htok. destruct (cfg_enabled config); step; [|by repeat eexists].
    destruct (nonempty (cfg_username config) && nonempty (cfg_repoName config)
              && nonempty tok); step; [|by repeat eexists].
    destruct (window_GitHubAPI (heap e)); step; [|by repeat eexists].
    unfold GitHubAPI_initialize. step. rewrite run_bind, run_try_catch, run_bind.
    unfold makeRequest, with_this. step.
    unfold probe_request in Hfail.
    destruct (fetch host r _) as [o r1]. cbn [fst] in Hfail.
    destruct o as [x|response]; cbn [settle request_fails] in *.
    + step. by repeat eexists.
    + destruct Hfail as [-> | [H204 Hjson]]; step; [by repeat eexists|].
      destruct (negb (ok response)); step; [by repeat eexists|].
      replace (bool_decide (GET = js "HEAD")) with false by reflexivity.
      apply N.eqb_neq in H204. rewrite H204, Hjson. step.
      by repeat eexists.
Qed.

(** C1. When remote configuration is absent or incomplete (empty username,
    repository name or token), or the connectivity probe fails,
    [initialize] on a data manager not yet initialised returns its promise
    without throwing, the promise is resolved, the data manager is marked
    initialised and the local backend is selected. *)
Theorem initialize_falls_back e r :
  initPromise (dataManager (heap e)) = None ->
  remote_unavailable host (heap e) r ->
  exists p e' r',
    run host (initialize host) e r = (Returned p, e', r')
    /\ useGitHub (dataManager (heap e')) = false
    /\ isInitialized (dataManager (heap e')) = true
    /\ initPromise (dataManager (heap e')) = Some p
    /\ is_Some (resolved (heap e') p).
Proof.
  intros Hnone Hun. unfold initialize. step. rewrite Hnone. step.
  rewrite run_bind.
  set (e1 := set_heap_of _ e).
  destruct (run_executor_unavailable e1 r) as (b & e2 & r2 & -> & Hs & _).
  { destruct Hun as [Hc | config Hc Hinc | config tok Hc Htok Hfail].
    - by apply config_absent.
    - by apply (config_incomplete _ _ _ config).
    - by apply (probe_fails _ _ _ config tok). }
  destruct Hs as (Hi & Hu & Hp & _ & Hps).
  cbn [and_then]. step.
  exists (length (promises (heap e))), (set_heap_of (resolve (length (promises (heap e))) b) e2), r2.
  split; [reflexivity|]. cbn. repeat split; try assumption.
  unfold resolved. cbn. rewrite Hps. subst e1. cbn.
  rewrite list_lookup_insert_eq by (rewrite length_app; cbn; lia).
  by eexists.
Qed.

(** C7. With [enabled = false], [initialize] selects the local backend and
    makes no network call: no request is sent, the remote is left as it
    was, and the [githubApi] field is not assigned. *)
Theorem initialize_disabled e r config :
  initPromise (dataManager (heap e)) = None ->
  window_GITHUB_CONFIG (heap e) = Some config ->
  cfg_enabled config = false ->
  exists p e',
    run host (initialize host) e r = (Returned p, e', r)
    /\ useGitHub (dataManager (heap e')) = false
    /\ isInitialized (dataManager (heap e')) = true
    /\ requests e' = requests e
    /\ githubApi (dataManager (heap e')) = githubApi (dataManager (heap e)).
Proof.
  intros Hnone Hc Hdis. unfold initialize. step. rewrite Hnone. step.
  rewrite run_bind. unfold executor. rewrite run_try_catch. step.
  rewrite Hc, Hdis. step. by repeat eexists.
Qed.

End Initialisation.

(* ================================================================== *)
(** ** [DataManager]: the accessors once a backend is selected *)
(* ================================================================== *)

Section Accessors.

Variable host : Host.

Ltac step :=
  cbn [bind try_catch run set_heap set_field or_throw console_log console_warn
       console_error heap set_heap_of add_log add_request dataManager
       set_dataManager localStorage set_localStorage requests console clock
       fst snd negb andb orb default from_option id and_then or_else].

Lemma run_dispatch_local {A : Type} (on_github on_local : Heap -> prog A) e r :
  local_selected (heap e) ->
  run host (dispatch host on_github on_local) e r
  = run host (on_local (heap e)) e r.
Proof.
  intros [Hi Hu]. unfold dispatch, _ensureInitialized. step.
  rewrite Hi. step. by rewrite Hu.
Qed.

Lemma run_dispatch_remote {A : Type} (m : prog A) (on_local : Heap -> prog A)
    e r this :
  remote_selected (heap e) this ->
  run host (dispatch host (on_githubApi host m) on_local) e r = run host m e r.
Proof.
  intros (Hi & Hu & Hthis). unfold dispatch, _ensureInitialized. step.
  rewrite Hi. step. rewrite Hu. unfold on_githubApi, with_this. step.
  by rewrite Hthis.
Qed.

Lemma JSON_parse_null : JSON_parse (js "null") = Some VNull.
Proof. reflexivity. Qed.

(** [getNewsItems] on the local backend when the news key is absent. *)
Lemma run_getNewsItems_absent e r :
  local_selected (heap e) ->
  localStorage (heap e) !! js "jjkNews" = None ->
  run host (getNewsItems host) e r
  = (Returned (sample_news host (clock e)), e, r).
Proof.
  intros Hlocal Habsent.
  unfold getNewsItems. rewrite run_dispatch_local by assumption.
  unfold getItem. rewrite Habsent. unfold JSON_parse_js.
  cbn [slot default from_option id].
  rewrite JSON_parse_null. reflexivity.
Qed.

(** C8. With the local backend selected and no [jjkNews] key in local
    storage, [getNewsItems] returns the sample array: three items whose
    ids are '1', '2', '3' in that order. *)
Theorem getNewsItems_samples e r :
  local_selected (heap e) ->
  localStorage (heap e) !! js "jjkNews" = None ->
  exists items,
    run host (getNewsItems host) e r = (Returned items, e, r)
    /\ items = sample_news host (clock e)
    /\ item_ids items = [VStr (js "1"); VStr (js "2"); VStr (js "3")].
Proof.
  intros Hlocal Habsent. exists (sample_news host (clock e)).
  split; [|split; reflexivity].
  by apply run_getNewsItems_absent.
Qed.

(** C3 (what the code does where the claim fails). With the local backend
    selected and a [jjkNews] entry that is not JSON, [getNewsItems] throws
    the [SyntaxError] of [JSON.parse] to its caller. *)
Theorem local_getNewsItems_malformed e r text :
  local_selected (heap e) ->
  localStorage (heap e) !! js "jjkNews" = Some text ->
  JSON_parse text = None ->
  run host (getNewsItems host) e r = (Raised (json_syntax_error host text), e, r).
Proof.
  intros Hlocal Hstored Hbad.
  unfold getNewsItems. rewrite run_dispatch_local by assumption.
  unfold getItem. rewrite Hstored. unfold JSON_parse_js. cbn [slot default from_option id].
  by rewrite Hbad.
Qed.

(** The same for [getSocialLinks]. *)
Lemma local_getSocialLinks_malformed e r text :
  local_selected (heap e) ->
  localStorage (heap e) !! js "jjkSocialLinks" = Some text ->
  JSON_parse text = None ->
  run host (getSocialLinks host) e r = (Raised (json_syntax_error host text), e, r).
Proof.
  intros Hlocal Hstored Hbad.
  unfold getSocialLinks. rewrite run_dispatch_local by assumption.
  unfold getItem. rewrite Hstored. unfold JSON_parse_js. cbn [slot default from_option id].
  by rewrite Hbad.
Qed.

(** On the remote backend every reader catches the [SyntaxError] and
    returns its fixed value. *)
Lemma remote_reader_malformed e r this k o r' content sha :
  remote_selected (heap e) this ->
  fetch host r (get_request this (remote_path k)) = (o, r') ->
  file_found o content sha ->
  JSON_parse content = None ->
  exists e',
    run host (get_document host k) e r = (Returned (remote_fallback k), e', r')
    /\ heap e' = heap e.
Proof.
  intros Hsel Hf Hfound Hbad.
  assert (Hthis : githubApi (dataManager (heap e)) = Some this) by apply Hsel.
  assert (Hread : forall path what fallback,
    js path = remote_path k ->
    exists e',
      run host (read_document host path what fallback) e r
      = (Returned fallback, e', r') /\ heap e' = heap e).
  { intros path what fallback Hpath. unfold read_document.
    rewrite run_try_catch, run_bind, Hpath.
    destruct (run_getFile_found host e r this _ o r' content sha Hthis Hf Hfound)
      as [fp ->].
    cbn [and_then truthy]. unfold prop. cbn [get_prop assoc].
    rewrite decide_True by reflexivity. step. unfold JSON_parse_js.
    cbn [ToString]. rewrite Hbad. step. by eexists. }
  destruct k; cbn [get_document remote_fallback];
    [unfold getNewsItems, GitHubAPI_getNewsItems
    |unfold getSiteSettings, GitHubAPI_getSiteSettings
    |unfold getSocialLinks, GitHubAPI_getSocialLinks
    |unfold getAdminSettings, GitHubAPI_getAdminSettings];
    rewrite (run_dispatch_remote _ _ e r this Hsel); by apply Hread.
Qed.

(** C10. With the local backend selected, a reader leaves the whole page
    as it found it, local storage included, whatever it returns or throws;
    and when the [jjkNews] key is absent, [getNewsItems] stores nothing, so
    that a later call builds the samples again from the clock of that
    later moment. *)
Theorem local_readers_store_nothing e r :
  local_selected (heap e) ->
  (forall k, snd (fst (run host (get_document host k) e r)) = e
             /\ snd (run host (get_document host k) e r) = r)
  /\ (localStorage (heap e) !! js "jjkNews" = None ->
      forall later,
        run host (getNewsItems host) e r
        = (Returned (sample_news host (clock e)), e, r)
        /\ run host (getNewsItems host) (set_clock later e) r
           = (Returned (sample_news host later), set_clock later e, r)).
Proof.
  intros Hlocal. split.
  - intros k. destruct k; cbn [get_document];
      [unfold getNewsItems|unfold getSiteSettings|unfold getSocialLinks
      |unfold getAdminSettings];
      rewrite run_dispatch_local by assumption; unfold JSON_parse_js;
      try destruct (JSON_parse _) as [v|]; step; try done.
    destruct (negb (truthy v)); done.
  - intros Habsent later.
    split; [by apply run_getNewsItems_absent|].
    by apply (run_getNewsItems_absent (set_clock later e)).
Qed.

End Accessors.

(* ================================================================== *)
(** ** [atob] undoes [btoa] *)
(* ================================================================== *)

Section Base64.

Local Ltac Zify.zify_post_hook ::= Z.to_euclidean_division_equations.

Lemma list_ind3 {A : Type} (P : list A -> Prop) :
  P [] -> (forall a, P [a]) -> (forall a b, P [a; b]) ->
  (forall a b c l, P l -> P (a :: b :: c :: l)) ->
  forall l, P l.
Proof.
  intros H0 H1 H2 H3.
  assert (forall l, P l /\ (forall a, P (a :: l)) /\ (forall a b, P (a :: b :: l)))
    as H; [|intros l; apply H].
  induction l as [|x l (IH0 & IH1 & IH2)]; [by auto|].
  split; [apply IH1|]. split; [intros a; apply IH2|].
  intros a b. by apply H3.
Qed.

Lemma below_64 (P : N -> bool) :
  forallb P (List.map N.of_nat (seq 0 64)) = true ->
  forall i, i < 64 -> P i = true.
Proof.
  intros H i Hi. rewrite forallb_forall in H. apply H.
  apply in_map_iff. exists (N.to_nat i). split; [lia|].
  apply in_seq. lia.
Qed.

Lemma b64_index_char i : i < 64 -> b64_index (b64_char i) = Some i.
Proof.
  intros Hi.
  apply (below_64 (fun i => bool_decide (b64_index (b64_char i) = Some i)))
    in Hi; [by apply bool_decide_eq_true in Hi | by vm_compute].
Qed.

Lemma b64_char_plain i :
  i < 64 -> is_ascii_ws (b64_char i) = false /\ (b64_char i =? pad) = false.
Proof.
  intros Hi.
  apply (below_64 (fun i => negb (is_ascii_ws (b64_char i))
                            && negb (b64_char i =? pad)))
    in Hi; [|by vm_compute].
  apply andb_true_iff in Hi as [H1 H2].
  by apply negb_true_iff in H1, H2.
Qed.

Lemma latin1_cons a s : is_latin1 (a :: s) = true <-> a <= 255 /\ is_latin1 s = true.
Proof.
  unfold is_latin1. cbn [forallb]. rewrite andb_true_iff, N.leb_le. tauto.
Qed.

(** The four sextets of three bytes are below 64. *)
Lemma sextet_bounds a b c :
  a <= 255 -> b <= 255 -> c <= 255 ->
  a / 4 < 64 /\ (a mod 4) * 16 + b / 16 < 64
  /\ (b mod 16) * 4 + c / 64 < 64 /\ c mod 64 < 64
  /\ (a mod 4) * 16 < 64 /\ (b mod 16) * 4 < 64.
Proof. intros. lia. Qed.

Lemma split_div x y k :
  0 < k -> y < k -> (x * k + y) / k = x /\ (x * k + y) mod k = y.
Proof.
  intros Hk Hy. split.
  - symmetry. apply (N.div_unique _ k x y); lia.
  - symmetry. apply (N.mod_unique _ k x y); lia.
Qed.

(** ... and the three bytes are read back from them. *)
Lemma sextet_bytes a b c :
  a <= 255 -> b <= 255 -> c <= 255 ->
  a / 4 * 4 + ((a mod 4) * 16 + b / 16) / 16 = a
  /\ (((a mod 4) * 16 + b / 16) mod 16) * 16 + ((b mod 16) * 4 + c / 64) / 4 = b
  /\ (((b mod 16) * 4 + c / 64) mod 4) * 64 + c mod 64 = c.
Proof.
  intros Ha Hb Hc.
  assert (b / 16 < 16) by lia. assert (c / 64 < 4) by lia.
  destruct (split_div (a mod 4) (b / 16) 16) as [-> ->]; [lia|lia|].
  destruct (split_div (b mod 16) (c / 64) 4) as [-> ->]; [lia|lia|].
  repeat split; lia.
Qed.

Ltac sextets a b c Ha Hb Hc :=
  let H := fresh in
  pose proof (sextet_bounds a b c Ha Hb Hc) as H;
  destruct H as (? & ? & ? & ? & ? & ?);
  repeat match goal with
         | H : ?i < 64 |- _ =>
             let H1 := fresh in let H2 := fresh in let H3 := fresh in
             pose proof (b64_index_char i H) as H1;
             pose proof (b64_char_plain i H) as [H2 H3];
             clear H
         end.

Lemma filter_b64_encode s :
  is_latin1 s = true ->
  List.filter (fun c => negb (is_ascii_ws c)) (b64_encode s) = b64_encode s.
Proof.
  induction s as [|a|a b|a b c l IH] using list_ind3; intros Hs.
  - reflexivity.
  - apply latin1_cons in Hs as [Ha _].
    sextets a 0 0 Ha (N.le_0_l 255) (N.le_0_l 255).
    cbn [b64_encode List.filter].
    repeat match goal with H : is_ascii_ws _ = false |- _ => rewrite H; clear H end.
    reflexivity.
  - apply latin1_cons in Hs as [Ha Hs]. apply latin1_cons in Hs as [Hb _].
    sextets a b 0 Ha Hb (N.le_0_l 255).
    cbn [b64_encode List.filter].
    repeat match goal with H : is_ascii_ws _ = false |- _ => rewrite H; clear H end.
    reflexivity.
  - apply latin1_cons in Hs as [Ha Hs]. apply latin1_cons in Hs as [Hb Hs].
    apply latin1_cons in Hs as [Hc Hs].
    sextets a b c Ha Hb Hc.
    cbn [b64_encode List.filter].
    repeat match goal with H : is_ascii_ws _ = false |- _ => rewrite H; clear H end.
    cbn [negb]. by rewrite IH.
Qed.

Lemma length_b64_encode s : N.of_nat (length (b64_encode s)) mod 4 = 0.
Proof.
  induction s as [|a|a b|a b c l IH] using list_ind3; try reflexivity.
  cbn [b64_encode length]. lia.
Qed.

Lemma strip_pad_b64_encode s :
  is_latin1 s = true -> strip_pad (b64_encode s) = b64_unpadded s.
Proof.
  induction s as [|a|a b|a b c l IH] using list_ind3; intros Hs.
  - reflexivity.
  - reflexivity.
  - apply latin1_cons in Hs as [Ha Hs]. apply latin1_cons in Hs as [Hb _].
    sextets a b 0 Ha Hb (N.le_0_l 255).
    cbn [b64_encode b64_unpadded strip_pad].
    repeat match goal with H : (_ =? pad) = false |- _ => rewrite H; clear H end.
    reflexivity.
  - apply latin1_cons in Hs as [Ha Hs]. apply latin1_cons in Hs as [Hb Hs].
    apply latin1_cons in Hs as [Hc Hs].
    specialize (IH Hs).
    sextets a b c Ha Hb Hc.
    cbn [b64_encode b64_unpadded].
    destruct l as [|a' [|b' [|c' l']]]; cbn [b64_encode strip_pad] in *;
      repeat match goal with H : (_ =? pad) = false |- _ => rewrite H; clear H end;
      cbn [andb]; try reflexivity; by rewrite <- IH.
Qed.

Lemma length_b64_unpadded s :
  (N.of_nat (length (b64_unpadded s)) mod 4 =? 1) = false.
Proof.
  apply N.eqb_neq.
  induction s as [|a|a b|a b c l IH] using list_ind3; cbn; lia.
Qed.

Lemma decode_b64_unpadded s :
  is_latin1 s = true ->
  option_map b64_bytes (b64_sextets (b64_unpadded s)) = Some s.
Proof.
  induction s as [|a|a b|a b c l IH] using list_ind3; intros Hs.
  - reflexivity.
  - apply latin1_cons in Hs as [Ha _].
    sextets a 0 0 Ha (N.le_0_l 255) (N.le_0_l 255).
    cbn [b64_unpadded b64_sextets].
    repeat match goal with H : b64_index _ = Some _ |- _ => rewrite H; clear H end.
    cbn. f_equal. f_equal. lia.
  - apply latin1_cons in Hs as [Ha Hs]. apply latin1_cons in Hs as [Hb _].
    sextets a b 0 Ha Hb (N.le_0_l 255).
    cbn [b64_unpadded b64_sextets].
    repeat match goal with H : b64_index _ = Some _ |- _ => rewrite H; clear H end.
    cbn. f_equal. f_equal; [|f_equal]; lia.
  - apply latin1_cons in Hs as [Ha Hs]. apply latin1_cons in Hs as [Hb Hs].
    apply latin1_cons in Hs as [Hc Hs].
    specialize (IH Hs).
    pose proof (sextet_bytes a b c Ha Hb Hc) as (E1 & E2 & E3).
    sextets a b c Ha Hb Hc.
    cbn [b64_unpadded b64_sextets].
    repeat match goal with H : b64_index _ = Some _ |- _ => rewrite H; clear H end.
    destruct (b64_sextets (b64_unpadded l)) as [sx|]; [|discriminate].
    cbn [option_map b64_bytes] in *. rewrite E1, E2, E3. congruence.
Qed.

(** [atob(btoa(s))] is [s] for every string [btoa] accepts. *)
Lemma atob_btoa s encoded : btoa s = Some encoded -> atob encoded = Some s.
Proof.
  unfold btoa. destruct (is_latin1 s) eqn:Hs; [|discriminate].
  intros [= <-]. unfold atob.
  rewrite filter_b64_encode by assumption.
  rewrite length_b64_encode. cbn [N.eqb].
  rewrite strip_pad_b64_encode by assumption.
  rewrite length_b64_unpadded. by apply decode_b64_unpadded.
Qed.

End Base64.

(* ================================================================== *)
(** ** [JSON.parse] undoes [JSON.stringify] *)
(* ================================================================== *)

Section JsonRoundTrip.

Lemma value_ind_nested (P : value -> Prop) :
  P VUndefined -> P VNull -> (forall b, P (VBool b)) ->
  (forall lit, P (VNum lit)) -> (forall s, P (VStr s)) ->
  (forall items, Forall P items -> P (VArr items)) ->
  (forall props, Forall (fun kv => P (snd kv)) props -> P (VObj props)) ->
  forall v, P v.
Proof.
  intros Hu Hn Hb Hnum Hs Ha Ho.
  fix IH 1.
  intros [| |b|lit|s|items|props];
    [exact Hu|exact Hn|apply Hb|apply Hnum|apply Hs|..].
  - apply Ha. induction items as [|x t IHt]; constructor; [apply IH | exact IHt].
  - apply Ho. induction props as [|[k x] t IHt]; constructor;
      [apply IH | exact IHt].
Qed.

(** *** String literals *)

Lemma below_16 (P : N -> bool) :
  forallb P (List.map N.of_nat (seq 0 16)) = true ->
  forall i, i < 16 -> P i = true.
Proof.
  intros H i Hi. rewrite forallb_forall in H. apply H.
  apply in_map_iff. exists (N.to_nat i). split; [lia|].
  apply in_seq. lia.
Qed.

Lemma hex_value_digit d : d < 16 -> hex_value (hex_digit d) = Some d.
Proof.
  intros Hd.
  apply (below_16 (fun d => bool_decide (hex_value (hex_digit d) = Some d)))
    in Hd; [by apply bool_decide_eq_true in Hd | by vm_compute].
Qed.

Lemma hex4_digits c :
  c < 65536 ->
  hex4 (hex_digit (c / 4096)) (hex_digit ((c / 256) mod 16))
       (hex_digit ((c / 16) mod 16)) (hex_digit (c mod 16)) = Some c.
Proof.
  intros Hc. unfold hex4.
  rewrite !hex_value_digit;
    try (apply N.mod_lt; discriminate);
    [|apply N.Div0.div_lt_upper_bound; lia].
  f_equal.
  assert (c / 256 = c / 16 / 16) as -> by (by rewrite N.Div0.div_div).
  assert (c / 4096 = c / 16 / 16 / 16) as -> by (by rewrite !N.Div0.div_div).
  pose proof (N.div_mod c 16).
  pose proof (N.div_mod (c / 16) 16).
  pose proof (N.div_mod (c / 16 / 16) 16).
  lia.
Qed.

(** What [parse_string] does with the text of one quoted code unit. *)
Lemma parse_string_unit c prev_high next_low tail :
  c < 65536 ->
  parse_string (quote_unit prev_high next_low c ++ tail)
  = match parse_string tail with
    | Some (str, rest) => Some (c :: str, rest)
    | None => None
    end.
Proof.
  intros Hc. unfold quote_unit.
  repeat match goal with
         | |- context [if ?x =? ?y then _ else _] =>
             destruct (N.eqb_spec x y) as [->|?]; [reflexivity|]
         end.
  destruct (N.ltb_spec c 32) as [Hlow|Hhigh].
  { cbn [uescape app parse_string]. change (92 =? 34) with false.
    change (92 =? 92) with true. change (117 =? 117) with true. cbv iota.
    by rewrite hex4_digits. }
  assert (Hplain : parse_string (c :: tail)
    = match parse_string tail with
      | Some (str, rest) => Some (c :: str, rest)
      | None => None
      end).
  { cbn [parse_string].
    destruct (N.eqb_spec c 34) as [->|_]; [done|].
    destruct (N.eqb_spec c 92) as [->|_]; [done|].
    destruct (N.ltb_spec c 32); [lia|reflexivity]. }
  assert (Hesc : parse_string (uescape c ++ tail)
    = match parse_string tail with
      | Some (str, rest) => Some (c :: str, rest)
      | None => None
      end).
  { cbn [uescape app parse_string]. change (92 =? 34) with false.
    change (92 =? 92) with true. change (117 =? 117) with true. cbv iota.
    by rewrite hex4_digits. }
  destruct (is_high c); [by destruct next_low|].
  destruct (is_low c); [by destruct prev_high|done].
Qed.

Lemma code_units_cons c s :
  code_units (c :: s) = true <-> c < 65536 /\ code_units s = true.
Proof.
  unfold code_units. cbn [forallb]. rewrite andb_true_iff, N.ltb_lt. tauto.
Qed.

Lemma parse_string_units s prev_high rest :
  code_units s = true ->
  parse_string (quote_units prev_high s ++ 34 :: rest) = Some (s, rest).
Proof.
  revert prev_high. induction s as [|c s IH]; intros prev_high Hs.
  - reflexivity.
  - apply code_units_cons in Hs as [Hc Hs].
    cbn [quote_units]. rewrite <- app_assoc.
    rewrite parse_string_unit by assumption. by rewrite IH.
Qed.

(** A quoted string is read back, whatever follows it. *)
Lemma parse_string_quote s rest :
  code_units s = true ->
  exists body, quote s ++ rest = 34 :: body /\ parse_string body = Some (s, rest).
Proof.
  intros Hs. exists (quote_units false s ++ 34 :: rest). split.
  - unfold quote. cbn [app]. by rewrite <- app_assoc.
  - by apply parse_string_units.
Qed.


(** *** The nested recursions, written with list functions *)

Lemma storable_arr items : storable (VArr items) = forallb storable items.
Proof. induction items as [|x t IH]; [done|]. cbn in *. by rewrite IH. Qed.

Lemma storable_obj props :
  storable (VObj props)
  = bool_decide (NoDup (List.map fst props))
    && forallb (fun kv => code_units (fst kv) && storable (snd kv)) props.
Proof.
  cbn [storable]. f_equal.
  induction props as [|[k x] t IH]; [done|]. cbn [forallb fst snd].
  by rewrite IH.
Qed.

Lemma size_arr items :
  size (VArr items) = S (list_sum (List.map (fun x => S (size x)) items)).
Proof.
  cbn [size]. f_equal. induction items as [|x t IH]; [done|].
  cbn [List.map list_sum]. by rewrite IH.
Qed.

Lemma size_obj props :
  size (VObj props)
  = S (list_sum (List.map (fun kv => S (size (snd kv))) props)).
Proof.
  cbn [size]. f_equal. induction props as [|[k x] t IH]; [done|].
  cbn [List.map list_sum snd]. by rewrite IH.
Qed.

Lemma serialize_arr gap indent items :
  serialize gap indent (VArr items)
  = Some (wrap 91 93 gap indent (indent ++ gap)
            (List.map (element_text gap (indent ++ gap)) items)).
Proof. reflexivity. Qed.

Lemma serialize_obj gap indent props :
  Forall (fun kv => is_Some (serialize gap (indent ++ gap) (snd kv))) props ->
  serialize gap indent (VObj props)
  = Some (wrap 123 125 gap indent (indent ++ gap)
            (List.map (member_text gap (indent ++ gap)) props)).
Proof.
  intros Hall. cbn [serialize]. do 2 f_equal.
  induction Hall as [|[k x] t [text Hx] _ IH]; [done|].
  cbn [List.map snd] in *. rewrite Hx, IH.
  unfold member_text, colon. cbn [fst snd]. by rewrite Hx.
Qed.

(** *** White space *)

Lemma skip_ws_app w s : all_ws w = true -> skip_ws (w ++ s) = skip_ws s.
Proof.
  induction w as [|c w IH]; [done|]. cbn [all_ws forallb app skip_ws].
  intros [Hc Hw]%andb_true_iff. rewrite Hc. by apply IH.
Qed.

Lemma skip_ws_head c s : is_json_ws c = false -> skip_ws (c :: s) = c :: s.
Proof. intros H. cbn [skip_ws]. by rewrite H. Qed.

Lemma parse_value_ws fuel w s :
  all_ws w = true -> parse_value fuel (w ++ s) = parse_value fuel s.
Proof.
  intros Hw. destruct fuel; [done|]. cbn [parse_value].
  by rewrite skip_ws_app.
Qed.

Lemma all_ws_app w1 w2 :
  all_ws w1 = true -> all_ws w2 = true -> all_ws (w1 ++ w2) = true.
Proof. unfold all_ws. rewrite forallb_app. by intros -> ->. Qed.

(** The text of a storable value starts with a character that is neither
    white space nor a closing bracket. *)
Lemma serialize_head gap indent v text :
  storable v = true ->
  serialize gap indent v = Some text ->
  exists c t, text = c :: t /\ is_json_ws c = false
              /\ (c =? 93) = false /\ (c =? 125) = false.
Proof.
  intros Hv Hs. destruct v as [| |[|]|lit|s|items|props]; try discriminate.
  - injection Hs as <-. by eexists _, _.
  - injection Hs as <-. by eexists _, _.
  - injection Hs as <-. by eexists _, _.
  - injection Hs as <-. by eexists _, _.
  - rewrite serialize_arr in Hs. injection Hs as <-. unfold wrap.
    destruct (List.map _ items); [by eexists _, _|].
    destruct (nonempty gap); by eexists _, _.
  - cbn [serialize] in Hs. injection Hs as <-. unfold wrap.
    match goal with |- context [match ?l with [] => _ | _ :: _ => _ end] =>
      destruct l end; [by eexists _, _|].
    destruct (nonempty gap); by eexists _, _.
Qed.


(** *** Arrays and objects *)

(** The text of a container that is not empty: its parts between the
    brackets, separated by commas, with white space [w1] before each part
    and [w2] before the closing bracket. *)
Lemma wrap_shape opening closing gap indent p ps :
  all_ws gap = true -> all_ws indent = true ->
  exists w1 w2,
    all_ws w1 = true /\ all_ws w2 = true
    /\ wrap opening closing gap indent (indent ++ gap) (p :: ps)
       = opening :: w1 ++ join (44 :: w1) (p :: ps) ++ w2 ++ [closing].
Proof.
  intros Hgap Hindent. unfold wrap. destruct (nonempty gap).
  - exists (10 :: indent ++ gap), (10 :: indent). repeat split.
    + by apply (all_ws_app [10]), all_ws_app.
    + by apply (all_ws_app [10]).
  - by exists [], [].
Qed.

Lemma join_more sep p q t :
  join sep (p :: q :: t) = p ++ sep ++ join sep (q :: t).
Proof. reflexivity. Qed.

Lemma list_sum_cons a l : list_sum (a :: l) = (a + list_sum l)%nat.
Proof. reflexivity. Qed.

Lemma join_length (w : jsstring) (parts : list jsstring) :
  (list_sum (List.map (fun p => S (length p)) parts)
   <= S (length (join (44%N :: w) parts)))%nat.
Proof.
  induction parts as [|p t IH]; [cbn; lia|].
  destruct t as [|q t]; [cbn; lia|].
  rewrite join_more, !length_app. cbn [length List.map] in *.
  rewrite !list_sum_cons in *. lia.
Qed.

Lemma list_sum_le {A : Type} (f g : A -> nat) l :
  Forall (fun x => (f x <= g x)%nat) l ->
  (list_sum (List.map f l) <= list_sum (List.map g l))%nat.
Proof.
  induction 1; cbn [List.map]; rewrite ?list_sum_cons; [done|lia].
Qed.

Lemma obj_set_fresh acc k v :
  k ∉ List.map fst acc -> obj_set acc k v = acc ++ [(k, v)].
Proof.
  induction acc as [|[k' v'] acc IH]; [done|]. cbn [List.map fst obj_set app].
  intros Hk. rewrite decide_False by (intros ->; apply Hk; left).
  rewrite IH; [done|]. intros ?. apply Hk. by right.
Qed.

Section Containers.

Variables (gap inner w1 w2 rest : jsstring).
Hypothesis Hgap : all_ws gap = true.
Hypothesis Hinner : all_ws inner = true.
Hypothesis Hw1 : all_ws w1 = true.
Hypothesis Hw2 : all_ws w2 = true.

Lemma parse_elements_join items acc fuel :
  items <> [] ->
  Forall (fun x => storable x = true /\ reads_back x) items ->
  (list_sum (List.map (fun x => S (size x)) items) <= fuel)%nat ->
  parse_elements fuel
    (w1 ++ join (44 :: w1) (List.map (element_text gap inner) items)
     ++ w2 ++ 93 :: rest) acc
  = Parsed (VArr (acc ++ items)) rest.
Proof.
  revert acc fuel. induction items as [|x t IH]; intros acc fuel Hne Hall Hfuel;
    [done|].
  apply Forall_cons in Hall as [[Hx Hrb] Hall].
  cbn [List.map] in Hfuel. rewrite list_sum_cons in Hfuel.
  destruct fuel as [|fuel]; [lia|].
  cbn [parse_elements]. rewrite parse_value_ws by assumption.
  destruct t as [|y t].
  - destruct (Hrb gap inner (w2 ++ 93 :: rest) fuel Hgap Hinner)
      as (text & Hser & Hparse & _); [lia|].
    cbn [List.map join]. unfold element_text. rewrite Hser. cbn [default from_option id].
    rewrite Hparse, skip_ws_app by assumption. reflexivity.
  - set (J := join (44 :: w1) (List.map (element_text gap inner) (y :: t))) in *.
    destruct (Hrb gap inner (44 :: w1 ++ J ++ w2 ++ 93 :: rest) fuel Hgap Hinner)
      as (text & Hser & Hparse & _); [lia|].
    cbn [List.map]. rewrite join_more.
    change (join _ (element_text gap inner y :: _)) with J.
    unfold element_text at 1. rewrite Hser.
    cbn [default from_option id]. rewrite <- !app_assoc. cbn [app].
    rewrite Hparse. cbn [skip_ws is_json_ws N.eqb Pos.eqb orb].
    rewrite (IH (acc ++ [x]) fuel); [|done|done|lia].
    by rewrite <- app_assoc.
Qed.

Lemma parse_members_join props acc fuel :
  props <> [] ->
  NoDup (List.map fst (acc ++ props)) ->
  Forall (fun kv => code_units (fst kv) = true
                    /\ storable (snd kv) = true /\ reads_back (snd kv)) props ->
  (list_sum (List.map (fun kv => S (size (snd kv))) props) <= fuel)%nat ->
  parse_members fuel
    (w1 ++ join (44 :: w1) (List.map (member_text gap inner) props)
     ++ w2 ++ 125 :: rest) acc
  = Parsed (VObj (acc ++ props)) rest.
Proof.
  revert acc fuel. induction props as [|[k x] t IH];
    intros acc fuel Hne Hnodup Hall Hfuel; [done|].
  apply Forall_cons in Hall as [(Hk & Hx & Hrb) Hall]. cbn [fst snd] in *.
  cbn [List.map] in Hfuel. rewrite list_sum_cons in Hfuel.
  cbn [snd] in Hfuel. destruct fuel as [|fuel]; [lia|].
  assert (Hfresh : k ∉ List.map fst acc).
  { rewrite map_app in Hnodup. apply NoDup_app in Hnodup as (_ & Hdisj & _).
    intros Hin. apply (Hdisj k Hin). cbn. left. }
  assert (Hnodup' : NoDup (List.map fst ((acc ++ [(k, x)]) ++ t))).
  { by rewrite <- app_assoc. }
  assert (Hcolon : forall tail,
    exists c sp, colon gap ++ tail = c :: sp ++ tail /\ c = 58 /\ all_ws sp = true).
  { intros tail. unfold colon. destruct (nonempty gap).
    - by exists 58, [32].
    - by exists 58, []. }
  cbn [parse_members]. rewrite skip_ws_app by assumption.
  assert (Hmember : forall tail text,
    serialize gap inner x = Some text ->
    parse_value fuel (text ++ tail) = Parsed x tail ->
    forall K : jsstring -> value -> jsstring -> presult value,
    (match skip_ws (member_text gap inner (k, x) ++ tail) with
     | [] => Malformed
     | q :: t0 =>
         if negb (q =? 34) then Malformed
         else
           match parse_string t0 with
           | None => Malformed
           | Some (k0, rest0) =>
               match skip_ws rest0 with
               | [] => Malformed
               | c :: rest1 =>
                   if negb (c =? 58) then Malformed
                   else
                     match parse_value fuel rest1 with
                     | Parsed v rest2 => K k0 v rest2
                     | Malformed => Malformed
                     | Exhausted => Exhausted
                     end
               end
           end
     end) = K k x tail).
  { intros tail text Hser Hparse K.
    unfold member_text. cbn [fst snd]. rewrite Hser. cbn [text_of default from_option id].
    rewrite <- !app_assoc.
    destruct (parse_string_quote k (colon gap ++ text ++ tail) Hk)
      as (body & -> & Hbody).
    cbn [skip_ws is_json_ws N.eqb Pos.eqb orb negb]. rewrite Hbody.
    destruct (Hcolon (text ++ tail)) as (c & sp & -> & -> & Hsp).
    cbn [skip_ws is_json_ws N.eqb Pos.eqb orb negb].
    rewrite parse_value_ws by assumption. by rewrite Hparse. }
  destruct t as [|y t].
  - destruct (Hrb gap inner (w2 ++ 125 :: rest) fuel Hgap Hinner)
      as (text & Hser & Hparse & _); [lia|].
    cbn [List.map join].
    rewrite (Hmember (w2 ++ 125 :: rest) text Hser Hparse
      (fun k0 v rest2 =>
         match skip_ws rest2 with
         | [] => Malformed
         | d :: rest3 =>
             if d =? 44 then parse_members fuel rest3 (obj_set acc k0 v)
             else if d =? 125 then Parsed (VObj (obj_set acc k0 v)) rest3
             else Malformed
         end)).
    rewrite skip_ws_app by assumption.
    cbn [skip_ws is_json_ws N.eqb Pos.eqb orb].
    by rewrite obj_set_fresh.
  - set (J := join (44 :: w1) (List.map (member_text gap inner) (y :: t))) in *.
    destruct (Hrb gap inner (44 :: w1 ++ J ++ w2 ++ 125 :: rest) fuel Hgap Hinner)
      as (text & Hser & Hparse & _); [lia|].
    cbn [List.map]. rewrite join_more.
    change (join _ (member_text gap inner y :: _)) with J.
    rewrite <- !app_assoc. cbn [app].
    rewrite (Hmember (44 :: w1 ++ J ++ w2 ++ 125 :: rest) text Hser Hparse
      (fun k0 v rest2 =>
         match skip_ws rest2 with
         | [] => Malformed
         | d :: rest3 =>
             if d =? 44 then parse_members fuel rest3 (obj_set acc k0 v)
             else if d =? 125 then Parsed (VObj (obj_set acc k0 v)) rest3
             else Malformed
         end)).
    cbn [skip_ws is_json_ws N.eqb Pos.eqb orb].
    rewrite obj_set_fresh by assumption.
    rewrite (IH (acc ++ [(k, x)]) fuel); [|done|done|done|lia].
    by rewrite <- app_assoc.
Qed.

End Containers.


Lemma join_head sep p ps : exists tail, join sep (p :: ps) = p ++ tail.
Proof.
  destruct ps as [|q ps]; [exists []; cbn; by rewrite app_nil_r|].
  eexists. apply join_more.
Qed.

(** Every storable value is read back from its text. *)
Lemma storable_reads_back v : storable v = true -> reads_back v.
Proof.
  induction v as [| |b|lit|s|items IH|props IH] using value_ind_nested;
    intros Hv gap indent rest fuel Hgap Hindent Hfuel; try discriminate.
  - exists (js "null"). destruct fuel; [cbn in Hfuel; lia|].
    repeat split. cbn. lia.
  - exists (if b then js "true" else js "false").
    destruct fuel; [cbn in Hfuel; lia|].
    destruct b; repeat split; cbn; lia.
  - exists (quote s). destruct fuel; [cbn in Hfuel; lia|].
    split; [reflexivity|]. split; [|cbn; lia].
    destruct (parse_string_quote s rest Hv) as (body & -> & Hbody).
    cbn [parse_value skip_ws is_json_ws N.eqb Pos.eqb orb]. by rewrite Hbody.
  - rewrite storable_arr in Hv. rewrite size_arr in Hfuel |- *.
    assert (Hall : Forall (fun x => storable x = true /\ reads_back x) items).
    { rewrite forallb_forall in Hv. rewrite Forall_forall in IH |- *.
      intros x Hx. apply list_elem_of_In in Hx.
      split; [by apply Hv|]. apply IH; [by apply list_elem_of_In|by apply Hv]. }
    rewrite serialize_arr. eexists. split; [reflexivity|].
    destruct fuel as [|fuel]; [lia|].
    destruct items as [|x t].
    { split; [reflexivity|cbn; lia]. }
    destruct (wrap_shape 91 93 gap indent
                (element_text gap (indent ++ gap) x)
                (List.map (element_text gap (indent ++ gap)) t) Hgap Hindent)
      as (w1 & w2 & Hw1 & Hw2 & Hwrap).
    change (List.map (element_text gap (indent ++ gap)) (x :: t))
      with (element_text gap (indent ++ gap) x
            :: List.map (element_text gap (indent ++ gap)) t).
    rewrite Hwrap. split.
    + cbn [app parse_value skip_ws is_json_ws N.eqb Pos.eqb orb].
      rewrite <- !app_assoc. rewrite skip_ws_app by assumption.
      destruct (join_head (44 :: w1) (element_text gap (indent ++ gap) x)
                  (List.map (element_text gap (indent ++ gap)) t)) as [tail Htail].
      pose proof (Forall_inv Hall) as [Hx Hrb].
      destruct (Hrb gap (indent ++ gap) [] (size x)) as (text & Hser & _);
        [done|by apply all_ws_app|lia|].
      destruct (serialize_head _ _ _ _ Hx Hser) as (c & t0 & -> & Hc & H93 & _).
      rewrite Htail. unfold element_text at 1. rewrite Hser.
      cbn [default from_option id app]. rewrite skip_ws_head by assumption.
      rewrite H93. rewrite <- Htail.
      change (element_text gap (indent ++ gap) x
              :: List.map (element_text gap (indent ++ gap)) t)
        with (List.map (element_text gap (indent ++ gap)) (x :: t)).
      cbn [app].
      apply (parse_elements_join gap (indent ++ gap) w1 w2 rest Hgap
               (all_ws_app _ _ Hindent Hgap) Hw1 Hw2 (x :: t) []);
        [done|done|lia].
    + change (element_text gap (indent ++ gap) x
              :: List.map (element_text gap (indent ++ gap)) t)
        with (List.map (element_text gap (indent ++ gap)) (x :: t)).
      pose proof (join_length w1 (List.map (element_text gap (indent ++ gap)) (x :: t)))
        as Hjoin.
      rewrite List.map_map in Hjoin.
      assert (Hle : (list_sum (List.map (fun x => S (size x)) (x :: t))
                     <= list_sum (List.map (fun x => S (length (element_text gap (indent ++ gap) x))) (x :: t)))%nat).
      { apply list_sum_le. eapply Forall_impl; [exact Hall|].
        intros y [Hy Hrb]. cbn beta.
        destruct (Hrb gap (indent ++ gap) [] (size y)) as (text & Hser & _ & Hlen);
          [done|by apply all_ws_app|lia|].
        unfold element_text. rewrite Hser. cbn. lia. }
      cbn [length]. rewrite !length_app. cbn [length]. lia.
  - rewrite storable_obj in Hv. apply andb_true_iff in Hv as [Hnodup Hv].
    apply bool_decide_eq_true in Hnodup.
    rewrite size_obj in Hfuel |- *.
    assert (Hall : Forall (fun kv => code_units (fst kv) = true
                      /\ storable (snd kv) = true /\ reads_back (snd kv)) props).
    { rewrite forallb_forall in Hv. rewrite Forall_forall in IH |- *.
      intros kv Hkv. apply list_elem_of_In in Hkv.
      specialize (Hv kv Hkv). apply andb_true_iff in Hv as [Hk Hx].
      repeat split; [done|done|]. apply IH; [by apply list_elem_of_In|done]. }
    assert (Hsome : Forall (fun kv => is_Some (serialize gap (indent ++ gap) (snd kv))) props).
    { eapply Forall_impl; [exact Hall|]. intros kv (_ & _ & Hrb).
      destruct (Hrb gap (indent ++ gap) [] (size (snd kv))) as (text & Hser & _);
        [done|by apply all_ws_app|lia|]. by exists text. }
    rewrite (serialize_obj _ _ _ Hsome). eexists. split; [reflexivity|].
    destruct fuel as [|fuel]; [lia|].
    destruct props as [|[k x] t].
    { split; [reflexivity|cbn; lia]. }
    destruct (wrap_shape 123 125 gap indent
                (member_text gap (indent ++ gap) (k, x))
                (List.map (member_text gap (indent ++ gap)) t) Hgap Hindent)
      as (w1 & w2 & Hw1 & Hw2 & Hwrap).
    change (List.map (member_text gap (indent ++ gap)) ((k, x) :: t))
      with (member_text gap (indent ++ gap) (k, x)
            :: List.map (member_text gap (indent ++ gap)) t).
    rewrite Hwrap. split.
    + cbn [app parse_value skip_ws is_json_ws N.eqb Pos.eqb orb].
      rewrite <- !app_assoc. rewrite skip_ws_app by assumption.
      destruct (join_head (44 :: w1) (member_text gap (indent ++ gap) (k, x))
                  (List.map (member_text gap (indent ++ gap)) t)) as [tail Htail].
      rewrite Htail. unfold member_text at 1, quote. cbn [fst app].
      rewrite skip_ws_head by reflexivity.
      change (34 =? 125) with false. cbv iota.
      change (34 :: (quote_units false k ++ [34]) ++ colon gap
                     ++ text_of (serialize gap (indent ++ gap) (k, x).2))
        with (member_text gap (indent ++ gap) (k, x)).
      rewrite <- Htail.
      change (member_text gap (indent ++ gap) (k, x)
              :: List.map (member_text gap (indent ++ gap)) t)
        with (List.map (member_text gap (indent ++ gap)) ((k, x) :: t)).
      apply (parse_members_join gap (indent ++ gap) w1 w2 rest Hgap
               (all_ws_app _ _ Hindent Hgap) Hw1 Hw2 ((k, x) :: t) []);
        [done|done|done|lia].
    + change (member_text gap (indent ++ gap) (k, x)
              :: List.map (member_text gap (indent ++ gap)) t)
        with (List.map (member_text gap (indent ++ gap)) ((k, x) :: t)).
      pose proof (join_length w1 (List.map (member_text gap (indent ++ gap)) ((k, x) :: t)))
        as Hjoin.
      rewrite List.map_map in Hjoin.
      assert (Hle : (list_sum (List.map (fun kv => S (size (snd kv))) ((k, x) :: t))
                     <= list_sum (List.map (fun kv => S (length (member_text gap (indent ++ gap) kv))) ((k, x) :: t)))%nat).
      { apply list_sum_le. eapply Forall_impl; [exact Hall|].
        intros kv (_ & _ & Hrb). cbn beta.
        destruct (Hrb gap (indent ++ gap) [] (size (snd kv))) as (text & Hser & _ & Hlen);
          [done|by apply all_ws_app|lia|].
        unfold member_text. rewrite Hser. rewrite !length_app. cbn. lia. }
      cbn [length]. rewrite !length_app. cbn [length]. lia.
Qed.


(** [JSON.parse] reads back what [JSON.stringify] writes, whatever the
    indentation. *)
Lemma JSON_parse_serialize gap v :
  all_ws gap = true -> storable v = true ->
  exists text, serialize gap [] v = Some text /\ JSON_parse text = Some v.
Proof.
  intros Hgap Hv. pose proof (storable_reads_back v Hv) as Hrb.
  destruct (Hrb gap [] [] (size v) Hgap eq_refl (le_n _))
    as (text & Hser & _ & Hlen).
  destruct (Hrb gap [] [] (2 * length text + 2)%nat Hgap eq_refl)
    as (text' & Hser' & Hparse & _); [lia|].
  assert (text' = text) as -> by congruence.
  exists text. split; [done|]. unfold JSON_parse.
  rewrite app_nil_r in Hparse. by rewrite Hparse.
Qed.

Lemma JSON_parse_stringify v :
  storable v = true -> JSON_parse (text_of (JSON_stringify v)) = Some v.
Proof.
  intros Hv. destruct (JSON_parse_serialize [] v eq_refl Hv) as (text & Hs & Hp).
  unfold JSON_stringify. by rewrite Hs.
Qed.

Lemma JSON_parse_stringify_2 v :
  storable v = true -> JSON_parse (text_of (JSON_stringify_2 v)) = Some v.
Proof.
  intros Hv.
  destruct (JSON_parse_serialize [32; 32] v eq_refl Hv) as (text & Hs & Hp).
  unfold JSON_stringify_2. by rewrite Hs.
Qed.

End JsonRoundTrip.

(* ================================================================== *)
(** ** Saving, then reading *)
(* ================================================================== *)

Section SaveThenGet.

Variable host : Host.

Ltac step :=
  cbn [bind try_catch run set_heap set_field or_throw console_log console_warn
       console_error heap set_heap_of add_log add_request dataManager
       set_dataManager localStorage set_localStorage requests console clock
       fst snd negb andb orb default from_option id and_then or_else setItem].

Lemma local_selected_storage f h :
  local_selected h -> local_selected (set_localStorage f h).
Proof. by intros [? ?]. Qed.

Lemma nonempty_true s : s <> [] -> nonempty s = true.
Proof. by destruct s. Qed.

(** The local backend: what is saved is read back. *)
Lemma local_save_then_get k v e r :
  local_selected (heap e) ->
  local_faithful k v ->
  exists e1,
    run host (save_document host k v) e r = (Returned (VBool true), e1, r)
    /\ run host (get_document host k) e1 r = (Returned v, e1, r).
Proof.
  intros Hlocal Hv. destruct k; cbn [save_document get_document local_faithful] in *.
  - destruct Hv as [Hst Htr].
    unfold saveNewsItems, getNewsItems. rewrite run_dispatch_local by assumption.
    step. eexists. split; [reflexivity|].
    rewrite run_dispatch_local by (by apply local_selected_storage).
    unfold getItem, JSON_parse_js. step. rewrite lookup_insert_eq.
    cbn [slot default from_option id]. rewrite JSON_parse_stringify by assumption.
    step. by rewrite Htr.
  - destruct Hv as (title & header & -> & Ht & Hh).
    unfold saveSiteSettings, getSiteSettings.
    rewrite run_dispatch_local by assumption.
    unfold prop. cbn [get_prop assoc]. rewrite decide_True by reflexivity.
    step. rewrite decide_False by discriminate. rewrite decide_True by reflexivity.
    step. eexists. split; [reflexivity|].
    rewrite run_dispatch_local by (by repeat apply local_selected_storage).
    step. unfold getItem_or, getItem. cbn [heap set_heap_of localStorage set_localStorage].
    rewrite lookup_insert_ne by discriminate. rewrite !lookup_insert_eq.
    cbn [ToString]. by rewrite !nonempty_true.
  - destruct Hv as [Hst Htr].
    unfold saveSocialLinks, getSocialLinks. rewrite run_dispatch_local by assumption.
    step. eexists. split; [reflexivity|].
    rewrite run_dispatch_local by (by apply local_selected_storage).
    unfold getItem, JSON_parse_js. step. rewrite lookup_insert_eq.
    cbn [slot default from_option id]. rewrite JSON_parse_stringify by assumption.
    step. by rewrite Htr.
  - destruct Hv as (code & -> & Hc).
    unfold saveAdminSettings, getAdminSettings.
    rewrite run_dispatch_local by assumption.
    unfold prop. cbn [get_prop assoc]. rewrite decide_True by reflexivity.
    step. eexists. split; [reflexivity|].
    rewrite run_dispatch_local by (by repeat apply local_selected_storage).
    step. unfold getItem_or, getItem. cbn [heap set_heap_of localStorage set_localStorage].
    rewrite !lookup_insert_eq.
    cbn [ToString]. by rewrite !nonempty_true.
Qed.


(** *** Steps that touch nothing *)

Lemma pure_bind {A B : Type} (m : prog A) (f : A -> prog B) :
  pure m -> (forall a, pure (f a)) -> pure (bind m f).
Proof. destruct m; cbn; auto; contradiction. Qed.

Lemma pure_try_catch {A : Type} (m : prog A) handler :
  pure m -> (forall x, pure (handler x)) -> pure (try_catch m handler).
Proof. destruct m; cbn; auto; contradiction. Qed.

Lemma pure_or_throw {A : Type} (o : option A) x : pure (or_throw o x).
Proof. by destruct o. Qed.

Lemma pure_settle method o : pure (settle host method o).
Proof.
  destruct o as [x|response]; cbn [settle]; [done|].
  repeat case_match; try done. apply pure_or_throw.
Qed.

Lemma run_pure {A : Type} (m : prog A) e r :
  pure m ->
  exists res, run host m e r = (res, e, r) /\ res <> Waiting.
Proof. destruct m; cbn; try contradiction; by eexists. Qed.

(** [getFile] sends its one request and leaves the page as it was,
    however the remote answers. *)
Lemma run_getFile_any e r this path :
  githubApi (dataManager (heap e)) = Some this ->
  exists res r',
    run host (getFile host path) e r
    = (res, add_request (get_request this path) e, r')
    /\ res <> Waiting.
Proof.
  intros Hthis. unfold getFile, makeRequest, with_this.
  step. rewrite Hthis. step. rewrite Hthis. step.
  destruct (fetch host r _) as [o r'].
  match goal with |- context [run host ?m ?env r'] =>
    destruct (run_pure m env r') as (res & -> & Hres) end.
  - apply pure_try_catch; [|intros x; by case_match].
    apply pure_bind; [apply pure_settle|]. intros response.
    apply pure_bind; [apply pure_or_throw|]. intros encoded.
    apply pure_bind; [apply pure_or_throw|]. intros content.
    apply pure_bind; [apply pure_or_throw|]. intros sha.
    apply pure_bind; [apply pure_or_throw|]. by intros file_path.
  - by exists res, r'.
Qed.

(** When [saveFile] returns, it has sent its GET and then a PUT that
    carries the base64 text of the content. *)
Lemma run_saveFile_returned e r this path content message x e1 r1 :
  githubApi (dataManager (heap e)) = Some this ->
  run host (saveFile host path content message) e r = (Returned x, e1, r1) ->
  exists encoded sha,
    btoa content = Some encoded
    /\ e1 = add_request (put_request this path message encoded sha)
              (add_request (get_request this path) e).
Proof.
  intros Hthis. unfold saveFile. rewrite run_bind.
  destruct (run_getFile_any e r this path Hthis) as (res & r' & -> & _).
  destruct res as [file|err|]; cbn [and_then]; [|discriminate..].
  rewrite run_bind.
  match goal with |- context [run host ?m ?env r'] =>
    destruct (run_pure m env r') as (res & -> & _) end.
  { case_match; [apply pure_or_throw|done]. }
  destruct res as [sha|err|]; cbn [and_then]; [|discriminate..].
  unfold with_this. step. rewrite Hthis. unfold btoa_js.
  destruct (btoa content) as [encoded|]; step; [|discriminate].
  unfold makeRequest, with_this. step. rewrite Hthis. step.
  destruct (fetch host r' _) as [o2 r2].
  match goal with |- context [run host (settle host ?m ?o) ?env ?rr] =>
    destruct (run_pure (settle host m o) env rr (pure_settle m o))
      as (res & -> & _) end.
  intros [= _ <- _].
  exists encoded, (if truthy sha then Some sha else None).
  split; [done|]. by destruct (truthy sha).
Qed.

(** The same for the writers of the four documents. *)
Lemma run_write_document_true e r this k v e1 r1 :
  remote_selected (heap e) this ->
  run host (save_document host k v) e r = (Returned (VBool true), e1, r1) ->
  exists encoded sha,
    btoa (text_of (JSON_stringify_2 v)) = Some encoded
    /\ e1 = add_request
              (put_request this (remote_path k) (commit_message k) encoded sha)
              (add_request (get_request this (remote_path k)) e).
Proof.
  intros Hsel.
  assert (Hthis : githubApi (dataManager (heap e)) = Some this) by apply Hsel.
  assert (Hwrite : forall path message what,
    run host (write_document host path v message what) e r
    = (Returned (VBool true), e1, r1) ->
    exists encoded sha,
      btoa (text_of (JSON_stringify_2 v)) = Some encoded
      /\ e1 = add_request (put_request this (js path) (js message) encoded sha)
                (add_request (get_request this (js path)) e)).
  { intros path message what. unfold write_document.
    rewrite run_try_catch, run_bind.
    destruct (run host (saveFile host _ _ _) e r) as [[res e'] r''] eqn:Hsave.
    destruct res as [x|err|]; cbn [and_then or_else]; step; try discriminate.
    intros [= <- <-].
    by apply (run_saveFile_returned e r this _ _ _ x e' r''). }
  destruct k; cbn [save_document remote_path commit_message];
    [unfold saveNewsItems, GitHubAPI_saveNewsItems
    |unfold saveSiteSettings, GitHubAPI_saveSiteSettings
    |unfold saveSocialLinks, GitHubAPI_saveSocialLinks
    |unfold saveAdminSettings, GitHubAPI_saveAdminSettings];
    rewrite (run_dispatch_remote host _ _ e r this Hsel); apply Hwrite.
Qed.

(** A reader decodes the file the remote serves. *)
Lemma run_read_document_served e r this k v encoded o r' :
  remote_selected (heap e) this ->
  storable v = true ->
  btoa (text_of (JSON_stringify_2 v)) = Some encoded ->
  fetch host r (get_request this (remote_path k)) = (o, r') ->
  serves o encoded ->
  run host (get_document host k) e r
  = (Returned v, add_request (get_request this (remote_path k)) e, r').
Proof.
  intros Hsel Hst Henc Hf (response & w & -> & Hok & H204 & Hjson & Hcontent).
  assert (Hthis : githubApi (dataManager (heap e)) = Some this) by apply Hsel.
  assert (exists sha, get_prop w (js "sha") = Some sha) as [sha Hsha].
  { destruct w; try discriminate; cbn; eauto. }
  assert (Hfound : file_found (Responded response)
                     (text_of (JSON_stringify_2 v)) sha).
  { exists response, w, (VStr encoded). repeat split; try done.
    cbn [ToString]. by apply atob_btoa. }
  assert (Hread : forall path what fallback,
    js path = remote_path k ->
    run host (read_document host path what fallback) e r
    = (Returned v, add_request (get_request this (remote_path k)) e, r')).
  { intros path what fallback Hpath. unfold read_document.
    rewrite run_try_catch, run_bind, Hpath.
    destruct (run_getFile_found host e r this _ _ r' _ sha Hthis Hf Hfound)
      as [fp ->].
    cbn [and_then truthy]. unfold prop. cbn [get_prop assoc].
    rewrite decide_True by reflexivity. step. unfold JSON_parse_js.
    cbn [ToString]. by rewrite JSON_parse_stringify_2. }
  destruct k; cbn [get_document];
    [unfold getNewsItems, GitHubAPI_getNewsItems
    |unfold getSiteSettings, GitHubAPI_getSiteSettings
    |unfold getSocialLinks, GitHubAPI_getSocialLinks
    |unfold getAdminSettings, GitHubAPI_getAdminSettings];
    rewrite (run_dispatch_remote host _ _ e r this Hsel); by apply Hread.
Qed.


End SaveThenGet.

(* ================================================================== *)
(** ** One initialisation, shared by all callers *)
(* ================================================================== *)

Section ProgramLogic.

Lemma advance_bind {A B : Type} (m : prog A) (f : A -> prog B) e :
  advance (bind m f) e = advance_then (advance m e) f.
Proof.
  revert e.
  induction m as [a|x|k IH|g k IH|entry k IH|k IH|req k IH|p k IH];
    intros e; cbn [bind advance advance_then]; auto.
  destruct (resolved (heap e) p); [apply IH | reflexivity].
Qed.

Context {A : Type} (I : Heap -> Prop) (sends : Request -> Prop) (awaited : nat).

Lemma safe_bind {B : Type} (post_m : A -> Prop) (post : B -> Prop)
    (m : prog A) (f : A -> prog B) :
  safe I sends awaited post_m m ->
  (forall a, post_m a -> safe I sends awaited post (f a)) ->
  safe I sends awaited post (bind m f).
Proof.
  intros Hm Hf.
  induction m as [a|x|k IH|g k IH|entry k IH|k IH|req k IH|p k IH];
    cbn [bind safe] in *; auto.
  - destruct Hm. auto.
  - destruct Hm. auto.
  - destruct Hm. auto.
Qed.

Lemma safe_try_catch (post : A -> Prop) (m : prog A) handler :
  safe I sends awaited post m ->
  (forall x, safe I sends awaited post (handler x)) ->
  safe I sends awaited post (try_catch m handler).
Proof.
  intros Hm Hh.
  induction m as [a|x|k IH|g k IH|entry k IH|k IH|req k IH|p k IH];
    cbn [try_catch safe] in *; auto.
  - destruct Hm. auto.
  - destruct Hm. auto.
  - destruct Hm. auto.
Qed.

Lemma safe_pure (m : prog A) :
  pure m -> safe I sends awaited (fun _ => True) m.
Proof. by destruct m. Qed.

Lemma safe_sound (post : A -> Prop) (m : prog A) e :
  safe I sends awaited post m ->
  I (heap e) ->
  I (heap (snd (advance m e)))
  /\ (exists new, requests (snd (advance m e)) = requests e ++ new
                  /\ Forall sends new)
  /\ task_safe I sends awaited post (fst (advance m e)).
Proof.
  revert e.
  induction m as [a|x|k IH|g k IH|entry k IH|k IH|req k IH|p k IH];
    intros e Hm HI; cbn [safe advance fst snd task_safe] in *.
  - repeat split; [done| |done]. exists []. by rewrite app_nil_r.
  - repeat split; [done|]. exists []. by rewrite app_nil_r.
  - by apply IH; auto.
  - destruct Hm as [Hg Hk]. exact (IH (set_heap_of g e) Hk (Hg _ HI)).
  - exact (IH (add_log entry e) Hm HI).
  - by apply IH.
  - destruct Hm as [Hq Hk]. repeat split; [done| |done].
    exists [req]. split; [done|]. by constructor.
  - destruct Hm as [Hp Hk]. destruct (resolved (heap e) p).
    + by apply IH.
    + cbn. repeat split; [done| |done|done]. exists []. by rewrite app_nil_r.
Qed.

End ProgramLogic.

Section OneInitialisation.

Variable host : Host.
Variable e0 : Env.

Lemma probing_pending h : probing e0 h -> resolved h (shared_promise e0) = None.
Proof.
  intros (_ & _ & _ & Hps & _). unfold resolved, shared_promise.
  rewrite Hps. by rewrite list_lookup_middle.
Qed.

Lemma safe_waiting_bind {A B : Type} (now_m later_m : A -> Prop)
    (now later : B -> Prop) (m : prog A) (f : A -> prog B) :
  safe_waiting e0 now_m later_m m ->
  (forall a, now_m a -> safe_waiting e0 now later (f a)) ->
  (forall u a, later_m a -> safe_settled e0 u later (f a)) ->
  safe_waiting e0 now later (bind m f).
Proof.
  intros Hm Hf Hs.
  induction m as [a|x|k IH|g k IH|entry k IH|k IH|req k IH|p k IH];
    cbn [bind safe_waiting] in *; auto.
  destruct Hm as [Hp Hk]. split; [done|]. intros u b.
  eapply safe_bind; [apply Hk|]. intros a Ha. by apply Hs.
Qed.

Lemma safe_waiting_sound {A : Type} (now later : A -> Prop) (m : prog A) e :
  safe_waiting e0 now later m ->
  probing e0 (heap e) ->
  heap (snd (advance m e)) = heap e
  /\ requests (snd (advance m e)) = requests e
  /\ task_waiting e0 now later (fst (advance m e)).
Proof.
  revert e.
  induction m as [a|x|k IH|g k IH|entry k IH|k IH|req k IH|p k IH];
    intros e Hm HI; cbn [safe_waiting advance fst snd] in *.
  - done.
  - done.
  - by apply IH; auto.
  - done.
  - exact (IH (add_log entry e) Hm HI).
  - by apply IH.
  - done.
  - destruct Hm as [-> Hk]. rewrite (probing_pending _ HI). done.
Qed.

Lemma finishes_bind {A B : Type} (post_m : A -> Prop) (post : B -> Prop)
    (k : FetchOutcome -> prog A) (f : A -> prog B) :
  finishes e0 post_m k ->
  (forall u a, post_m a -> safe_settled e0 u post (f a)) ->
  finishes e0 post (fun o => bind (k o) f).
Proof.
  intros Hk Hf o e He. rewrite advance_bind.
  destruct (Hk o e He) as (u & new & Hs & Hreq & Hnew & Ht).
  destruct (advance (k o) e) as [t e1]. cbn [fst snd] in *.
  destruct t as [[a|x|]|k'|p k']; cbn [advance_then fst snd].
  - destruct (safe_sound _ _ _ _ (f a) e1 (Hf u a Ht) Hs)
      as (Hs' & (new' & Hreq' & Hnew') & Ht').
    exists u, (new ++ new'). split; [exact Hs'|]. split; [|split].
    + by rewrite Hreq', Hreq, app_assoc.
    + by apply Forall_app.
    + exact Ht'.
  - by exists u, new.
  - by exists u, new.
  - exists u, new. split; [exact Hs|]. split; [exact Hreq|].
    split; [exact Hnew|]. intros o'.
    eapply safe_bind; [apply Ht|]. intros a Ha. by apply Hf.
  - exists u, new. destruct Ht as [Hp Ht]. split; [exact Hs|].
    split; [exact Hreq|]. split; [exact Hnew|]. split; [exact Hp|]. intros b.
    eapply safe_bind; [apply Ht|]. intros a Ha. by apply Hf.
Qed.

Lemma starts_bind {A B : Type} (post_m : A -> Prop) (post : B -> Prop)
    (m : prog A) (f : A -> prog B) :
  starts e0 post_m m ->
  (forall u a, post_m a -> safe_settled e0 u post (f a)) ->
  starts e0 post (bind m f).
Proof.
  intros Hm Hf. unfold starts. rewrite advance_bind.
  destruct Hm as [(Hs & Hreq & Ht) | (k & probe & Hk & Hp & Hprobe & Hreq & Hfin)].
  - left. destruct (advance m e0) as [t e1]. cbn [fst snd] in *.
    destruct t as [[a|x|]|k'|p k']; cbn [advance_then fst snd].
    + destruct (safe_sound _ _ _ _ (f a) e1 (Hf false a Ht) Hs)
        as (Hs' & (new' & Hreq' & Hnew') & Ht').
      split; [exact Hs'|]. split; [|exact Ht'].
      destruct new' as [|q new']; [by rewrite Hreq', app_nil_r|].
      apply Forall_cons in Hnew' as [[Hq _] _]. discriminate.
    + done.
    + done.
    + split; [exact Hs|]. split; [exact Hreq|]. intros o'.
      eapply safe_bind; [apply Ht|]. intros a Ha. by apply Hf.
    + destruct Ht as [Hp Ht]. split; [exact Hs|]. split; [exact Hreq|].
      split; [exact Hp|]. intros b.
      eapply safe_bind; [apply Ht|]. intros a Ha. by apply Hf.
  - right. destruct (advance m e0) as [t e1]. cbn [fst snd] in *. subst t.
    cbn [advance_then fst snd].
    exists (fun o => bind (k o) f), probe.
    split; [done|]. split; [exact Hp|]. split; [exact Hprobe|].
    split; [exact Hreq|]. by eapply finishes_bind.
Qed.


(** *** The calls once the backend is selected *)

Lemma settled_storage f h :
  settled e0 false h -> settled e0 false (set_localStorage f h).
Proof.
  intros (Hf & Hi & Hu & Hp & Hl & Hr & _).
  split; [exact Hf|]. split; [exact Hi|]. split; [exact Hu|].
  split; [exact Hp|]. split; [exact Hl|]. split; [exact Hr|]. intros [=].
Qed.

Lemma settled_initialize u :
  safe_settled e0 u (fun p => p = shared_promise e0) (initialize host).
Proof.
  intros h (_ & _ & _ & Hp & _). by rewrite Hp.
Qed.

Lemma settled_ensure u :
  safe_settled e0 u (fun _ => True) (_ensureInitialized host).
Proof.
  intros h (_ & Hi & _). by rewrite Hi.
Qed.

Lemma settled_after_ensure {A : Type} u (post : A -> Prop) on_github on_local :
  (u = true -> forall h, settled e0 u h -> safe_settled e0 u post (on_github h)) ->
  (u = false -> forall h, settled e0 u h -> safe_settled e0 u post (on_local h)) ->
  safe_settled e0 u post (after_ensure on_github on_local).
Proof.
  intros Hg Hl h Hs.
  pose proof Hs as (_ & _ & Hu & _). rewrite Hu.
  destruct u; [by apply Hg | by apply Hl].
Qed.

Lemma dispatch_after_ensure {A : Type} (on_github on_local : Heap -> prog A) :
  dispatch host on_github on_local
  = (_ensureInitialized host;; after_ensure on_github on_local).
Proof. reflexivity. Qed.

Lemma get_document_dispatch k :
  get_document host k
  = dispatch host (on_githubApi host (remote_reader host k))
      (local_reader host k).
Proof. by destruct k. Qed.

Lemma save_document_dispatch k v :
  save_document host k v
  = dispatch host (on_githubApi host (remote_writer host k v))
      (local_writer host k v).
Proof. by destruct k. Qed.

Lemma settled_or_throw {A : Type} u (o : option A) x :
  safe_settled e0 u (fun _ => True) (or_throw o x).
Proof. by destruct o. Qed.

(** The local bodies send nothing and write local storage only. *)
Lemma settled_local_reader k h :
  safe_settled e0 false (fun _ => True) (local_reader host k h).
Proof.
  destruct k; try done.
  - eapply safe_bind; [apply settled_or_throw|]. intros v _.
    by destruct (negb (truthy v)).
  - eapply safe_bind; [apply settled_or_throw|]. by intros v _.
Qed.

Lemma settled_setItem key text :
  safe_settled e0 false (fun _ => True) (setItem key text).
Proof. split; [|done]. intros h. apply settled_storage. Qed.

Lemma settled_local_writer k v h :
  safe_settled e0 false (fun _ => True) (local_writer host k v h).
Proof.
  destruct k.
  - eapply safe_bind; [apply settled_setItem|]. done.
  - eapply safe_bind; [apply settled_or_throw|]. intros ? _.
    eapply safe_bind; [apply settled_setItem|]. intros _ _.
    eapply safe_bind; [apply settled_or_throw|]. intros ? _.
    eapply safe_bind; [apply settled_setItem|]. done.
  - eapply safe_bind; [apply settled_setItem|]. done.
  - eapply safe_bind; [apply settled_or_throw|]. intros ? _.
    eapply safe_bind; [apply settled_setItem|]. done.
Qed.


(** A request for the contents of a file is not the probe. *)
Lemma contents_not_probe config tok path method data :
  build_request
    (mkGitHubAPI tok (js "https://api.github.com")
       (Some (cfg_username config)) (Some (cfg_repoName config)))
    (contents_endpoint
       (mkGitHubAPI tok (js "https://api.github.com")
          (Some (cfg_username config)) (Some (cfg_repoName config))) path)
    method data
  <> probe_request config tok.
Proof.
  intros H. apply (f_equal req_url) in H.
  unfold probe_request, build_request, contents_endpoint in H.
  cbn [req_url apiBaseUrl username repoName slot default from_option id] in H.
  do 4 apply app_inv_head in H.
  apply (f_equal length) in H. rewrite !length_app in H. cbn in H. lia.
Qed.

Lemma settled_with_this {A : Type} (post : A -> Prop) (f : GitHubAPI -> prog A) :
  (forall config tok,
     window_GITHUB_CONFIG (heap e0) = Some config ->
     getToken (heap e0) = Some tok ->
     safe_settled e0 true post
       (f (mkGitHubAPI tok (js "https://api.github.com")
             (Some (cfg_username config)) (Some (cfg_repoName config))))) ->
  safe_settled e0 true post (with_this host f).
Proof.
  intros Hf h (_ & _ & _ & _ & _ & _ & Hremote).
  destruct (Hremote eq_refl) as [_ (config & tok & Hc & Ht & Hapi)].
  rewrite Hapi. by apply Hf.
Qed.

Lemma settled_contents_request path method data config tok :
  window_GITHUB_CONFIG (heap e0) = Some config ->
  getToken (heap e0) = Some tok ->
  safe_settled e0 true (fun _ => True)
    (makeRequest host
       (contents_endpoint
          (mkGitHubAPI tok (js "https://api.github.com")
             (Some (cfg_username config)) (Some (cfg_repoName config))) path)
       method data).
Proof.
  intros Hc Ht. apply settled_with_this. intros config' tok' Hc' Ht'.
  assert (config' = config) as -> by congruence.
  assert (tok' = tok) as -> by congruence.
  split.
  - split; [done|]. unfold is_probe, probe_of. rewrite Hc, Ht.
    apply bool_decide_eq_false. intros H. apply (inj Some) in H.
    symmetry in H. by apply contents_not_probe in H.
  - intros o. apply safe_pure, pure_settle.
Qed.

Lemma settled_getFile path :
  safe_settled e0 true (fun _ => True) (getFile host path).
Proof.
  unfold getFile. apply safe_try_catch; [|intros x; by case_match].
  apply settled_with_this. intros config tok Hc Ht.
  eapply safe_bind; [by apply settled_contents_request|]. intros response _.
  eapply safe_bind; [apply settled_or_throw|]. intros encoded _.
  eapply safe_bind; [apply settled_or_throw|]. intros content _.
  eapply safe_bind; [apply settled_or_throw|]. intros sha _.
  eapply safe_bind; [apply settled_or_throw|]. by intros file_path _.
Qed.

Lemma settled_saveFile path content message :
  safe_settled e0 true (fun _ => True) (saveFile host path content message).
Proof.
  unfold saveFile.
  eapply safe_bind; [apply settled_getFile|]. intros existingFile _.
  eapply (safe_bind _ _ _ (fun _ => True)).
  { case_match; [apply settled_or_throw|done]. }
  intros sha _. apply settled_with_this. intros config tok Hc Ht.
  eapply safe_bind; [apply settled_or_throw|]. intros encoded _.
  by apply settled_contents_request.
Qed.

Lemma settled_read_document path what fallback :
  safe_settled e0 true (fun _ => True) (read_document host path what fallback).
Proof.
  unfold read_document. apply safe_try_catch; [|done].
  eapply safe_bind; [apply settled_getFile|]. intros file _.
  case_match; [|done].
  eapply safe_bind; [apply settled_or_throw|]. intros content _.
  apply settled_or_throw.
Qed.

Lemma settled_write_document path v message what :
  safe_settled e0 true (fun _ => True)
    (write_document host path v message what).
Proof.
  unfold write_document. apply safe_try_catch; [|done].
  eapply safe_bind; [apply settled_saveFile|]. done.
Qed.

Lemma settled_on_githubApi {A : Type} (m : prog A) h :
  safe_settled e0 true (fun _ => True) m ->
  safe_settled e0 true (fun _ => True) (on_githubApi host m h).
Proof. intros Hm. unfold on_githubApi. by apply settled_with_this. Qed.

Lemma settled_remote_reader k :
  safe_settled e0 true (fun _ => True) (remote_reader host k).
Proof.
  destruct k; cbn [remote_reader];
    [unfold GitHubAPI_getNewsItems|unfold GitHubAPI_getSiteSettings
    |unfold GitHubAPI_getSocialLinks|unfold GitHubAPI_getAdminSettings];
    apply settled_read_document.
Qed.

Lemma settled_remote_writer k v :
  safe_settled e0 true (fun _ => True) (remote_writer host k v).
Proof.
  destruct k; cbn [remote_writer];
    [unfold GitHubAPI_saveNewsItems|unfold GitHubAPI_saveSiteSettings
    |unfold GitHubAPI_saveSocialLinks|unfold GitHubAPI_saveAdminSettings];
    apply settled_write_document.
Qed.

Lemma settled_reader_after u k :
  safe_settled e0 u (fun _ => True)
    (after_ensure (on_githubApi host (remote_reader host k))
       (local_reader host k)).
Proof.
  apply settled_after_ensure; intros -> h _.
  - apply settled_on_githubApi, settled_remote_reader.
  - apply settled_local_reader.
Qed.

Lemma settled_writer_after u k v :
  safe_settled e0 u (fun _ => True)
    (after_ensure (on_githubApi host (remote_writer host k v))
       (local_writer host k v)).
Proof.
  apply settled_after_ensure; intros -> h _.
  - apply settled_on_githubApi, settled_remote_writer.
  - apply settled_local_writer.
Qed.

Lemma settled_get_document u k :
  safe_settled e0 u (fun _ => True) (get_document host k).
Proof.
  rewrite get_document_dispatch, dispatch_after_ensure.
  eapply safe_bind; [apply settled_ensure|]. intros _ _.
  apply settled_reader_after.
Qed.

Lemma settled_save_document u k v :
  safe_settled e0 u (fun _ => True) (save_document host k v).
Proof.
  rewrite save_document_dispatch, dispatch_after_ensure.
  eapply safe_bind; [apply settled_ensure|]. intros _ _.
  apply settled_writer_after.
Qed.

(** Every call is safe once the backend is selected. *)
Lemma call_prog_settled u c :
  safe_settled e0 u (shared e0) (call_prog host c).
Proof.
  destruct c as [|k|k v]; cbn [call_prog].
  - eapply safe_bind; [apply settled_initialize|]. by intros p ->.
  - eapply safe_bind; [apply settled_get_document|]. done.
  - eapply safe_bind; [apply settled_save_document|]. done.
Qed.


(** *** The calls while the probe is on its way *)

Lemma waiting_initialize :
  safe_waiting e0 (fun p => p = shared_promise e0)
    (fun p => p = shared_promise e0) (initialize host).
Proof. intros h (_ & _ & Hp & _). by rewrite Hp. Qed.

Lemma waiting_ensure :
  safe_waiting e0 (fun _ => False) (fun _ => True) (_ensureInitialized host).
Proof.
  intros h (_ & Hi & _). rewrite Hi.
  eapply safe_waiting_bind; [apply waiting_initialize|..].
  - by intros p ->.
  - by intros u p ->.
Qed.

(** Every call made while the probe is on its way either hands back the
    shared promise or waits on it. *)
Lemma call_prog_waiting c :
  safe_waiting e0 (shared e0) (shared e0) (call_prog host c).
Proof.
  destruct c as [|k|k v]; cbn [call_prog].
  - eapply safe_waiting_bind; [apply waiting_initialize|..].
    + by intros p ->.
    + by intros u p ->.
  - rewrite get_document_dispatch, dispatch_after_ensure.
    apply (safe_waiting_bind (fun _ => True) (fun _ => True)); [|done|done].
    eapply safe_waiting_bind; [apply waiting_ensure|done|].
    intros u _ _. apply settled_reader_after.
  - rewrite save_document_dispatch, dispatch_after_ensure.
    apply (safe_waiting_bind (fun _ => True) (fun _ => True)); [|done|done].
    eapply safe_waiting_bind; [apply waiting_ensure|done|].
    intros u _ _. apply settled_writer_after.
Qed.


(** *** The first call *)

Ltac walk :=
  cbn [advance bind try_catch set_heap set_field or_throw console_log
       console_warn console_error fallback_to_localStorage heap set_heap_of
       add_log add_request dataManager set_dataManager githubApi set_githubApi
       isInitialized set_isInitialized useGitHub set_useGitHub initPromise
       set_initPromise window_GITHUB_CONFIG window_GitHubAPI sessionStorage
       localStorage promises set_promises requests console clock
       fst snd negb andb orb default from_option id option_map resolve
       token apiBaseUrl username repoName new_GitHubAPI new_DataManager].

Lemma settles_now u b (h : Heap) :
  (u = true ->
   exists config tok,
     window_GITHUB_CONFIG (heap e0) = Some config
     /\ getToken (heap e0) = Some tok
     /\ githubApi (dataManager h)
        = Some (mkGitHubAPI tok (js "https://api.github.com")
                  (Some (cfg_username config)) (Some (cfg_repoName config)))) ->
  frozen e0 h ->
  initPromise (dataManager h) = Some (shared_promise e0) ->
  promises h = promises (heap e0) ++ [None] ->
  localStorage h = localStorage (heap e0) ->
  settled e0 u
    (resolve (shared_promise e0) b
       (set_dataManager (set_isInitialized true)
          (set_dataManager (set_useGitHub u) h))).
Proof.
  intros Hapi Hf Hp Hps Hl.
  split; [exact Hf|]. split; [done|]. split; [done|]. split; [exact Hp|].
  split; [|split].
  - cbn. rewrite length_insert, Hps, length_app. cbn. unfold shared_promise. lia.
  - unfold resolved. cbn. rewrite Hps. unfold shared_promise.
    rewrite list_lookup_insert_eq by (rewrite length_app; cbn; lia).
    by eexists.
  - intros Hu. split; [exact Hl|]. exact (Hapi Hu).
Qed.

(** The executor either ends at once on the local backend, or sends the
    probe and, whatever the answer, selects a backend and ends. *)
Lemma advance_executor e :
  (exists b e',
     advance (executor host) e = (Ended (Returned b), e')
     /\ heap e' = set_dataManager (set_isInitialized true)
                    (set_dataManager (set_useGitHub false) (heap e))
     /\ requests e' = requests e)
  \/ (exists config tok k e',
        window_GITHUB_CONFIG (heap e) = Some config
        /\ getToken (heap e) = Some tok
        /\ advance (executor host) e = (OnFetch k, e')
        /\ heap e'
           = set_dataManager
               (set_githubApi
                  (Some (mkGitHubAPI tok (js "https://api.github.com")
                           (Some (cfg_username config))
                           (Some (cfg_repoName config))))) (heap e)
        /\ requests e' = requests e ++ [probe_request config tok]
        /\ forall o e2,
             exists u b e3,
               advance (k o) e2 = (Ended (Returned b), e3)
               /\ heap e3 = set_dataManager (set_isInitialized true)
                              (set_dataManager (set_useGitHub u) (heap e2))
               /\ requests e3 = requests e2).
Proof.
  unfold executor. walk.
  destruct (window_GITHUB_CONFIG (heap e)) as [config|] eqn:Hc; walk;
    [|left; by repeat eexists].
  destruct (cfg_enabled config); walk; [|left; by repeat eexists].
  destruct (getToken (heap e)) as [tok|] eqn:Ht; walk;
    [|rewrite !andb_false_r; walk; left; by repeat eexists].
  destruct (nonempty (cfg_username config) && nonempty (cfg_repoName config)
            && nonempty tok); walk; [|left; by repeat eexists].
  destruct (window_GitHubAPI (heap e)); walk; [|left; by repeat eexists].
  right. exists config, tok.
  unfold GitHubAPI_initialize, makeRequest, with_this. walk.
  eexists _, _. split; [done|]. split; [done|]. split; [reflexivity|].
  split; [reflexivity|]. split; [reflexivity|].
  intros o e2. destruct o as [x|response]; cbn [settle]; walk.
  { by eexists false, true, _. }
  destruct (negb (ok response)); walk; [by eexists false, true, _|].
  destruct (bool_decide (GET = js "HEAD") || (status response =? 204)%N); walk;
    [by eexists true, true, _|].
  destruct (response_json response); walk;
    [by eexists true, true, _ | by eexists false, true, _].
Qed.


Lemma initialize_starts :
  dataManager (heap e0) = new_DataManager ->
  starts e0 (fun p => p = shared_promise e0) (initialize host).
Proof.
  intros Hdm.
  set (e1 := set_heap_of
               (fun h => set_dataManager (set_initPromise (Some (shared_promise e0)))
                           (set_promises (fun ps => ps ++ [None]) h)) e0).
  set (f := fun b : bool =>
              set_heap (resolve (shared_promise e0) b);; Ret (shared_promise e0)).
  assert (Hadv : advance (initialize host) e0
                 = advance_then (advance (executor host) e1) f).
  { unfold initialize. cbn [advance]. rewrite Hdm. walk.
    by rewrite advance_bind. }
  assert (Hfrozen : forall g, frozen e0 (set_dataManager g (heap e1))) by done.
  destruct (advance_executor e1)
    as [(b & e' & Hx & Hh & Hr)
       | (config & tok & k & e' & Hc & Ht & Hx & Hh & Hr & Hk)].
  - left. rewrite Hadv, Hx. subst f. cbn [advance_then]. walk. rewrite Hh.
    split; [|by split].
    apply (settles_now false b (heap e1)); try done.
  - right. rewrite Hadv, Hx. cbn [advance_then fst snd].
    exists (fun o => bind (k o) f), (probe_request config tok).
    assert (Hapi : configured_api e0 (heap e')).
    { exists config, tok. rewrite Hh. by repeat split. }
    split; [done|]. split; [|split; [|split]].
    + rewrite Hh. split; [apply Hfrozen|]. split; [by cbn; rewrite Hdm|].
      split; [done|]. split; [done|]. split; [done|]. by rewrite <- Hh.
    + unfold probe_of.
      change (window_GITHUB_CONFIG (heap e0)) with (window_GITHUB_CONFIG (heap e1)).
      change (getToken (heap e0)) with (getToken (heap e1)).
      by rewrite Hc, Ht.
    + exact Hr.
    + intros o e He. rewrite advance_bind.
      destruct (Hk o e) as (u & b & e3 & -> & Hh3 & Hr3).
      subst f. cbn [advance_then]. walk. exists u, []. rewrite Hh3.
      destruct He as (Hf & _ & Hp & Hps & Hl & Hconf).
      split; [|split; [|split]].
      * by apply (settles_now u b (heap e)).
      * by rewrite app_nil_r.
      * constructor.
      * done.
Qed.

Lemma ensure_starts :
  dataManager (heap e0) = new_DataManager ->
  starts e0 (fun _ => True) (_ensureInitialized host).
Proof.
  intros Hdm.
  assert (Hbind : starts e0 (fun _ => True)
                    (p <- initialize host;; Await p (fun _ => Ret tt))).
  { eapply starts_bind; [by apply initialize_starts|]. by intros u p ->. }
  unfold starts, _ensureInitialized in *. cbn [advance]. by rewrite Hdm.
Qed.

(** The first call selects the local backend at once, or sends the probe
    and is suspended. *)
Lemma call_prog_starts c :
  dataManager (heap e0) = new_DataManager ->
  starts e0 (shared e0) (call_prog host c).
Proof.
  intros Hdm. destruct c as [|k|k v]; cbn [call_prog].
  - eapply starts_bind; [by apply initialize_starts|]. by intros u p ->.
  - rewrite get_document_dispatch, dispatch_after_ensure.
    apply (starts_bind (fun _ => True)); [|done].
    eapply starts_bind; [by apply ensure_starts|].
    intros u _ _. apply settled_reader_after.
  - rewrite save_document_dispatch, dispatch_after_ensure.
    apply (starts_bind (fun _ => True)); [|done].
    eapply starts_bind; [by apply ensure_starts|].
    intros u _ _. apply settled_writer_after.
Qed.


(** *** Every event keeps the page in one of its phases *)

Lemma follows_no_probe u new :
  Forall (follows e0 u) new ->
  List.filter (is_probe (heap e0)) new = [] /\ (u = false -> new = []).
Proof.
  intros Hnew. split.
  - induction Hnew as [|q new [_ Hq] _ IH]; [done|]. cbn. by rewrite Hq.
  - intros ->. destruct Hnew as [|q new [Hq _] _]; [done|discriminate].
Qed.

(** One more stretch of a call, once the backend is selected. *)
Lemma selected_advance u sent e tasks tasks' (m : prog answer) :
  selected e0 u sent (mkPage e tasks) ->
  safe_settled e0 u (shared e0) m ->
  (forall t, task_settled e0 u (shared e0) t ->
             Forall (fun ct => task_settled e0 u (shared e0) (snd ct)) (tasks' t)) ->
  exists sent',
    selected e0 u sent'
      (mkPage (snd (advance m e)) (tasks' (fst (advance m e)))).
Proof.
  intros (Hs & Hreq & Hcount & Hlocal & Htasks) Hm Htasks'.
  cbn [page_env page_tasks] in *.
  destruct (safe_sound _ _ _ _ m e Hm Hs) as (Hs' & (new & Hreq' & Hnew) & Ht).
  destruct (follows_no_probe u new Hnew) as [Hfilter Hnone].
  exists (sent ++ new). split; [exact Hs'|]. split; [|split; [|split]].
  - cbn [page_env]. by rewrite Hreq', Hreq, app_assoc.
  - by rewrite List.filter_app, Hfilter, app_nil_r.
  - intros Hu. rewrite (Hnone Hu), app_nil_r. by apply Hlocal.
  - cbn [page_tasks]. by apply Htasks'.
Qed.

Lemma step_selected u sent pg ev :
  selected e0 u sent pg -> exists sent', selected e0 u sent' (step host pg ev).
Proof.
  intros Hsel. destruct pg as [e tasks].
  pose proof Hsel as (Hs & Hreq & Hcount & Hlocal & Htasks).
  cbn [page_env page_tasks] in *.
  destruct ev as [c|i o|i]; cbn [step page_env page_tasks].
  - destruct (advance (call_prog host c) e) as [t e'] eqn:Hadv.
    destruct (selected_advance u sent e tasks (fun t => tasks ++ [(c, t)])
                (call_prog host c) Hsel (call_prog_settled u c)) as [sent' H].
    { intros t' Ht'. apply Forall_app. split; [done|]. by constructor. }
    rewrite Hadv in H. by exists sent'.
  - destruct (tasks !! i) as [[c [| k | ]]|] eqn:Hi; try by exists sent.
    destruct (advance (k o) e) as [t e'] eqn:Hadv.
    assert (Hk : task_settled e0 u (shared e0) (OnFetch k)).
    { by apply (Forall_lookup_1 _ _ _ _ Htasks Hi). }
    destruct (selected_advance u sent e tasks (fun t => <[i := (c, t)]> tasks)
                (k o) Hsel (Hk o)) as [sent' H].
    { intros t' Ht'. by apply Forall_insert. }
    rewrite Hadv in H. by exists sent'.
  - destruct (tasks !! i) as [[c [| | p k]]|] eqn:Hi; try by exists sent.
    destruct (resolved (heap e) p) as [b|]; [|by exists sent].
    destruct (advance (k b) e) as [t e'] eqn:Hadv.
    assert (Hk : task_settled e0 u (shared e0) (OnPromise p k)).
    { by apply (Forall_lookup_1 _ _ _ _ Htasks Hi). }
    destruct Hk as [_ Hk].
    destruct (selected_advance u sent e tasks (fun t => <[i := (c, t)]> tasks)
                (k b) Hsel (Hk b)) as [sent' H].
    { intros t' Ht'. by apply Forall_insert. }
    rewrite Hadv in H. by exists sent'.
Qed.

Lemma waiting_settled u (ct : call * task answer) :
  task_waiting e0 (shared e0) (shared e0) (snd ct) ->
  task_settled e0 u (shared e0) (snd ct).
Proof.
  destruct ct as [c [[a|x|]|k|p k]]; cbn; try done.
  intros [Hp Hk]. split; [done|]. apply Hk.
Qed.

Lemma step_phase pg ev :
  dataManager (heap e0) = new_DataManager ->
  phase e0 pg -> phase e0 (step host pg ev).
Proof.
  intros Hdm Hphase.
  destruct Hphase as [|e c k waiting probe Hp Hprobe Hreq Hk Hwait|u sent pg Hsel].
  - destruct ev as [c|i o|i]; cbn [step page_env page_tasks];
      [|constructor..].
    destruct (call_prog_starts c Hdm)
      as [(Hs & Hreq & Ht) | (k & probe & Hk & Hp & Hprobe & Hreq & Hfin)];
      destruct (advance (call_prog host c) e0) as [t e]; cbn [fst snd app] in *.
    + apply (backend_selected e0 false []).
      split; [exact Hs|]. split; [by rewrite app_nil_r|]. split; [cbn; lia|].
      split; [done|]. by constructor.
    + subst t. by eapply probe_sent.
  - destruct ev as [c'|i o|i]; cbn [step page_env page_tasks].
    + destruct (safe_waiting_sound _ _ (call_prog host c') e
                  (call_prog_waiting c') Hp) as (Hh & Hr & Ht).
      destruct (advance (call_prog host c') e) as [t e']. cbn [fst snd] in *.
      rewrite <- app_comm_cons. eapply probe_sent; try done.
      * by rewrite Hh.
      * by rewrite Hr.
      * apply Forall_app. split; [done|]. by constructor.
    + destruct i as [|i]; cbn [lookup list_lookup].
      * destruct (Hk o e Hp) as (u & new & Hs & Hr & Hnew & Ht).
        destruct (advance (k o) e) as [t e']. cbn [fst snd] in *.
        destruct (follows_no_probe u new Hnew) as [Hfilter Hnone].
        apply (backend_selected e0 u (probe :: new)).
        split; [exact Hs|]. split; [|split; [|split]]; cbn [page_env page_tasks].
        -- by rewrite Hr, Hreq, <- app_assoc.
        -- cbn [List.filter]. rewrite Hfilter. destruct (is_probe _ _); cbn; lia.
        -- intros Hu. rewrite (Hnone Hu). cbn.
           unfold is_probe. by rewrite bool_decide_eq_true_2.
        -- cbn. constructor; [exact Ht|].
           eapply Forall_impl; [exact Hwait|]. intros ct. apply waiting_settled.
      * destruct (waiting !! i) as [[c' [| k' | ]]|] eqn:Hi;
          try (by eapply probe_sent).
        by apply (Forall_lookup_1 _ _ _ _ Hwait) in Hi.
    + destruct i as [|i]; cbn [lookup list_lookup]; [by eapply probe_sent|].
      destruct (waiting !! i) as [[c' [| | p k']]|] eqn:Hi;
        try (by eapply probe_sent).
      apply (Forall_lookup_1 _ _ _ _ Hwait) in Hi. destruct Hi as [-> _].
      rewrite (probing_pending _ Hp). by eapply probe_sent.
  - destruct (step_selected u sent pg ev Hsel) as [sent' Hsel'].
    by eapply backend_selected.
Qed.

Lemma play_phase pg evs :
  dataManager (heap e0) = new_DataManager ->
  phase e0 pg -> phase e0 (play host pg evs).
Proof.
  intros Hdm. revert pg. induction evs as [|ev evs IH]; intros pg Hpg; [done|].
  cbn [play fold_left]. apply IH. by apply step_phase.
Qed.

Lemma play_selected u sent pg evs :
  selected e0 u sent pg -> exists sent', selected e0 u sent' (play host pg evs).
Proof.
  revert sent pg. induction evs as [|ev evs IH]; intros sent pg Hsel.
  - by exists sent.
  - cbn [play fold_left].
    destruct (step_selected u sent pg ev Hsel) as [sent' Hsel'].
    by apply (IH sent').
Qed.


End OneInitialisation.

(** C9. Whatever calls are made on one data manager, whenever the network
    answers and in whatever order the waiting calls resume: at most one
    initialisation promise is ever allocated and at most one probe is ever
    sent; every [initialize] call that has returned handed back the promise
    stored in [initPromise], and every suspended caller waits on that same
    promise; once the data manager is initialised the selection never
    changes, and every caller has used the selected backend (on the local
    backend nothing but the probe was ever sent, on the remote backend
    local storage was never written). *)
Theorem one_shared_initialisation host e0 evs :
  dataManager (heap e0) = new_DataManager ->
  (length (promises (heap (page_env (after host e0 evs))))
   <= S (length (promises (heap e0))))%nat
  /\ (length (List.filter (is_probe (heap e0))
                (sent_since e0 (page_env (after host e0 evs)))) <= 1)%nat
  /\ (forall i c p,
        page_tasks (after host e0 evs) !! i
        = Some (c, Ended (Returned (Promise p))) ->
        initPromise (dataManager (heap (page_env (after host e0 evs)))) = Some p)
  /\ (forall i c p k,
        page_tasks (after host e0 evs) !! i = Some (c, OnPromise p k) ->
        initPromise (dataManager (heap (page_env (after host e0 evs)))) = Some p)
  /\ (isInitialized (dataManager (heap (page_env (after host e0 evs)))) = true ->
      (useGitHub (dataManager (heap (page_env (after host e0 evs)))) = false ->
       forallb (is_probe (heap e0))
         (sent_since e0 (page_env (after host e0 evs))) = true)
      /\ (useGitHub (dataManager (heap (page_env (after host e0 evs)))) = true ->
          localStorage (heap (page_env (after host e0 evs)))
          = localStorage (heap e0))
      /\ forall more,
           isInitialized
             (dataManager (heap (page_env (after host e0 (evs ++ more))))) = true
           /\ useGitHub
                (dataManager (heap (page_env (after host e0 (evs ++ more)))))
              = useGitHub (dataManager (heap (page_env (after host e0 evs))))).
Proof.
  intros Hdm.
  pose proof (play_phase host e0 (mkPage e0 []) evs Hdm (untouched e0)) as Hphase.
  fold (after host e0 evs) in Hphase.
  assert (Hmore : forall more,
    after host e0 (evs ++ more) = play host (after host e0 evs) more).
  { intros more. unfold after, play. apply fold_left_app. }
  remember (after host e0 evs) as pg eqn:Hpg.
  destruct Hphase as [|e c k waiting probe Hp Hprobe Hreq Hk Hwait|u sent pg Hsel];
    cbn [page_env page_tasks].
  - unfold sent_since. rewrite drop_all. cbn.
    split; [lia|]. split; [lia|]. split; [by intros [|i]|].
    split; [by intros [|i]|]. by rewrite Hdm.
  - destruct Hp as (_ & Hi & Hinit & Hps & _).
    unfold sent_since. rewrite Hreq, drop_app_length, Hps, length_app. cbn.
    split; [lia|]. split; [destruct (is_probe _ _); cbn; lia|].
    split; [|split; [|by rewrite Hi]].
    + intros [|i] c' p Hi'; [done|]. cbn in Hi'.
      apply (Forall_lookup_1 _ _ _ _ Hwait) in Hi'. cbn in Hi'. by subst p.
    + intros [|i] c' p k' Hi'; [done|]. cbn in Hi'.
      apply (Forall_lookup_1 _ _ _ _ Hwait) in Hi'. destruct Hi' as [-> _].
      done.
  - pose proof Hsel as (Hs & Hreq & Hcount & Hlocal & Htasks).
    pose proof Hs as (_ & Hi & Hu & Hinit & Hlen & _ & Hremote).
    unfold sent_since. rewrite Hreq, drop_app_length.
    split; [unfold shared_promise in Hlen; lia|]. split; [exact Hcount|].
    split; [|split; [|intros _; split; [|split]]].
    + intros i c p Hi'. apply (Forall_lookup_1 _ _ _ _ Htasks) in Hi'.
      cbn in Hi'. by subst p.
    + intros i c p k Hi'. apply (Forall_lookup_1 _ _ _ _ Htasks) in Hi'.
      destruct Hi' as [-> _]. done.
    + intros Hu'. apply Hlocal. congruence.
    + intros Hu'. apply Hremote. congruence.
    + intros more. rewrite Hmore.
      destruct (play_selected host e0 u sent pg more Hsel) as (sent' & Hs' & _).
      destruct Hs' as (_ & Hi' & Hu'' & _). by rewrite Hi', Hu'', Hu.
Qed.

(* ================================================================== *)
(** ** The depth bound of [JSON_parse] *)
(* ================================================================== *)

(** [JSON_parse] runs the descent with a depth bound of twice the length
    of the text plus two.  Every step of the descent that asks for more
    depth has consumed a character, so the bound is never reached: [None]
    always stands for a text that [JSON.parse] rejects. *)
Section ParserDepth.

Lemma skip_ws_length s : (length (skip_ws s) <= length s)%nat.
Proof.
  induction s as [|c t IH]; cbn; [lia|].
  destruct (is_json_ws c); cbn; lia.
Qed.

Lemma parse_string_shorter s str rest :
  parse_string s = Some (str, rest) -> (length rest < length s)%nat.
Proof.
  remember (length s) as n eqn:Hn. revert s str rest Hn.
  induction n as [n IH] using lt_wf_ind.
  intros [|c t] str rest -> H; [discriminate|].
  cbn in H.
  destruct (c =? 34).
  { injection H as _ <-. cbn. lia. }
  destruct (c =? 92).
  - destruct t as [|e t1]; [discriminate|].
    destruct (e =? 117).
    + destruct t1 as [|h1 [|h2 [|h3 [|h4 t2]]]]; try discriminate.
      destruct (hex4 h1 h2 h3 h4); [|discriminate].
      destruct (parse_string t2) as [[str' rest']|] eqn:Hp; [|discriminate].
      injection H as _ <-.
      assert (length rest' < length t2)%nat
        by (apply (IH (length t2)) with (s := t2) (str := str'); cbn; [lia|done|done]).
      cbn. lia.
    + destruct (unescape e); [|discriminate].
      destruct (parse_string t1) as [[str' rest']|] eqn:Hp; [|discriminate].
      injection H as _ <-.
      assert (length rest' < length t1)%nat
        by (apply (IH (length t1)) with (s := t1) (str := str'); cbn; [lia|done|done]).
      cbn. lia.
  - destruct (c <? 32); [discriminate|].
    destruct (parse_string t) as [[str' rest']|] eqn:Hp; [|discriminate].
    injection H as _ <-.
    assert (length rest' < length t)%nat
      by (apply (IH (length t)) with (s := t) (str := str'); cbn; [lia|done|done]).
    cbn. lia.
Qed.

Lemma digits_length s : (length (digits s).2 <= length s)%nat.
Proof.
  induction s as [|c t IH]; cbn; [lia|].
  destruct (is_digit c); [|cbn; lia].
  destruct (digits t) as [ds rest]. cbn in *. lia.
Qed.

Local Ltac digits_facts :=
  repeat match goal with
         | H : digits ?x = (_, _) |- _ =>
             let L := fresh "L" in
             pose proof (digits_length x) as L; rewrite H in L; cbn in L;
             revert H
         end;
  intros.

Lemma parse_number_shorter s lit rest :
  parse_number s = Some (lit, rest) -> (length rest < length s)%nat.
Proof.
  unfold parse_number. intros H.
  repeat case_match; simplify_eq; digits_facts; cbn in *; lia.
Qed.

Lemma expect_shorter word v0 c t v rest :
  (0 < length word)%nat ->
  expect word v0 (c :: t) = Parsed v rest -> (length rest < length (c :: t))%nat.
Proof.
  unfold expect. intros Hw H.
  destruct (starts_with word (c :: t)); [|discriminate].
  injection H as _ <-. rewrite length_drop. cbn. lia.
Qed.

(** What a descent returns as the rest is shorter than what it was given. *)
Lemma parse_shorter fuel :
  (forall s v rest,
     parse_value fuel s = Parsed v rest -> (length rest < length s)%nat)
  /\ (forall s acc v rest,
        parse_elements fuel s acc = Parsed v rest ->
        (length rest < length s)%nat)
  /\ (forall s acc v rest,
        parse_members fuel s acc = Parsed v rest ->
        (length rest < length s)%nat).
Proof.
  induction fuel as [|f (IHv & IHe & IHm)]; [by repeat split|].
  split; [|split].
  - intros s v rest H. cbn [parse_value] in H.
    pose proof (skip_ws_length s) as Hs.
    destruct (skip_ws s) as [|c t] eqn:Hskip; [discriminate|].
    assert (Hword : forall word v0,
               (0 < length word)%nat ->
               expect word v0 (c :: t) = Parsed v rest ->
               (length rest < length s)%nat).
    { intros word v0 Hw He. apply expect_shorter in He; [lia|done]. }
    cbn [length] in Hs.
    destruct (c =? 110); [eapply Hword; [|exact H]; cbn; lia|].
    destruct (c =? 116); [eapply Hword; [|exact H]; cbn; lia|].
    destruct (c =? 102); [eapply Hword; [|exact H]; cbn; lia|].
    clear Hword.
    destruct (c =? 34).
    { destruct (parse_string t) as [[str r1]|] eqn:Hp; [|discriminate].
      apply parse_string_shorter in Hp. injection H as _ <-. lia. }
    pose proof (skip_ws_length t) as Ht.
    destruct (c =? 91).
    { destruct (skip_ws t) as [|d r1]; [discriminate|]. cbn [length] in Ht.
      destruct (d =? 93).
      - injection H as _ <-. lia.
      - apply IHe in H. lia. }
    destruct (c =? 123).
    { destruct (skip_ws t) as [|d r1]; [discriminate|]. cbn [length] in Ht.
      destruct (d =? 125).
      - injection H as _ <-. lia.
      - apply IHm in H. lia. }
    destruct (parse_number (c :: t)) as [[lit r1]|] eqn:Hp; [|discriminate].
    apply parse_number_shorter in Hp. injection H as _ <-. cbn [length] in Hp. lia.
  - intros s acc v rest H. cbn [parse_elements] in H.
    destruct (parse_value f s) as [v1 r1| |] eqn:Hv; try discriminate.
    apply IHv in Hv. pose proof (skip_ws_length r1) as Hr.
    destruct (skip_ws r1) as [|c r2]; [discriminate|]. cbn [length] in Hr.
    destruct (c =? 44); [apply IHe in H; lia|].
    destruct (c =? 93); [|discriminate].
    injection H as _ <-. lia.
  - intros s acc v rest H. cbn [parse_members] in H.
    pose proof (skip_ws_length s) as Hs.
    destruct (skip_ws s) as [|q t]; [discriminate|]. cbn [length] in Hs.
    destruct (negb (q =? 34)); [discriminate|].
    destruct (parse_string t) as [[k r1]|] eqn:Hp; [|discriminate].
    apply parse_string_shorter in Hp.
    pose proof (skip_ws_length r1) as Hr1.
    destruct (skip_ws r1) as [|c r2]; [discriminate|]. cbn [length] in Hr1.
    destruct (negb (c =? 58)); [discriminate|].
    destruct (parse_value f r2) as [v1 r3| |] eqn:Hv; try discriminate.
    apply IHv in Hv. pose proof (skip_ws_length r3) as Hr3.
    destruct (skip_ws r3) as [|d r4]; [discriminate|]. cbn [length] in Hr3.
    destruct (d =? 44); [apply IHm in H; lia|].
    destruct (d =? 125); [|discriminate].
    injection H as _ <-. lia.
Qed.

(** A depth of twice the length of the text plus one is enough for a
    value, and of one more for the elements of an array and the members
    of an object. *)
Lemma parse_deep_enough fuel :
  (forall s, (2 * length s + 1 <= fuel)%nat -> parse_value fuel s <> Exhausted)
  /\ (forall s acc,
        (2 * length s + 2 <= fuel)%nat -> parse_elements fuel s acc <> Exhausted)
  /\ (forall s acc,
        (2 * length s + 2 <= fuel)%nat -> parse_members fuel s acc <> Exhausted).
Proof.
  induction fuel as [|f (IHv & IHe & IHm)].
  { repeat split; intros; lia. }
  split; [|split].
  - intros s Hf. cbn [parse_value].
    pose proof (skip_ws_length s) as Hs.
    destruct (skip_ws s) as [|c t] eqn:Hskip; [discriminate|].
    cbn [length] in Hs.
    assert (Hword : forall word v0, expect word v0 (c :: t) <> Exhausted).
    { intros word v0. unfold expect. by destruct (starts_with _ _). }
    destruct (c =? 110); [apply Hword|].
    destruct (c =? 116); [apply Hword|].
    destruct (c =? 102); [apply Hword|].
    destruct (c =? 34); [by destruct (parse_string t) as [[? ?]|]|].
    pose proof (skip_ws_length t) as Ht.
    destruct (c =? 91).
    { destruct (skip_ws t) as [|d r1]; [discriminate|].
      destruct (d =? 93); [discriminate|]. apply IHe. lia. }
    destruct (c =? 123).
    { destruct (skip_ws t) as [|d r1]; [discriminate|].
      destruct (d =? 125); [discriminate|]. apply IHm. lia. }
    by destruct (parse_number (c :: t)) as [[? ?]|].
  - intros s acc Hf. cbn [parse_elements].
    pose proof (IHv s ltac:(lia)) as Hne.
    destruct (parse_value f s) as [v1 r1| |] eqn:Hv; [|discriminate|done].
    apply (proj1 (parse_shorter f)) in Hv.
    pose proof (skip_ws_length r1) as Hr.
    destruct (skip_ws r1) as [|c r2]; [discriminate|]. cbn [length] in Hr.
    destruct (c =? 44); [apply IHe; lia|].
    by destruct (c =? 93).
  - intros s acc Hf. cbn [parse_members].
    pose proof (skip_ws_length s) as Hs.
    destruct (skip_ws s) as [|q t]; [discriminate|]. cbn [length] in Hs.
    destruct (negb (q =? 34)); [discriminate|].
    destruct (parse_string t) as [[k r1]|] eqn:Hp; [|discriminate].
    apply parse_string_shorter in Hp.
    pose proof (skip_ws_length r1) as Hr1.
    destruct (skip_ws r1) as [|c r2]; [discriminate|]. cbn [length] in Hr1.
    destruct (negb (c =? 58)); [discriminate|].
    pose proof (IHv r2 ltac:(lia)) as Hne.
    destruct (parse_value f r2) as [v1 r3| |] eqn:Hv; [|discriminate|done].
    apply (proj1 (parse_shorter f)) in Hv.
    pose proof (skip_ws_length r3) as Hr3.
    destruct (skip_ws r3) as [|d r4]; [discriminate|]. cbn [length] in Hr3.
    destruct (d =? 44); [apply IHm; lia|].
    by destruct (d =? 125).
Qed.

(** [JSON_parse] never runs out of depth: it gives [None] exactly when the
    text is not a JSON value followed by white space only. *)
Lemma JSON_parse_decides text :
  parse_value (2 * length text + 2) text <> Exhausted
  /\ (JSON_parse text = None <->
      parse_value (2 * length text + 2) text = Malformed
      \/ exists v rest,
           parse_value (2 * length text + 2) text = Parsed v rest
           /\ skip_ws rest <> []).
Proof.
  assert (Hne : parse_value (2 * length text + 2) text <> Exhausted)
    by (apply (proj1 (parse_deep_enough _)); lia).
  split; [exact Hne|]. unfold JSON_parse.
  destruct (parse_value (2 * length text + 2) text) as [v rest| |] eqn:Hv.
  - destruct (skip_ws rest) as [|c r1] eqn:Hr.
    + split; [discriminate|].
      intros [?|(v' & rest' & [= <- <-] & Hs)]; [done|]. by rewrite Hr in Hs.
    + split; [|done]. intros _. right. exists v, rest. by rewrite Hr.
  - split; [by left|done].
  - done.
Qed.

End ParserDepth.

(* ================================================================== *)
(** ** [GitHubAPI]: the probe, deleting, and what is written and read *)
(* ================================================================== *)

Section GitHubFiles.

Variable host : Host.

Ltac step :=
  cbn [bind try_catch run set_heap or_throw console_log console_error
       heap set_heap_of add_log add_request dataManager set_dataManager
       githubApi set_githubApi isInitialized useGitHub initPromise
       localStorage sessionStorage window_GITHUB_CONFIG window_GitHubAPI
       promises requests console clock option_map
       token apiBaseUrl username repoName and_then or_else].

(** X1. [GitHubAPI.initialize(username, repoName)] never throws.  It sends
    one request, the GET of [/repos/username/repoName] with the token of
    the object; it records the two names on the object whatever the
    answer; and it returns [true] exactly when the request is answered
    with an ok response whose body is JSON (or with status 204). *)
Theorem GitHubAPI_initialize_probe e r this user repo :
  githubApi (dataManager (heap e)) = Some this ->
  exists b e',
    run host (GitHubAPI_initialize host user repo) e r
    = (Returned b, e',
       snd (fetch host r
              (build_request this (js "/repos/" ++ user ++ js "/" ++ repo)
                 GET VNull)))
    /\ sent_since e e'
       = [build_request this (js "/repos/" ++ user ++ js "/" ++ repo) GET VNull]
    /\ dataManager (heap e')
       = set_githubApi
           (Some (mkGitHubAPI (token this) (apiBaseUrl this)
                    (Some user) (Some repo)))
           (dataManager (heap e))
    /\ localStorage (heap e') = localStorage (heap e)
    /\ (b = true <->
        ~ request_fails
            (fst (fetch host r
                    (build_request this
                       (js "/repos/" ++ user ++ js "/" ++ repo) GET VNull)))).
Proof.
  intros Hthis. unfold GitHubAPI_initialize. step.
  rewrite run_try_catch, run_bind. unfold makeRequest, with_this. step.
  rewrite Hthis. step.
  change (build_request
            (mkGitHubAPI (token this) (apiBaseUrl this) (Some user) (Some repo))
            (js "/repos/" ++ user ++ js "/" ++ repo) GET VNull)
    with (build_request this (js "/repos/" ++ user ++ js "/" ++ repo) GET VNull).
  destruct (fetch host r _) as [o r1]. cbn [fst snd].
  set (q := build_request this _ GET VNull).
  assert (Hsent : forall e1, requests e1 = requests e ++ [q] ->
                             sent_since e e1 = [q]).
  { intros e1 H. unfold sent_since. rewrite H. apply drop_app_length. }
  destruct o as [x|response]; cbn [settle request_fails].
  - step. eexists _, _. split; [reflexivity|].
    split; [by apply Hsent|]. split; [by cbn [add_log add_request set_heap_of set_dataManager heap dataManager]; rewrite Hthis|]. split; [done|].
    split; [discriminate|]. intros H. by destruct H.
  - destruct (ok response) eqn:Hok; cbn [negb].
    + replace (bool_decide (GET = js "HEAD")) with false by reflexivity.
      destruct (status response =? 204) eqn:H204; cbn [orb].
      * step. eexists _, _. split; [reflexivity|].
        split; [by apply Hsent|]. split; [by cbn [add_log add_request set_heap_of set_dataManager heap dataManager]; rewrite Hthis|]. split; [done|].
        split; [|done]. intros _ [?|[Hs _]]; [done|].
        by apply N.eqb_eq in H204.
      * destruct (response_json response) eqn:Hjson; step.
        -- eexists _, _. split; [reflexivity|].
           split; [by apply Hsent|]. split; [by cbn [add_log add_request set_heap_of set_dataManager heap dataManager]; rewrite Hthis|]. split; [done|].
           split; [|done]. by intros _ [?|[_ ?]].
        -- eexists _, _. split; [reflexivity|].
           split; [by apply Hsent|]. split; [by cbn [add_log add_request set_heap_of set_dataManager heap dataManager]; rewrite Hthis|]. split; [done|].
           split; [discriminate|]. intros H. destruct H. right.
           split; [by apply N.eqb_neq|done].
    + step. eexists _, _. split; [reflexivity|].
      split; [by apply Hsent|]. split; [by cbn [add_log add_request set_heap_of set_dataManager heap dataManager]; rewrite Hthis|]. split; [done|].
      split; [discriminate|]. intros H. destruct H. by left.
Qed.

(** X2. When the remote has the file, [deleteFile] sends the GET of its
    [getFile] and then one DELETE request to the same address; that request
    has no body, so neither the commit message nor the content-hash token
    it has just fetched reaches the remote. *)
Theorem deleteFile_sends_no_body e r this path message o r1 content sha :
  githubApi (dataManager (heap e)) = Some this ->
  fetch host r (get_request this path) = (o, r1) ->
  file_found o content sha ->
  sent_since e (snd (fst (run host (deleteFile host path message) e r)))
  = [get_request this path; delete_request this path message sha]
  /\ req_method (delete_request this path message sha) = DELETE
  /\ req_url (delete_request this path message sha)
     = req_url (get_request this path)
  /\ req_body (delete_request this path message sha) = None.
Proof.
  intros Hthis Hf Hfound.
  split; [|by repeat split].
  unfold deleteFile. rewrite run_bind.
  destruct (run_getFile_found host e r this path o r1 content sha Hthis Hf Hfound)
    as [fp ->].
  cbn [and_then truthy negb]. unfold with_this. step. rewrite Hthis.
  unfold prop. cbn [get_prop assoc].
  rewrite decide_False by done. rewrite decide_True by done.
  cbn [default from_option id]. step. unfold makeRequest, with_this. step.
  rewrite Hthis. step.
  destruct (fetch host r1 _) as [o2 r2].
  destruct (run_settle_pure host DELETE o2
              (add_request
                 (build_request this (contents_endpoint this path) DELETE
                    (VObj [(js "message", VStr message); (js "sha", sha);
                           (js "branch", VStr (js "main"))]))
                 (add_request (get_request this path) e)) r2) as [res ->].
  cbn [fst snd]. apply sent_since_two.
Qed.

Lemma filter_twice {A : Type} (f : A -> bool) (l : list A) :
  List.filter f (List.filter f l) = List.filter f l.
Proof.
  induction l as [|a l IH]; cbn; [done|].
  destruct (f a) eqn:Ha; cbn; [|done]. by rewrite Ha, IH.
Qed.

(** [atob] reads a text as it reads the text without its white space. *)
Lemma atob_unwrapped s : atob s = atob (unwrapped s).
Proof. unfold atob, unwrapped. by rewrite filter_twice. Qed.

(** [btoa] refuses a string with a code unit above 0xFF. *)
Lemma btoa_above_255 s c : c ∈ s -> 255 < c -> btoa s = None.
Proof.
  intros Hin Hc. unfold btoa.
  destruct (is_latin1 s) eqn:Hs; [|done].
  unfold is_latin1 in Hs. rewrite forallb_forall in Hs.
  apply list_elem_of_In, Hs, N.leb_le in Hin. lia.
Qed.


(** X4. [saveFile] with a content that has a code unit above 0xFF never
    writes: it throws after the GET of its [getFile], the only request it
    sends; when that [getFile] returned, what it throws is the error of
    [btoa]. *)
Theorem saveFile_rejects_wide_content e r this path content message c :
  githubApi (dataManager (heap e)) = Some this ->
  c ∈ content -> 255 < c ->
  exists err e1 r1,
    run host (saveFile host path content message) e r = (Raised err, e1, r1)
    /\ sent_since e e1 = [get_request this path]
    /\ (forall file,
          fst (fst (run host (getFile host path) e r)) = Returned file ->
          err = btoa_error host).
Proof.
  intros Hthis Hin Hc. unfold saveFile. rewrite run_bind.
  destruct (run_getFile_any host e r this path Hthis) as (res & r1 & -> & Hres).
  pose proof (btoa_above_255 content c Hin Hc) as Hb.
  destruct res as [file|err|]; [| |done]; cbn [and_then fst].
  - assert (Hsha : exists sha,
               (if truthy file then prop host file "sha" else Ret VNull)
               = Ret sha).
    { destruct file as [| |b|lit|s|items|props]; cbn [truthy]; try by eexists.
      - destruct b; by eexists.
      - destruct (negb _); by eexists.
      - destruct (nonempty s); by eexists. }
    destruct Hsha as [sha ->]. step. unfold with_this. step.
    rewrite Hthis. unfold btoa_js. rewrite Hb. step.
    eexists _, _, _. split; [reflexivity|]. split; [apply sent_since_one|].
    done.
  - eexists _, _, _. split; [reflexivity|]. split; [apply sent_since_one|].
    discriminate.
Qed.

End GitHubFiles.

(* ================================================================== *)
(** ** [GitHubAPI]: the document readers and writers *)
(* ================================================================== *)

Section RemoteDocuments.

Variable host : Host.

Ltac step :=
  cbn [bind try_catch run set_heap or_throw console_log console_error
       heap set_heap_of add_log add_request dataManager requests console clock
       and_then or_else].

Lemma sent_since_app e e1 l :
  requests e1 = requests e ++ l -> sent_since e e1 = l.
Proof. intros H. unfold sent_since. rewrite H. apply drop_app_length. Qed.

(** However the remote answers, a reader returns; it sends the one GET of
    its [getFile] and leaves the heap as it was. *)
Lemma run_read_document_any e r this path what fallback :
  githubApi (dataManager (heap e)) = Some this ->
  exists x e1 r1,
    run host (read_document host path what fallback) e r = (Returned x, e1, r1)
    /\ heap e1 = heap e
    /\ sent_since e e1 = [get_request this (js path)].
Proof.
  intros Hthis. unfold read_document. rewrite run_try_catch, run_bind.
  destruct (run_getFile_any host e r this (js path) Hthis)
    as (res & r1 & -> & Hres).
  destruct res as [file|err|]; [| |done]; cbn [and_then or_else].
  - match goal with |- context [run host ?m ?env r1] =>
      destruct (run_pure host m env r1) as (res & -> & Hres2) end.
    { destruct (truthy file); [|done].
      apply pure_bind; [apply pure_or_throw|]. intros c. apply pure_or_throw. }
    destruct res as [x|err|]; [| |done]; step.
    + eexists _, _, _. split; [reflexivity|]. split; [done|].
      by apply sent_since_app.
    + eexists _, _, _. split; [reflexivity|]. split; [done|].
      by apply sent_since_app.
  - step. eexists _, _, _. split; [reflexivity|]. split; [done|].
    by apply sent_since_app.
Qed.

(** However the remote answers, [saveFile] ends, with the heap as it was:
    either it throws having sent its GET only, or it has sent its GET and
    then the write request with the base64 of the content. *)
Lemma run_saveFile_any e r this path content message :
  githubApi (dataManager (heap e)) = Some this ->
  exists res e1 r1,
    run host (saveFile host path content message) e r = (res, e1, r1)
    /\ res <> Waiting /\ heap e1 = heap e
    /\ ((exists err, res = Raised err)
        /\ sent_since e e1 = [get_request this path]
        \/ exists encoded sha,
             btoa content = Some encoded
             /\ sent_since e e1
                = [get_request this path;
                   put_request this path message encoded sha]).
Proof.
  intros Hthis. unfold saveFile. rewrite run_bind.
  destruct (run_getFile_any host e r this path Hthis) as (res & r1 & -> & Hres).
  destruct res as [file|err|]; [| |done]; cbn [and_then].
  - rewrite run_bind.
    match goal with |- context [run host ?m ?env r1] =>
      destruct (run_pure host m env r1) as (res & -> & Hres2) end.
    { case_match; [apply pure_or_throw|done]. }
    destruct res as [sha|err|]; [| |done]; cbn [and_then].
    + unfold with_this. step. rewrite Hthis. unfold btoa_js.
      destruct (btoa content) as [encoded|]; step.
      * unfold makeRequest, with_this. step. rewrite Hthis. step.
        destruct (fetch host r1 _) as [o2 r2].
        match goal with |- context [run host (settle host ?m ?o) ?env ?rr] =>
          destruct (run_pure host (settle host m o) env rr (pure_settle host m o))
            as (res & -> & Hres3) end.
        eexists _, _, _. split; [reflexivity|]. split; [done|]. split; [done|].
        right. exists encoded, (if truthy sha then Some sha else None).
        split; [done|]. rewrite <- (sent_since_two e).
        by destruct (truthy sha).
      * eexists _, _, _. split; [reflexivity|]. split; [done|]. split; [done|].
        left. split; [by eexists|]. by apply sent_since_app.
    + eexists _, _, _. split; [reflexivity|]. split; [done|]. split; [done|].
      left. split; [by eexists|]. by apply sent_since_app.
  - eexists _, _, _. split; [reflexivity|]. split; [done|]. split; [done|].
    left. split; [by eexists|]. by apply sent_since_app.
Qed.

(** However the remote answers, a writer returns a boolean: [false] with
    the GET only sent, or, the write request sent, what the answer to it
    makes it. *)
Lemma run_write_document_any e r this path v message what :
  githubApi (dataManager (heap e)) = Some this ->
  exists b e1 r1,
    run host (write_document host path v message what) e r
    = (Returned (VBool b), e1, r1)
    /\ heap e1 = heap e
    /\ (b = false /\ sent_since e e1 = [get_request this (js path)]
        \/ exists encoded sha,
             btoa (text_of (JSON_stringify_2 v)) = Some encoded
             /\ sent_since e e1
                = [get_request this (js path);
                   put_request this (js path) (js message) encoded sha]).
Proof.
  intros Hthis. unfold write_document. rewrite run_try_catch, run_bind.
  destruct (run_saveFile_any e r this (js path) (text_of (JSON_stringify_2 v))
              (js message) Hthis)
    as (res & e1 & r1 & -> & Hres & Hheap & Hsent).
  destruct res as [x|err|]; [| |done]; cbn [and_then or_else]; step.
  - eexists _, _, _. split; [reflexivity|]. split; [done|].
    destruct Hsent as [[[err [=]] _]|Hput]. by right.
  - eexists _, _, _. split; [reflexivity|]. split; [done|].
    destruct Hsent as [[_ Hget]|Hput]; [left|right].
    + split; [done|]. unfold sent_since in *. by cbn [requests add_log].
    + destruct Hput as (encoded & sha & Henc & Hs). exists encoded, sha.
      split; [done|]. unfold sent_since in *. by cbn [requests add_log].
Qed.

(** X5. On the remote backend no accessor of a document throws, however
    the remote answers, and none touches the heap.  A reader returns a
    value and sends one request, the GET of the document's file.  A writer
    returns a boolean and sends that GET and at most one more request, the
    write request to the same file with the base64 of the value's JSON
    text; it returns [true] only if that write request was sent. *)
Theorem remote_accessors_never_throw e r this k v :
  remote_selected (heap e) this ->
  (exists x e1 r1,
     run host (get_document host k) e r = (Returned x, e1, r1)
     /\ heap e1 = heap e
     /\ sent_since e e1 = [get_request this (remote_path k)])
  /\ (exists b e1 r1,
        run host (save_document host k v) e r = (Returned (VBool b), e1, r1)
        /\ heap e1 = heap e
        /\ (b = false
            /\ sent_since e e1 = [get_request this (remote_path k)]
            \/ exists encoded sha,
                 btoa (text_of (JSON_stringify_2 v)) = Some encoded
                 /\ sent_since e e1
                    = [get_request this (remote_path k);
                       put_request this (remote_path k) (commit_message k)
                         encoded sha])).
Proof.
  intros Hsel.
  assert (Hthis : githubApi (dataManager (heap e)) = Some this) by apply Hsel.
  split.
  - destruct k; cbn [get_document remote_path];
      [unfold getNewsItems, GitHubAPI_getNewsItems
      |unfold getSiteSettings, GitHubAPI_getSiteSettings
      |unfold getSocialLinks, GitHubAPI_getSocialLinks
      |unfold getAdminSettings, GitHubAPI_getAdminSettings];
      rewrite (run_dispatch_remote host _ _ e r this Hsel);
      by apply run_read_document_any.
  - destruct k; cbn [save_document remote_path commit_message];
      [unfold saveNewsItems, GitHubAPI_saveNewsItems
      |unfold saveSiteSettings, GitHubAPI_saveSiteSettings
      |unfold saveSocialLinks, GitHubAPI_saveSocialLinks
      |unfold saveAdminSettings, GitHubAPI_saveAdminSettings];
      rewrite (run_dispatch_remote host _ _ e r this Hsel);
      by apply run_write_document_any.
Qed.

(** [getFile] on a request that fails returns [null] or throws. *)
Lemma run_getFile_fails e r this path o r' :
  githubApi (dataManager (heap e)) = Some this ->
  fetch host r (get_request this path) = (o, r') ->
  request_fails o ->
  exists res,
    run host (getFile host path) e r
    = (res, add_request (get_request this path) e, r')
    /\ (res = Returned VNull \/ exists err, res = Raised err).
Proof.
  intros Hthis Hf Hfail. unfold get_request in *.
  unfold getFile, makeRequest, with_this.
  step. rewrite Hthis. step. rewrite Hthis. step. rewrite Hf.
  assert (Hcatch : forall err,
    exists res,
      run host (if includes (err_message err) (js "404")
                then Ret VNull else Throw err)
        (add_request
           (build_request this (contents_endpoint this path) GET VNull) e) r'
      = (res,
         add_request
           (build_request this (contents_endpoint this path) GET VNull) e, r')
      /\ (res = Returned VNull \/ exists err, res = Raised err)).
  { intros err. destruct (includes _ _); eexists; (split; [reflexivity|]);
      [by left|right; by eexists]. }
  destruct o as [x|response]; cbn [settle request_fails] in *.
  - step. apply Hcatch.
  - destruct Hfail as [-> | [H204 Hjson]]; cbn [negb].
    + step. apply Hcatch.
    + destruct (negb (ok response)); [step; apply Hcatch|].
      replace (bool_decide (GET = js "HEAD")) with false by reflexivity.
      apply N.eqb_neq in H204. rewrite H204, Hjson. step. apply Hcatch.
Qed.

(** X6. On the remote backend, when the GET of a document's file fails
    (the fetch is rejected, the response is not ok, or its body is not
    JSON), the reader returns the fixed value of the kind: an empty array
    for the news items, an empty object for the site settings, the two
    default links, the default admin code.  When the remote reported not
    found, nothing is logged. *)
Theorem remote_reader_falls_back e r this k o r' :
  remote_selected (heap e) this ->
  fetch host r (get_request this (remote_path k)) = (o, r') ->
  request_fails o ->
  exists e1,
    run host (get_document host k) e r = (Returned (remote_fallback k), e1, r')
    /\ heap e1 = heap e
    /\ sent_since e e1 = [get_request this (remote_path k)]
    /\ (not_found o -> console e1 = console e).
Proof.
  intros Hsel Hf Hfail.
  assert (Hthis : githubApi (dataManager (heap e)) = Some this) by apply Hsel.
  assert (Hread : forall path what fallback,
    js path = remote_path k ->
    exists e1,
      run host (read_document host path what fallback) e r
      = (Returned fallback, e1, r')
      /\ heap e1 = heap e
      /\ sent_since e e1 = [get_request this (remote_path k)]
      /\ (not_found o -> console e1 = console e)).
  { intros path what fallback Hpath. unfold read_document.
    rewrite run_try_catch, run_bind, Hpath.
    destruct (run_getFile_fails e r this _ o r' Hthis Hf Hfail)
      as (res & Hrun & Hres).
    destruct Hres as [-> | [err ->]].
    - rewrite Hrun. cbn [and_then truthy or_else]. step.
      eexists. split; [reflexivity|]. split; [done|].
      split; [by apply sent_since_app|done].
    - rewrite Hrun. cbn [and_then or_else]. step.
      eexists. split; [reflexivity|]. split; [done|].
      split; [by apply sent_since_app|].
      intros Hnf.
      rewrite (run_getFile_not_found host e r this _ o r' Hthis Hf Hnf) in Hrun.
      discriminate. }
  destruct k; cbn [get_document remote_fallback remote_path] in *;
    [unfold getNewsItems, GitHubAPI_getNewsItems
    |unfold getSiteSettings, GitHubAPI_getSiteSettings
    |unfold getSocialLinks, GitHubAPI_getSocialLinks
    |unfold getAdminSettings, GitHubAPI_getAdminSettings];
    rewrite (run_dispatch_remote host _ _ e r this Hsel); by apply Hread.
Qed.

(** *** Text that [btoa] refuses *)

Lemma wide_above_255 c : wide c = true -> 255 < c.
Proof.
  unfold wide. rewrite !andb_true_iff. intros [[H _] _]. by apply N.ltb_lt.
Qed.

Lemma quote_unit_wide p n c : wide c = true -> quote_unit p n c = [c].
Proof.
  unfold wide. rewrite !andb_true_iff, !negb_true_iff.
  intros [[Hc Hh] Hl]. apply N.ltb_lt in Hc.
  unfold quote_unit. rewrite Hh, Hl.
  repeat (destruct (c =? _) eqn:E; [apply N.eqb_eq in E; lia|clear E]).
  by destruct (c <? 32) eqn:E; [apply N.ltb_lt in E; lia|].
Qed.

Lemma quote_wide c s : wide c = true -> c ∈ s -> c ∈ quote s.
Proof.
  intros Hc Hin. unfold quote. apply elem_of_cons. right.
  apply elem_of_app. left. generalize false.
  induction s as [|a t IH]; intros p; [by apply elem_of_nil in Hin|].
  cbn [quote_units]. apply elem_of_app.
  apply elem_of_cons in Hin as [<-|Hin].
  - left. rewrite quote_unit_wide by done. by apply list_elem_of_singleton.
  - right. by apply IH.
Qed.

Lemma elem_of_join (c : N) sep p parts :
  p ∈ parts -> c ∈ p -> c ∈ join sep parts.
Proof.
  intros Hp Hc. induction parts as [|q t IH]; [by apply elem_of_nil in Hp|].
  destruct t as [|q' t].
  - apply list_elem_of_singleton in Hp as ->. done.
  - rewrite join_more. apply elem_of_app.
    apply elem_of_cons in Hp as [<-|Hp]; [by left|].
    right. apply elem_of_app. right. by apply IH.
Qed.

Lemma elem_of_wrap (c : N) opening closing gap stepback indent p parts :
  p ∈ parts -> c ∈ p -> c ∈ wrap opening closing gap stepback indent parts.
Proof.
  intros Hp Hc. unfold wrap.
  destruct parts as [|q t]; [by apply elem_of_nil in Hp|].
  pose proof (elem_of_join c) as Hjoin.
  destruct (nonempty gap); rewrite !elem_of_app; eauto 10.
Qed.

Lemma serialize_defined gap indent v :
  v <> VUndefined -> is_Some (serialize gap indent v).
Proof. destruct v as [| |[|]| | | |]; by eauto. Qed.

(** A wide code unit that a value spells is in its JSON text. *)
Lemma spells_serialize c v :
  wide c = true -> spells c v = true ->
  forall gap indent,
    exists text, serialize gap indent v = Some text /\ c ∈ text.
Proof.
  intros Hc.
  induction v as [| |b|lit|s|items IH|props IH] using value_ind_nested;
    intros Hv gap indent; try discriminate.
  - exists (quote s). split; [done|].
    apply quote_wide; [done|]. by apply bool_decide_eq_true in Hv.
  - eexists. split; [reflexivity|].
    assert (exists p,
               p ∈ List.map (element_text gap (indent ++ gap)) items /\ c ∈ p)
      as (p & Hp & Hin).
    { cbn [spells] in Hv. induction IH as [|x t Hx _ IHt]; [discriminate|].
      apply orb_true_iff in Hv as [Hv|Hv].
      - destruct (Hx Hv gap (indent ++ gap)) as (text & Htext & Hin).
        exists text. split; [|done]. cbn [List.map]. apply elem_of_cons. left.
        unfold element_text. by rewrite Htext.
      - destruct (IHt Hv) as (p & Hp & Hin). exists p. split; [|done].
        cbn [List.map]. apply elem_of_cons. by right. }
    by apply (elem_of_wrap _ _ _ _ _ _ p).
  - cbn [serialize]. eexists. split; [reflexivity|].
    match goal with |- c ∈ wrap _ _ _ _ _ ?parts =>
      assert (exists p, p ∈ parts /\ c ∈ p) as (p & Hp & Hin) end.
    { cbn [spells] in Hv.
      induction IH as [|[k x] t Hx _ IHt]; [discriminate|]. cbn [snd] in Hx.
      assert (x = VUndefined \/ x <> VUndefined) as [->|Hdef]
        by (destruct x; (by left) || (by right)).
      - cbn [serialize]. by apply IHt.
      - destruct (serialize_defined gap (indent ++ gap) x Hdef) as [text Htext].
        rewrite Htext.
        assert (Hhere : bool_decide (c ∈ k) || spells c x = true
                        -> c ∈ quote k
                                ++ (if nonempty gap then [58; 32] else [58])
                                ++ text).
        { intros H. apply orb_true_iff in H as [H|H].
          - apply bool_decide_eq_true in H. apply elem_of_app. left.
            by apply quote_wide.
          - destruct (Hx H gap (indent ++ gap)) as (text' & Htext' & Hin).
            rewrite Htext in Htext'. injection Htext' as <-.
            rewrite !elem_of_app. by right; right. }
        assert (Hcases : bool_decide (c ∈ k) || spells c x = true
                         \/ (fix any (l : list (jsstring * value)) : bool :=
                               match l with
                               | [] => false
                               | (k, x) :: t =>
                                   match x with
                                   | VUndefined => any t
                                   | _ => bool_decide (c ∈ k) || spells c x
                                          || any t
                                   end
                               end) t = true).
        { destruct x; try done; by apply orb_true_iff in Hv. }
        destruct Hcases as [H|H].
        + eexists. split; [apply elem_of_cons; by left|by apply Hhere].
        + destruct (IHt H) as (p & Hp & Hin). exists p. split; [|done].
          apply elem_of_cons. by right. }
    by apply (elem_of_wrap _ _ _ _ _ _ p).
Qed.

(** X7. On the remote backend, a document that spells a code unit above
    0xFF outside the surrogates (any letter beyond Latin-1, in a string or
    in a property name) is never written: the writer sends the GET of the
    document's file and nothing else, and returns [false]. *)
Theorem remote_save_wide_text e r this k v c :
  remote_selected (heap e) this ->
  wide c = true -> spells c v = true ->
  exists e1 r1,
    run host (save_document host k v) e r = (Returned (VBool false), e1, r1)
    /\ heap e1 = heap e
    /\ sent_since e e1 = [get_request this (remote_path k)].
Proof.
  intros Hsel Hc Hv.
  assert (Hthis : githubApi (dataManager (heap e)) = Some this) by apply Hsel.
  assert (Hb : btoa (text_of (JSON_stringify_2 v)) = None).
  { destruct (spells_serialize c v Hc Hv [32; 32] []) as (text & Htext & Hin).
    unfold JSON_stringify_2. rewrite Htext. cbn [text_of default from_option id].
    apply (btoa_above_255 _ c); [done|by apply wide_above_255]. }
  assert (Hwrite : forall path message what,
    js path = remote_path k ->
    exists e1 r1,
      run host (write_document host path v message what) e r
      = (Returned (VBool false), e1, r1)
      /\ heap e1 = heap e
      /\ sent_since e e1 = [get_request this (remote_path k)]).
  { intros path message what Hpath.
    destruct (run_write_document_any e r this path v message what Hthis)
      as (b & e1 & r1 & Hrun & Hheap & Hsent).
    destruct Hsent as [[-> Hsent]|(encoded & sha & Henc & _)];
      [|by rewrite Hb in Henc].
    exists e1, r1. by rewrite <- Hpath. }
  destruct k; cbn [save_document remote_path] in *;
    [unfold saveNewsItems, GitHubAPI_saveNewsItems
    |unfold saveSiteSettings, GitHubAPI_saveSiteSettings
    |unfold saveSocialLinks, GitHubAPI_saveSocialLinks
    |unfold saveAdminSettings, GitHubAPI_saveAdminSettings];
    rewrite (run_dispatch_remote host _ _ e r this Hsel); by apply Hwrite.
Qed.

End RemoteDocuments.

(* ================================================================== *)
(** ** [DataManager]: every way [initialize] ends *)
(* ================================================================== *)

Section EveryInitialisation.

Variable host : Host.

Ltac step :=
  cbn [bind try_catch run set_heap set_field or_throw console_log console_warn
       console_error fallback_to_localStorage heap set_heap_of add_log
       add_request dataManager set_dataManager githubApi set_githubApi
       isInitialized set_isInitialized useGitHub set_useGitHub initPromise
       set_initPromise window_GITHUB_CONFIG window_GitHubAPI sessionStorage
       localStorage promises set_promises requests console clock
       fst snd negb andb orb default from_option id option_map
       token apiBaseUrl username repoName new_GitHubAPI and_then or_else].

(** The test the executor makes before it builds a [GitHubAPI]. *)
Lemma configured_test h config :
  window_GITHUB_CONFIG h = Some config ->
  cfg_enabled config = true ->
  (nonempty (cfg_username config) && nonempty (cfg_repoName config)
   && nonempty (default [] (getToken h)) = true
   <-> exists tok, configured h config tok).
Proof.
  intros Hc He. unfold configured. split.
  - rewrite !andb_true_iff. intros [[Hu Hr] Ht].
    destruct (getToken h) as [tok|]; [|discriminate]. exists tok.
    cbn in Ht. repeat split; try done.
    + by destruct (cfg_username config).
    + by destruct (cfg_repoName config).
    + by destruct tok.
  - intros (tok & _ & _ & Hu & Hr & -> & Ht). cbn.
    by destruct (cfg_username config), (cfg_repoName config), tok.
Qed.

Lemma configured_same h config tok config' tok' :
  configured h config tok -> configured h config' tok' ->
  config' = config /\ tok' = tok.
Proof.
  intros (Hc & _ & _ & _ & Ht & _) (Hc' & _ & _ & _ & Ht' & _).
  split; congruence.
Qed.

(** The executor never throws.  It sends at most the probe; it resolves
    with [false] exactly when the configuration is enabled and complete
    but the [GitHubAPI] class is missing; and it selects the remote
    backend exactly when the configuration is enabled and complete, the
    class is loaded and the probe does not fail. *)
Lemma run_executor_any e r :
  exists b e' r',
    run host (executor host) e r = (Returned b, e', r')
    /\ executor_frame (heap e) (heap e')
    /\ isInitialized (dataManager (heap e')) = true
    /\ (length (sent_since e e') <= 1)%nat
    /\ (b = false <->
        (exists config tok, configured (heap e) config tok)
        /\ window_GitHubAPI (heap e) = false)
    /\ (useGitHub (dataManager (heap e')) = true <->
        exists config tok,
          configured (heap e) config tok
          /\ window_GitHubAPI (heap e) = true
          /\ ~ request_fails (fst (fetch host r (probe_request config tok)))).
Proof.
  assert (Hnone : forall e1, requests e1 = requests e ->
                             (length (sent_since e e1) <= 1)%nat).
  { intros e1 H. unfold sent_since. rewrite H, drop_all. cbn. lia. }
  assert (Hone : forall e1 q, requests e1 = requests e ++ [q] ->
                              (length (sent_since e e1) <= 1)%nat).
  { intros e1 q H. unfold sent_since. rewrite H, drop_app_length. cbn. lia. }
  unfold executor. rewrite run_try_catch. step.
  destruct (window_GITHUB_CONFIG (heap e)) as [config|] eqn:Hc; step.
  2:{ eexists _, _, _. split; [reflexivity|]. split; [done|]. split; [done|].
      split; [by apply Hnone|]. split; (split; [done|]).
      - intros [(config & tok & Hcfg & _) _]. congruence.
      - intros (config & tok & (Hcfg & _) & _). congruence. }
  destruct (cfg_enabled config) eqn:He; step.
  2:{ eexists _, _, _. split; [reflexivity|]. split; [done|]. split; [done|].
      split; [by apply Hnone|]. split; (split; [done|]).
      - intros [(config' & tok & Hcfg & He' & _) _]. congruence.
      - intros (config' & tok & (Hcfg & He' & _) & _). congruence. }
  pose proof (configured_test (heap e) config Hc He) as Htest.
  destruct (nonempty (cfg_username config) && nonempty (cfg_repoName config)
            && nonempty (default [] (getToken (heap e)))) eqn:Hfull; step.
  2:{ eexists _, _, _. split; [reflexivity|]. split; [done|]. split; [done|].
      split; [by apply Hnone|].
      assert (Hno : forall config' tok, ~ configured (heap e) config' tok).
      { intros config' tok Hcfg.
        assert (config' = config) as -> by (destruct Hcfg; congruence).
        assert (false = true) by (apply Htest; eauto). done. }
      split; (split; [done|]).
      - intros [(config' & tok & Hcfg) _]. by apply Hno in Hcfg.
      - intros (config' & tok & Hcfg & _). by apply Hno in Hcfg. }
  destruct (proj1 Htest eq_refl) as [tok Hcfg].
  assert (Htok : getToken (heap e) = Some tok) by apply Hcfg.
  rewrite Htok. step.
  destruct (window_GitHubAPI (heap e)) eqn:Hctor; step.
  2:{ eexists _, _, _. split; [reflexivity|]. split; [done|]. split; [done|].
      split; [by apply Hnone|]. split.
      - split; [eauto|done].
      - split; [done|]. by intros (_ & _ & _ & [=] & _). }
  unfold GitHubAPI_initialize. step. rewrite run_bind, run_try_catch, run_bind.
  unfold makeRequest, with_this. step.
  change (build_request _ _ GET VNull) with (probe_request config tok).
  assert (Hprobe : forall P : Prop,
    (exists config' tok',
       configured (heap e) config' tok' /\ true = true
       /\ ~ request_fails (fst (fetch host r (probe_request config' tok'))))
    <-> ~ request_fails (fst (fetch host r (probe_request config tok)))).
  { intros _. split.
    - intros (config' & tok' & Hcfg' & _ & H).
      by destruct (configured_same _ _ _ _ _ Hcfg Hcfg') as [-> ->].
    - intros H. by exists config, tok. }
  specialize (Hprobe True).
  destruct (fetch host r (probe_request config tok)) as [o r1].
  cbn [fst] in Hprobe.
  assert (Hlocal : forall e1 : Env,
    requests e1 = requests e ++ [probe_request config tok] ->
    executor_frame (heap e) (heap e1) ->
    isInitialized (dataManager (heap e1)) = true ->
    useGitHub (dataManager (heap e1)) = false ->
    request_fails o ->
    exists b e' r',
      (Returned true, e1, r1) = (Returned b, e', r')
      /\ executor_frame (heap e) (heap e')
      /\ isInitialized (dataManager (heap e')) = true
      /\ (length (sent_since e e') <= 1)%nat
      /\ (b = false <->
          (exists config tok, configured (heap e) config tok) /\ true = false)
      /\ (useGitHub (dataManager (heap e')) = true <->
          exists config' tok',
            configured (heap e) config' tok' /\ true = true
            /\ ~ request_fails
                 (fst (fetch host r (probe_request config' tok'))))).
  { intros e1 Hreq Hframe Hinit Huse Hfail.
    exists true, e1, r1. split; [done|]. split; [done|]. split; [done|].
    split; [by apply (Hone _ (probe_request config tok))|]. split.
    - split; [done|]. by intros [_ [=]].
    - rewrite Hprobe, Huse. split; [done|]. intros H. by destruct H. }
  destruct o as [x|response]; cbn [settle request_fails] in *.
  - step. by apply Hlocal.
  - destruct (ok response) eqn:Hok; cbn [negb].
    2:{ step. apply Hlocal; try done. by left. }
    replace (bool_decide (GET = js "HEAD")) with false by reflexivity.
    assert (Hremote : forall e1 : Env,
      requests e1 = requests e ++ [probe_request config tok] ->
      executor_frame (heap e) (heap e1) ->
      isInitialized (dataManager (heap e1)) = true ->
      useGitHub (dataManager (heap e1)) = true ->
      status response = 204 \/ is_Some (response_json response) ->
      exists b e' r',
        (Returned true, e1, r1) = (Returned b, e', r')
        /\ executor_frame (heap e) (heap e')
        /\ isInitialized (dataManager (heap e')) = true
        /\ (length (sent_since e e') <= 1)%nat
        /\ (b = false <->
            (exists config tok, configured (heap e) config tok) /\ true = false)
        /\ (useGitHub (dataManager (heap e')) = true <->
            exists config' tok',
              configured (heap e) config' tok' /\ true = true
              /\ ~ request_fails
                   (fst (fetch host r (probe_request config' tok'))))).
    { intros e1 Hreq Hframe Hinit Huse Hgood.
      exists true, e1, r1. split; [done|]. split; [done|]. split; [done|].
      split; [by apply (Hone _ (probe_request config tok))|]. split.
      - split; [done|]. by intros [_ [=]].
      - rewrite Hprobe, Huse. split; [|done]. intros _ [?|[H204 Hjson]]; [done|].
        destruct Hgood as [?|[? ?]]; congruence. }
    destruct (status response =? 204) eqn:H204; cbn [orb].
    + step. apply Hremote; try done. left. by apply N.eqb_eq.
    + destruct (response_json response) eqn:Hjson; step.
      * apply Hremote; try done. right. by eexists.
      * apply Hlocal; try done. right. split; [by apply N.eqb_neq|done].
Qed.

(** The executor on the way to the remote backend. *)
Lemma run_executor_remote e r config tok :
  configured (heap e) config tok ->
  window_GitHubAPI (heap e) = true ->
  ~ request_fails (fst (fetch host r (probe_request config tok))) ->
  exists e',
    run host (executor host) e r
    = (Returned true, e', snd (fetch host r (probe_request config tok)))
    /\ dataManager (heap e')
       = mkDataManager (Some (api_of config tok)) true true
           (initPromise (dataManager (heap e)))
    /\ executor_frame (heap e) (heap e')
    /\ requests e' = requests e ++ [probe_request config tok].
Proof.
  intros (Hc & He & Hu & Hr & Htok & Ht) Hctor Hgood.
  unfold executor. rewrite run_try_catch. step. rewrite Hc, He, Htok. step.
  assert (nonempty (cfg_username config) && nonempty (cfg_repoName config)
          && nonempty tok = true) as ->.
  { by destruct (cfg_username config), (cfg_repoName config), tok. }
  rewrite Hctor. step.
  unfold GitHubAPI_initialize. step. rewrite run_bind, run_try_catch, run_bind.
  unfold makeRequest, with_this. step.
  change (build_request _ _ GET VNull) with (probe_request config tok).
  destruct (fetch host r (probe_request config tok)) as [o r1].
  cbn [fst snd] in *.
  destruct o as [x|response]; cbn [settle request_fails] in *;
    [by destruct Hgood|].
  destruct (ok response) eqn:Hok; cbn [negb]; [|destruct Hgood; by left].
  replace (bool_decide (GET = js "HEAD")) with false by reflexivity.
  destruct (status response =? 204) eqn:H204; cbn [orb].
  - step. eexists. split; [reflexivity|]. by repeat split.
  - destruct (response_json response) eqn:Hjson.
    + step. eexists. split; [reflexivity|]. by repeat split.
    + destruct Hgood. right. split; [by apply N.eqb_neq|done].
Qed.

(** X8. With an enabled and complete configuration and the [GitHubAPI]
    class loaded, a first [initialize] whose probe does not fail selects
    the remote backend: it has sent the probe and nothing else, the data
    manager is initialised with [useGitHub] set and with a [GitHubAPI] that
    holds the token of the session and the two names of the configuration,
    the promise is resolved with [true], and local storage is as it
    was. *)
Theorem initialize_selects_remote e r config tok :
  initPromise (dataManager (heap e)) = None ->
  configured (heap e) config tok ->
  window_GitHubAPI (heap e) = true ->
  ~ request_fails (fst (fetch host r (probe_request config tok))) ->
  exists p e',
    run host (initialize host) e r
    = (Returned p, e', snd (fetch host r (probe_request config tok)))
    /\ dataManager (heap e')
       = mkDataManager (Some (api_of config tok)) true true (Some p)
    /\ resolved (heap e') p = Some true
    /\ sent_since e e' = [probe_request config tok]
    /\ localStorage (heap e') = localStorage (heap e).
Proof.
  intros Hnone Hcfg Hctor Hgood.
  unfold initialize. step. rewrite Hnone. step. rewrite run_bind.
  set (e1 := set_heap_of _ e).
  destruct (run_executor_remote e1 r config tok Hcfg Hctor Hgood)
    as (e2 & -> & Hdm & Hframe & Hreq).
  destruct Hframe as (_ & Hl & _ & _ & _ & Hps).
  cbn [and_then]. step.
  eexists (length (promises (heap e))), _. split; [reflexivity|].
  unfold resolve, resolved, sent_since.
  cbn [heap set_heap_of dataManager set_dataManager promises set_promises
       localStorage requests].
  rewrite Hdm, Hps, Hreq, Hl. subst e1.
  cbn [heap set_heap_of dataManager set_dataManager promises set_promises
       localStorage requests initPromise set_initPromise].
  split; [done|]. split.
  - by rewrite list_lookup_insert_eq by (rewrite length_app; cbn; lia).
  - split; [apply drop_app_length|done].
Qed.

(** X9. A first [initialize] never throws and never leaves its promise
    pending in a call run to its end: it returns the promise it has stored
    in [initPromise], the data manager is initialised, and the promise is
    resolved.  It has sent at most one request and left both storages as
    they were.  The promise is resolved with [false] exactly when the
    configuration is enabled and complete but the [GitHubAPI] class is
    missing, and the remote backend is selected exactly when the
    configuration is enabled and complete, the class is loaded and the
    probe does not fail. *)
Theorem initialize_always_settles e r :
  initPromise (dataManager (heap e)) = None ->
  exists p b e' r',
    run host (initialize host) e r = (Returned p, e', r')
    /\ isInitialized (dataManager (heap e')) = true
    /\ initPromise (dataManager (heap e')) = Some p
    /\ resolved (heap e') p = Some b
    /\ (length (sent_since e e') <= 1)%nat
    /\ localStorage (heap e') = localStorage (heap e)
    /\ sessionStorage (heap e') = sessionStorage (heap e)
    /\ (b = false <->
        (exists config tok, configured (heap e) config tok)
        /\ window_GitHubAPI (heap e) = false)
    /\ (useGitHub (dataManager (heap e')) = true <->
        exists config tok,
          configured (heap e) config tok
          /\ window_GitHubAPI (heap e) = true
          /\ ~ request_fails (fst (fetch host r (probe_request config tok)))).
Proof.
  intros Hnone. unfold initialize. step. rewrite Hnone. step.
  rewrite run_bind.
  set (e1 := set_heap_of _ e).
  destruct (run_executor_any e1 r)
    as (b & e2 & r2 & -> & Hframe & Hinit & Hsent & Hb & Huse).
  destruct Hframe as (Hp & Hl & Hs & _ & _ & Hps).
  cbn [and_then]. step.
  eexists (length (promises (heap e))), b, _, r2.
  split; [reflexivity|]. subst e1.
  cbn [heap set_heap_of dataManager set_dataManager set_initPromise
       initPromise promises set_promises localStorage sessionStorage
       window_GitHubAPI requests] in *.
  unfold resolve.
  cbn [heap set_heap_of dataManager set_dataManager promises set_promises
       localStorage sessionStorage].
  split; [done|]. split; [done|]. split.
  { unfold resolved. cbn [promises set_promises]. rewrite Hps.
    by rewrite list_lookup_insert_eq by (rewrite length_app; cbn; lia). }
  split; [exact Hsent|]. split; [exact Hl|]. split; [exact Hs|].
  split; [exact Hb|exact Huse].
Qed.

(** A first [initialize] returns a resolved promise and leaves the data
    manager initialised. *)
Lemma run_initialize_settles e r :
  initPromise (dataManager (heap e)) = None ->
  exists p b e' r',
    run host (initialize host) e r = (Returned p, e', r')
    /\ isInitialized (dataManager (heap e')) = true
    /\ resolved (heap e') p = Some b.
Proof.
  intros Hnone. unfold initialize. step. rewrite Hnone. step.
  rewrite run_bind.
  set (e1 := set_heap_of _ e).
  destruct (run_executor_any e1 r)
    as (b & e2 & r2 & -> & Hframe & Hinit & _).
  destruct Hframe as (_ & _ & _ & _ & _ & Hps).
  cbn [and_then]. step.
  eexists (length (promises (heap e))), b, _, r2.
  split; [reflexivity|]. split; [exact Hinit|].
  unfold resolved, resolve.
  cbn [heap set_heap_of promises set_promises]. rewrite Hps. subst e1.
  cbn [heap set_heap_of promises set_promises set_dataManager].
  by rewrite list_lookup_insert_eq by (rewrite length_app; cbn; lia).
Qed.

Lemma run_dispatch_fresh {A : Type} (on_github on_local : Heap -> prog A) e r :
  isInitialized (dataManager (heap e)) = false ->
  initPromise (dataManager (heap e)) = None ->
  run host (dispatch host on_github on_local) e r
  = run host (initialize host;; dispatch host on_github on_local) e r.
Proof.
  intros Hfresh Hnone.
  destruct (run_initialize_settles e r Hnone)
    as (p & b & e' & r' & Hrun & Hinit & Hres).
  rewrite run_bind, Hrun. cbn [and_then].
  unfold dispatch at 1. rewrite run_bind.
  unfold _ensureInitialized at 1. cbn [run]. rewrite Hfresh.
  rewrite run_bind, Hrun. cbn [and_then run]. rewrite Hres.
  cbn [run and_then].
  unfold dispatch, _ensureInitialized. rewrite run_bind. cbn [run].
  by rewrite Hinit.
Qed.

(** X14. On a data manager that was never initialised, every accessor
    does what an explicit [initialize()] followed by the accessor does:
    same result, same requests, same page. *)
Theorem accessor_initializes_first e r k v :
  isInitialized (dataManager (heap e)) = false ->
  initPromise (dataManager (heap e)) = None ->
  run host (get_document host k) e r
  = run host (initialize host;; get_document host k) e r
  /\ run host (save_document host k v) e r
     = run host (initialize host;; save_document host k v) e r.
Proof.
  intros Hfresh Hnone. split.
  - rewrite get_document_dispatch. by apply run_dispatch_fresh.
  - rewrite save_document_dispatch. by apply run_dispatch_fresh.
Qed.

(** With an enabled and complete configuration and the class loaded, the
    executor sends the probe, whatever comes of it. *)
Lemma run_executor_probe_sent e r config tok :
  configured (heap e) config tok ->
  window_GitHubAPI (heap e) = true ->
  exists b e',
    run host (executor host) e r
    = (Returned b, e', snd (fetch host r (probe_request config tok)))
    /\ requests e' = requests e ++ [probe_request config tok].
Proof.
  intros (Hc & He & Hu & Hr & Htok & Ht) Hctor.
  unfold executor. rewrite run_try_catch. step. rewrite Hc, He, Htok. step.
  assert (nonempty (cfg_username config) && nonempty (cfg_repoName config)
          && nonempty tok = true) as ->.
  { by destruct (cfg_username config), (cfg_repoName config), tok. }
  rewrite Hctor. step.
  unfold GitHubAPI_initialize. step. rewrite run_bind, run_try_catch, run_bind.
  unfold makeRequest, with_this. step.
  change (build_request _ _ GET VNull) with (probe_request config tok).
  destruct (fetch host r (probe_request config tok)) as [o r1].
  cbn [fst snd] in *.
  destruct o as [x|response]; cbn [settle]; [step; by eexists _, _|].
  destruct (negb (ok response)); [step; by eexists _, _|].
  destruct (_ || _); [step; by eexists _, _|].
  destruct (response_json response); step; by eexists _, _.
Qed.

(** X13. [setToken] keeps a truthy token for the session, as a string, and
    [getToken] then returns it; a falsy token (the empty string, [null],
    [undefined]) is refused and whatever token was kept stays.  After
    [clearToken], [getToken] returns [null].  Neither touches local
    storage or the data manager. *)
Theorem token_kept_for_session e r tok :
  (truthy tok = true ->
   exists e1,
     run host (setToken tok) e r = (Returned true, e1, r)
     /\ getToken (heap e1) = Some (ToString tok)
     /\ localStorage (heap e1) = localStorage (heap e)
     /\ dataManager (heap e1) = dataManager (heap e))
  /\ (truthy tok = false ->
      run host (setToken tok) e r = (Returned false, e, r))
  /\ exists e2,
       run host clearToken e r = (Returned tt, e2, r)
       /\ getToken (heap e2) = None
       /\ localStorage (heap e2) = localStorage (heap e)
       /\ dataManager (heap e2) = dataManager (heap e).
Proof.
  split; [|split].
  - intros Ht. unfold setToken. rewrite Ht. step.
    eexists. split; [reflexivity|]. split; [|done].
    unfold getToken. cbn. apply lookup_insert_eq.
  - intros Ht. unfold setToken. by rewrite Ht.
  - unfold clearToken. step. eexists. split; [reflexivity|].
    split; [|done]. unfold getToken. cbn. apply lookup_delete_eq.
Qed.

(** X15. After [setToken] of a non-empty string, with a configuration
    that is enabled and names a user and a repository and with the
    [GitHubAPI] class loaded, a first [initialize] sends one request,
    whatever the remote answers: the probe of that repository at
    api.github.com, with the token in its [Authorization] header. *)
Theorem token_reaches_probe e r tok config :
  tok <> [] ->
  initPromise (dataManager (heap e)) = None ->
  window_GITHUB_CONFIG (heap e) = Some config ->
  cfg_enabled config = true ->
  cfg_username config <> [] -> cfg_repoName config <> [] ->
  window_GitHubAPI (heap e) = true ->
  exists sent,
    sent_since e
      (snd (fst (run host (setToken (VStr tok);; initialize host) e r)))
    = [sent]
    /\ req_url sent
       = js "https://api.github.com/repos/" ++ cfg_username config
         ++ js "/" ++ cfg_repoName config
    /\ req_method sent = GET
    /\ req_body sent = None
    /\ assoc_header (js "Authorization") (req_headers sent)
       = Some (js "token " ++ tok).
Proof.
  intros Ht Hnone Hc He Hu Hr Hctor.
  exists (probe_request config tok). split; [|by repeat split].
  rewrite run_bind. unfold setToken.
  assert (truthy (VStr tok) = true) as -> by (by destruct tok).
  cbn [bind run set_heap and_then ToString].
  set (e0 := set_heap_of _ e).
  assert (Hnone0 : initPromise (dataManager (heap e0)) = None) by exact Hnone.
  assert (Hcfg0 : configured (heap e0) config tok).
  { repeat split; try done. unfold getToken. cbn. apply lookup_insert_eq. }
  assert (Hctor0 : window_GitHubAPI (heap e0) = true) by exact Hctor.
  assert (Hreq0 : requests e0 = requests e) by reflexivity.
  clearbody e0.
  unfold initialize. step. rewrite Hnone0. step. rewrite run_bind.
  set (e1 := set_heap_of _ e0).
  destruct (run_executor_probe_sent e1 r config tok Hcfg0 Hctor0)
    as (b & e2 & -> & Hreq).
  cbn [and_then]. step. unfold sent_since. cbn [requests set_heap_of fst snd].
  rewrite Hreq. subst e1. cbn [requests set_heap_of]. rewrite Hreq0.
  apply drop_app_length.
Qed.

End EveryInitialisation.

(* ================================================================== *)
(** ** [DataManager]: the local backend *)
(* ================================================================== *)

Section LocalBackend.

Variable host : Host.

Ltac step :=
  cbn [bind try_catch run set_heap set_field or_throw console_log console_warn
       console_error heap set_heap_of add_log add_request dataManager
       set_dataManager localStorage set_localStorage requests console clock
       fst snd negb andb orb default from_option id and_then or_else].

Lemma local_selected_with_storage store e :
  local_selected (heap e) -> local_selected (heap (with_storage store e)).
Proof. by intros [? ?]. Qed.

(** A property read throws for every name or for none. *)
Lemma get_prop_defined v k1 k2 x :
  get_prop v k1 = Some x -> is_Some (get_prop v k2).
Proof. destruct v; try discriminate; by eexists. Qed.

(** A local writer sends nothing and writes the keys of its kind only: it
    returns [true], or throws with local storage as it was. *)
Lemma run_local_writer e r k v :
  local_selected (heap e) ->
  exists res store,
    run host (save_document host k v) e r = (res, with_storage store e, r)
    /\ (forall key, key ∉ local_keys k ->
                    store !! key = localStorage (heap e) !! key)
    /\ (res = Returned (VBool true)
        \/ (exists err, res = Raised err) /\ store = localStorage (heap e)).
Proof.
  intros Hlocal.
  assert (Hsame : e = with_storage (localStorage (heap e)) e).
  { by destruct e as [[] ? ? ?]. }
  destruct k; cbn [save_document local_keys].
  - unfold saveNewsItems. rewrite run_dispatch_local by assumption. step.
    eexists _, (<[js "jjkNews" := _]> (localStorage (heap e))).
    split; [reflexivity|]. split; [|by left].
    intros key Hkey. apply lookup_insert_ne. set_solver.
  - unfold saveSiteSettings. rewrite run_dispatch_local by assumption.
    unfold prop. destruct (get_prop v (js "siteTitle")) as [title|] eqn:Ht.
    + destruct (get_prop_defined v _ (js "newsHeader") _ Ht) as [header ->].
      step.
      eexists _, (<[js "jjkNewsHeader" := _]>
                    (<[js "jjkSiteTitle" := _]> (localStorage (heap e)))).
      split; [reflexivity|]. split; [|by left].
      intros key Hkey. rewrite !lookup_insert_ne; set_solver.
    + step. eexists _, (localStorage (heap e)).
      split; [by rewrite <- Hsame|]. split; [done|]. right. by eauto.
  - unfold saveSocialLinks. rewrite run_dispatch_local by assumption. step.
    eexists _, (<[js "jjkSocialLinks" := _]> (localStorage (heap e))).
    split; [reflexivity|]. split; [|by left].
    intros key Hkey. apply lookup_insert_ne. set_solver.
  - unfold saveAdminSettings. rewrite run_dispatch_local by assumption.
    unfold prop. destruct (get_prop v (js "adminCode")) as [code|] eqn:Hc.
    + step.
      eexists _, (<[js "jjkAdminCode" := _]> (localStorage (heap e))).
      split; [reflexivity|]. split; [|by left].
      intros key Hkey. apply lookup_insert_ne. set_solver.
    + step. eexists _, (localStorage (heap e)).
      split; [by rewrite <- Hsame|]. split; [done|]. right. by eauto.
Qed.

(** What a local reader returns depends on local storage through the keys
    of its kind only. *)
Lemma run_local_reader_keys e r k store store' :
  local_selected (heap e) ->
  (forall key, key ∈ local_keys k -> store !! key = store' !! key) ->
  fst (fst (run host (get_document host k) (with_storage store e) r))
  = fst (fst (run host (get_document host k) (with_storage store' e) r)).
Proof.
  intros Hlocal Hkeys.
  pose proof (local_selected_with_storage store e Hlocal) as H1.
  pose proof (local_selected_with_storage store' e Hlocal) as H2.
  destruct k; cbn [get_document local_keys] in *.
  - unfold getNewsItems. rewrite !run_dispatch_local by assumption.
    unfold getItem. cbn [heap with_storage set_heap_of localStorage set_localStorage].
    rewrite (Hkeys (js "jjkNews")) by set_solver.
    unfold JSON_parse_js. destruct (JSON_parse _) as [x|]; step; [|done].
    by destruct (negb (truthy x)).
  - unfold getSiteSettings. rewrite !run_dispatch_local by assumption.
    unfold getItem_or, getItem.
    cbn [heap with_storage set_heap_of localStorage set_localStorage].
    rewrite (Hkeys (js "jjkSiteTitle")) by set_solver.
    by rewrite (Hkeys (js "jjkNewsHeader")) by set_solver.
  - unfold getSocialLinks. rewrite !run_dispatch_local by assumption.
    unfold getItem. cbn [heap with_storage set_heap_of localStorage set_localStorage].
    rewrite (Hkeys (js "jjkSocialLinks")) by set_solver.
    unfold JSON_parse_js. by destruct (JSON_parse _) as [x|].
  - unfold getAdminSettings. rewrite !run_dispatch_local by assumption.
    unfold getItem_or, getItem.
    cbn [heap with_storage set_heap_of localStorage set_localStorage].
    by rewrite (Hkeys (js "jjkAdminCode")) by set_solver.
Qed.

Lemma local_keys_apart k k' key :
  k <> k' -> key ∈ local_keys k' -> key ∉ local_keys k.
Proof.
  intros Hk Hin Hin'.
  destruct k, k'; try done; cbn [local_keys] in *;
    repeat (apply elem_of_cons in Hin as [->|Hin]);
    try (by apply elem_of_nil in Hin);
    repeat (apply elem_of_cons in Hin' as [Hin'|Hin']);
    try (by apply elem_of_nil in Hin');
    by vm_compute in Hin'.
Qed.

(** X10. On the local backend a writer sends no request and leaves the
    data manager alone; in local storage it writes the keys of its own
    kind only, so that the reader of every other kind returns after it
    what it returned before. *)
Theorem local_save_independent e r k k' v :
  local_selected (heap e) -> k <> k' ->
  exists res e1,
    run host (save_document host k v) e r = (res, e1, r)
    /\ requests e1 = requests e
    /\ dataManager (heap e1) = dataManager (heap e)
    /\ (forall key, key ∉ local_keys k ->
                    localStorage (heap e1) !! key
                    = localStorage (heap e) !! key)
    /\ fst (fst (run host (get_document host k') e1 r))
       = fst (fst (run host (get_document host k') e r)).
Proof.
  intros Hlocal Hk.
  destruct (run_local_writer e r k v Hlocal) as (res & store & -> & Hkeys & _).
  exists res, (with_storage store e). split; [done|]. split; [done|].
  split; [done|]. split; [exact Hkeys|].
  assert (Hsame : e = with_storage (localStorage (heap e)) e).
  { by destruct e as [[] ? ? ?]. }
  rewrite Hsame at 2. apply run_local_reader_keys; [done|].
  intros key Hin. apply Hkeys. by apply (local_keys_apart k k').
Qed.

(** What a local writer stores, and when it throws instead. *)
Lemma run_local_writer_stored e r k v :
  local_selected (heap e) ->
  if writable k v
  then run host (save_document host k v) e r
       = (Returned (VBool true),
          with_storage (stored k v (localStorage (heap e))) e, r)
  else exists err, run host (save_document host k v) e r = (Raised err, e, r).
Proof.
  intros Hlocal.
  destruct k; cbn [save_document writable stored].
  - unfold saveNewsItems. by rewrite run_dispatch_local by assumption.
  - unfold saveSiteSettings. rewrite run_dispatch_local by assumption.
    unfold prop, read. destruct v; cbn [get_prop]; step; by eauto.
  - unfold saveSocialLinks. by rewrite run_dispatch_local by assumption.
  - unfold saveAdminSettings. rewrite run_dispatch_local by assumption.
    unfold prop, read. destruct v; cbn [get_prop]; step; by eauto.
Qed.

Lemma stored_twice k v1 v2 m : stored k v2 (stored k v1 m) = stored k v2 m.
Proof.
  destruct k; cbn [stored]; rewrite ?insert_insert_eq; try done.
  rewrite (insert_insert_ne _ (js "jjkSiteTitle") (js "jjkNewsHeader"))
    by (by vm_compute).
  by rewrite !insert_insert_eq.
Qed.

(** X11. On the local backend the last save wins: a save that returns
    after an earlier save of the same kind leaves the page exactly as it
    would have left it without the earlier one. *)
Theorem local_save_overwrites e r k v1 v2 x e1 r1 y e2 r2 :
  local_selected (heap e) ->
  run host (save_document host k v1) e r = (Returned x, e1, r1) ->
  run host (save_document host k v2) e r = (Returned y, e2, r2) ->
  run host (save_document host k v2) e1 r1 = (Returned y, e2, r2).
Proof.
  intros Hlocal H1 H2.
  pose proof (run_local_writer_stored e r k v1 Hlocal) as Hw1.
  pose proof (run_local_writer_stored e r k v2 Hlocal) as Hw2.
  destruct (writable k v1); [|destruct Hw1 as [err Hw1]; congruence].
  destruct (writable k v2) eqn:Hv2; [|destruct Hw2 as [err Hw2]; congruence].
  rewrite Hw1 in H1. injection H1 as <- <- <-.
  rewrite Hw2 in H2. injection H2 as <- <- <-.
  pose proof (run_local_writer_stored
                (with_storage (stored k v1 (localStorage (heap e))) e) r k v2
                (local_selected_with_storage _ e Hlocal)) as Hw3.
  rewrite Hv2 in Hw3. rewrite Hw3.
  cbn [heap with_storage set_heap_of localStorage set_localStorage].
  by rewrite stored_twice.
Qed.

(** X12. On the local backend the settings are kept field by field, as
    strings.  After [saveSiteSettings] of an object, [getSiteSettings]
    returns, for each of [siteTitle] and [newsHeader], the property of the
    object turned into a string (the text [undefined] for a missing
    property), and the built-in title or header when that string is
    empty; any other property of the object is dropped.  The same holds
    for [adminCode] with [saveAdminSettings] and [getAdminSettings]. *)
Theorem local_settings_read_back e r props :
  local_selected (heap e) ->
  (exists e1,
     run host (saveSiteSettings host (VObj props)) e r
     = (Returned (VBool true), e1, r)
     /\ run host (getSiteSettings host) e1 r
        = (Returned
             (VObj [(js "siteTitle",
                     VStr (or_default (ToString (field props "siteTitle"))
                             (js "NOARZ")));
                    (js "newsHeader",
                     VStr (or_default (ToString (field props "newsHeader"))
                             default_newsHeader))]),
           e1, r))
  /\ (exists e1,
        run host (saveAdminSettings host (VObj props)) e r
        = (Returned (VBool true), e1, r)
        /\ run host (getAdminSettings host) e1 r
           = (Returned
                (VObj [(js "adminCode",
                        VStr (or_default (ToString (field props "adminCode"))
                                (js "0988131688")))]),
              e1, r)).
Proof.
  intros Hlocal. split.
  - pose proof (run_local_writer_stored e r SiteSettings (VObj props) Hlocal)
      as Hw. cbn [writable save_document] in Hw.
    eexists. split; [exact Hw|].
    unfold getSiteSettings.
    rewrite run_dispatch_local by (by apply local_selected_with_storage).
    cbn [run]. unfold getItem_or, getItem, or_default, stored, read, field.
    cbn [heap with_storage set_heap_of localStorage set_localStorage get_prop
         default from_option id].
    rewrite lookup_insert_ne by (by vm_compute).
    by rewrite !lookup_insert_eq.
  - pose proof (run_local_writer_stored e r AdminSettings (VObj props) Hlocal)
      as Hw. cbn [writable save_document] in Hw.
    eexists. split; [exact Hw|].
    unfold getAdminSettings.
    rewrite run_dispatch_local by (by apply local_selected_with_storage).
    cbn [run]. unfold getItem_or, getItem, or_default, stored, read, field.
    cbn [heap with_storage set_heap_of localStorage set_localStorage get_prop
         default from_option id].
    by rewrite !lookup_insert_eq.
Qed.

(** X16. For a document that was never written, the two backends do not
    answer alike.  On the local backend, with none of the kind's keys in
    local storage, the reader returns the built-in value of the kind: the
    three samples, the title and header, the two links, the admin code.
    On the remote backend, when the remote reports the file as not found,
    the reader returns the fixed value of the kind.  The two are the same
    for the social links and the admin settings, and differ for the news
    items (samples against an empty array) and the site settings (title
    and header against an empty object). *)
Theorem fresh_defaults_by_backend k :
  (forall e r,
     local_selected (heap e) ->
     (forall key, key ∈ local_keys k -> localStorage (heap e) !! key = None) ->
     run host (get_document host k) e r
     = (Returned (local_default host k (clock e)), e, r))
  /\ (forall e r this o r',
        remote_selected (heap e) this ->
        fetch host r (get_request this (remote_path k)) = (o, r') ->
        not_found o ->
        run host (get_document host k) e r
        = (Returned (remote_fallback k),
           add_request (get_request this (remote_path k)) e, r'))
  /\ (forall now,
        local_default host k now = remote_fallback k
        <-> k = SocialLinks \/ k = AdminSettings).
Proof.
  split; [|split].
  - intros e r Hlocal Hkeys.
    destruct k; cbn [get_document local_keys local_default] in *.
    + apply run_getNewsItems_absent; [done|]. apply Hkeys. set_solver.
    + unfold getSiteSettings. rewrite run_dispatch_local by assumption.
      unfold getItem_or, getItem.
      rewrite (Hkeys (js "jjkSiteTitle")) by set_solver.
      by rewrite (Hkeys (js "jjkNewsHeader")) by set_solver.
    + unfold getSocialLinks. rewrite run_dispatch_local by assumption.
      unfold getItem. rewrite (Hkeys (js "jjkSocialLinks")) by set_solver.
      unfold JSON_parse_js. cbn [slot default from_option id].
      by rewrite JSON_parse_null.
    + unfold getAdminSettings. rewrite run_dispatch_local by assumption.
      unfold getItem_or, getItem.
      by rewrite (Hkeys (js "jjkAdminCode")) by set_solver.
  - intros e r this o r' Hsel Hf Hnf.
    assert (Hthis : githubApi (dataManager (heap e)) = Some this) by apply Hsel.
    assert (Hread : forall path what fallback,
      js path = remote_path k ->
      run host (read_document host path what fallback) e r
      = (Returned fallback,
         add_request (get_request this (remote_path k)) e, r')).
    { intros path what fallback Hpath. unfold read_document.
      rewrite run_try_catch, run_bind, Hpath.
      by rewrite (run_getFile_not_found host e r this _ o r' Hthis Hf Hnf). }
    destruct k; cbn [get_document remote_fallback remote_path] in *;
      [unfold getNewsItems, GitHubAPI_getNewsItems
      |unfold getSiteSettings, GitHubAPI_getSiteSettings
      |unfold getSocialLinks, GitHubAPI_getSocialLinks
      |unfold getAdminSettings, GitHubAPI_getAdminSettings];
      rewrite (run_dispatch_remote host _ _ e r this Hsel); by apply Hread.
  - intros now. destruct k; cbn [local_default remote_fallback]; split;
      try (intros [?|?]; discriminate); try discriminate; by eauto.
Qed.

End LocalBackend.

(* ================================================================== *)
(** ** Before the backend is selected, and after *)
(* ================================================================== *)

(** X17. Whatever calls are made on one data manager and however the
    network answers, as long as the data manager is not initialised no
    accessor has acted: local storage is as it was before the first call,
    nothing but the probe has been sent, and no call but the first one
    waits on the network (every other suspended call waits on the promise
    kept in [initPromise]). *)
Theorem nothing_before_selection host e0 evs :
  dataManager (heap e0) = new_DataManager ->
  isInitialized (dataManager (heap (page_env (after host e0 evs)))) = false ->
  localStorage (heap (page_env (after host e0 evs))) = localStorage (heap e0)
  /\ (length (sent_since e0 (page_env (after host e0 evs))) <= 1)%nat
  /\ forallb (is_probe (heap e0)) (sent_since e0 (page_env (after host e0 evs)))
     = true
  /\ forall i c t,
       page_tasks (after host e0 evs) !! S i = Some (c, t) ->
       match t with
       | OnFetch _ => False
       | OnPromise p _ =>
           initPromise (dataManager (heap (page_env (after host e0 evs))))
           = Some p
       | Ended _ => True
       end.
Proof.
  intros Hdm Hpending.
  pose proof (play_phase host e0 (mkPage e0 []) evs Hdm (untouched e0)) as Hphase.
  fold (after host e0 evs) in Hphase.
  destruct Hphase as [|e c k waiting probe Hp Hprobe Hreq Hk Hwait|u sent pg Hsel].
  - cbn [page_env page_tasks] in *. split; [done|].
    unfold sent_since. rewrite drop_all. split; [cbn; lia|]. split; [done|].
    intros i c t Hi. by rewrite lookup_nil in Hi.
  - cbn [page_env page_tasks] in *.
    destruct Hp as (_ & _ & Hinit & _ & Hl & _).
    split; [done|]. unfold sent_since. rewrite Hreq, drop_app_length.
    split; [cbn; lia|]. split.
    + cbn [forallb]. unfold is_probe. rewrite Hprobe.
      by rewrite bool_decide_eq_true_2.
    + intros i c' t Hi. cbn [lookup list_lookup] in Hi.
      rewrite Forall_forall in Hwait.
      assert (Hin : (c', t) ∈ waiting) by (by eapply list_elem_of_lookup_2).
      apply Hwait in Hin. cbn [snd] in Hin.
      destruct t as [o|k'|p k']; [done|done|].
      destruct Hin as [-> _]. exact Hinit.
  - destruct Hsel as ((_ & Hinit & _) & _). congruence.
Qed.

Section Afterwards.

Variable host : Host.

Ltac step :=
  cbn [bind try_catch run set_heap set_field or_throw console_log console_warn
       console_error fallback_to_localStorage heap set_heap_of add_log
       add_request dataManager set_dataManager githubApi set_githubApi
       isInitialized set_isInitialized useGitHub set_useGitHub initPromise
       set_initPromise window_GITHUB_CONFIG window_GitHubAPI sessionStorage
       set_sessionStorage localStorage promises set_promises requests console
       clock fst snd negb andb orb default from_option id option_map
       and_then or_else].

(** Without a token the executor selects the local backend and sends
    nothing. *)
Lemma run_executor_no_token e r :
  getToken (heap e) = None ->
  exists e',
    run host (executor host) e r = (Returned true, e', r)
    /\ requests e' = requests e
    /\ dataManager (heap e')
       = set_isInitialized true (set_useGitHub false (dataManager (heap e)))
    /\ executor_frame (heap e) (heap e').
Proof.
  intros Htok. unfold executor. rewrite run_try_catch. step.
  destruct (window_GITHUB_CONFIG (heap e)) as [config|]; step;
    [|by eexists].
  destruct (cfg_enabled config); step; [|by eexists].
  rewrite Htok. step. rewrite !andb_false_r. step. by eexists.
Qed.

(** X18. A token set after the first [initialize] is never used.  On a
    data manager that was initialised while no token was kept for the
    session, [setToken] of a token followed by another [initialize] hands
    back the promise of the first one: the token is then in the session,
    but the local backend stays selected and no request was ever sent. *)
Theorem late_token_is_ignored e r tok :
  initPromise (dataManager (heap e)) = None ->
  getToken (heap e) = None ->
  tok <> [] ->
  exists p e',
    run host (initialize host;; setToken (VStr tok);; initialize host) e r
    = (Returned p, e', r)
    /\ getToken (heap e') = Some tok
    /\ initPromise (dataManager (heap e')) = Some p
    /\ isInitialized (dataManager (heap e')) = true
    /\ useGitHub (dataManager (heap e')) = false
    /\ requests e' = requests e.
Proof.
  intros Hnone Htok Ht.
  assert (Hset : truthy (VStr tok) = true) by (by destruct tok).
  rewrite run_bind. unfold initialize at 1. step. rewrite Hnone. step.
  rewrite run_bind.
  set (e1 := set_heap_of _ e).
  destruct (run_executor_no_token e1 r Htok) as (e2 & -> & Hreq & Hdm & Hframe).
  destruct Hframe as (Hp & _).
  cbn [and_then]. step. rewrite run_bind. unfold setToken. rewrite Hset.
  step. unfold initialize, resolve. step. rewrite Hdm. subst e1. step.
  eexists _, _. split; [reflexivity|].
  unfold getToken, resolve.
  cbn [heap set_heap_of sessionStorage set_sessionStorage set_promises
       ToString dataManager requests].
  rewrite Hdm. split; [apply lookup_insert_eq|]. by repeat split.
Qed.

(** X19. When the remote answers the GET of [getFile] with an ok response
    that holds no [content] (the status is 204, or the JSON body is an
    object or an array with no such property, a directory listing for
    one), [getFile] sends nothing more and fails on decoding: it throws
    the error of [atob], unless the text of that error mentions 404, in
    which case it returns [null]. *)
Theorem getFile_without_content e r this path response r' :
  githubApi (dataManager (heap e)) = Some this ->
  fetch host r (get_request this path) = (Responded response, r') ->
  ok response = true ->
  status response = 204
  \/ (exists v, response_json response = Some v
                /\ get_prop v (js "content") = Some VUndefined) ->
  run host (getFile host path) e r
  = (if includes (err_message (atob_error host)) (js "404")
     then Returned VNull else Raised (atob_error host),
     add_request (get_request this path) e, r').
Proof.
  intros Hthis Hf Hok Hcases. unfold get_request in *.
  unfold getFile, makeRequest, with_this.
  step. rewrite Hthis. step. rewrite Hthis. step. rewrite Hf.
  cbn [settle]. rewrite Hok. cbn [negb].
  replace (bool_decide (GET = js "HEAD")) with false by reflexivity.
  assert (Hbad : atob (ToString VUndefined) = None) by reflexivity.
  destruct Hcases as [H204|(v & Hjson & Hc)].
  - rewrite H204. cbn [N.eqb Pos.eqb orb]. step.
    unfold prop, atob_js. cbn [get_prop assoc].
    rewrite !decide_False by (by vm_compute).
    cbn [default from_option id]. step. rewrite Hbad. step.
    by destruct (includes _ _).
  - destruct (status response =? 204); cbn [orb].
    + step. unfold prop, atob_js. cbn [get_prop assoc].
      rewrite !decide_False by (by vm_compute).
      cbn [default from_option id]. step. rewrite Hbad. step.
      by destruct (includes _ _).
    + rewrite Hjson. step. unfold prop, atob_js. rewrite Hc. step.
      rewrite Hbad. step. by destruct (includes _ _).
Qed.

End Afterwards.

(* ================================================================== *)
(** ** Worked examples *)
(* ================================================================== *)

(** The probe is rejected by the network: the data manager falls back to
    local storage. *)
Lemma initialize_falls_back_witness :
  initPromise
    (dataManager (heap (example_env (fresh_heap (Some example_config)
                                                example_session)))) = None
  /\ exists p e' r',
       run example_host (initialize example_host)
         (example_env (fresh_heap (Some example_config) example_session))
         [Rejected failed_to_fetch]
       = (Returned p, e', r')
       /\ useGitHub (dataManager (heap e')) = false
       /\ isInitialized (dataManager (heap e')) = true
       /\ initPromise (dataManager (heap e')) = Some p
       /\ is_Some (resolved (heap e') p).
Proof.
  split; [reflexivity|].
  apply (initialize_falls_back example_host); [reflexivity|].
  apply (probe_fails example_host _ _ example_config (js "secret"));
    [reflexivity|reflexivity|exact I].
Defined.



(** A stored news entry that is cut short. *)
Lemma local_getNewsItems_malformed_witness :
  local_selected (heap (example_env (local_heap {[ js "jjkNews" := js "[{" ]})))
  /\ JSON_parse (js "[{") = None
  /\ run example_host (getNewsItems example_host)
       (example_env (local_heap {[ js "jjkNews" := js "[{" ]})) []
     = (Raised (json_syntax_error example_host (js "[{")),
        example_env (local_heap {[ js "jjkNews" := js "[{" ]}), []).
Proof.
  split; [by split|]. split; [reflexivity|].
  apply (local_getNewsItems_malformed example_host); [by split|reflexivity..].
Defined.

(** Deleting a file the remote does not have. *)
Lemma deleteFile_missing_path_witness :
  not_found (respond 404 "Not Found" (message_payload "Not Found"))
  /\ exists e',
       run example_host (deleteFile example_host (js "old.json") (js "Remove"))
         (example_env remote_heap)
         [respond 404 "Not Found" (message_payload "Not Found")]
       = (Raised (mkError (js "Error") (js "File not found: " ++ js "old.json")),
          e', [])
       /\ sent_since (example_env remote_heap) e'
          = [get_request example_api (js "old.json")]
       /\ Forall (fun q => req_method q <> DELETE)
            (sent_since (example_env remote_heap) e').
Proof.
  assert (Hnf : not_found (respond 404 "Not Found" (message_payload "Not Found"))).
  { eexists. by split. }
  split; [exact Hnf|].
  by apply (deleteFile_missing_path example_host (example_env remote_heap)
              [respond 404 "Not Found" (message_payload "Not Found")]
              example_api (js "old.json") (js "Remove")
              (respond 404 "Not Found" (message_payload "Not Found")) []).
Defined.

(** A server error whose body mentions 404. *)
Lemma getFile_hides_failure_mentioning_404_witness :
  ok (mkResponse 500 (js "Internal Server Error")
        (text_of (JSON_stringify (message_payload "upstream answered 404"))))
  = false
  /\ run example_host (getFile example_host (js "news.json"))
       (example_env remote_heap)
       [respond 500 "Internal Server Error"
          (message_payload "upstream answered 404")]
     = (Returned VNull,
        add_request (get_request example_api (js "news.json"))
          (example_env remote_heap), []).
Proof.
  split; [reflexivity|].
  by apply (getFile_hides_failure_mentioning_404 example_host
              (example_env remote_heap)
              [respond 500 "Internal Server Error"
                 (message_payload "upstream answered 404")]
              example_api (js "news.json")
              (mkResponse 500 (js "Internal Server Error")
                 (text_of (JSON_stringify
                             (message_payload "upstream answered 404")))) []).
Defined.


(** A configuration that switches the remote off. *)
Lemma initialize_disabled_witness :
  cfg_enabled (mkConfig (js "noarz") (js "site-data") false) = false
  /\ exists p e',
       run example_host (initialize example_host)
         (example_env
            (fresh_heap (Some (mkConfig (js "noarz") (js "site-data") false))
               example_session))
         faithful_script
       = (Returned p, e', faithful_script)
       /\ useGitHub (dataManager (heap e')) = false
       /\ isInitialized (dataManager (heap e')) = true
       /\ requests e' = []
       /\ githubApi (dataManager (heap e')) = None.
Proof.
  split; [reflexivity|].
  by apply (initialize_disabled example_host
              (example_env
                 (fresh_heap (Some (mkConfig (js "noarz") (js "site-data") false))
                    example_session))
              faithful_script (mkConfig (js "noarz") (js "site-data") false)).
Defined.

(** The samples of an empty local storage. *)
Lemma getNewsItems_samples_witness :
  local_selected (heap (example_env (local_heap ∅)))
  /\ exists items,
       run example_host (getNewsItems example_host)
         (example_env (local_heap ∅)) []
       = (Returned items, example_env (local_heap ∅), [])
       /\ items = sample_news example_host 1793627096789
       /\ item_ids items = [VStr (js "1"); VStr (js "2"); VStr (js "3")].
Proof.
  split; [by split|].
  by apply (getNewsItems_samples example_host (example_env (local_heap ∅)) []).
Defined.

(** Reading twice, a day apart. *)
Lemma local_readers_store_nothing_witness :
  local_selected (heap (example_env (local_heap ∅)))
  /\ run example_host (getNewsItems example_host)
       (set_clock 1793713496789 (example_env (local_heap ∅))) []
     = (Returned (sample_news example_host 1793713496789),
        set_clock 1793713496789 (example_env (local_heap ∅)), []).
Proof.
  split; [by split|].
  apply (proj2 (local_readers_store_nothing example_host
                  (example_env (local_heap ∅)) [] (conj eq_refl eq_refl))
           (lookup_empty _) 1793713496789%Z).
Defined.

(** Four calls before the probe is answered. *)
Lemma one_shared_initialisation_witness :
  dataManager
    (heap (example_env (fresh_heap (Some example_config) example_session)))
  = new_DataManager
  /\ (length (List.filter
                (is_probe (heap (example_env
                                   (fresh_heap (Some example_config)
                                      example_session))))
                (sent_since
                   (example_env (fresh_heap (Some example_config) example_session))
                   (page_env
                      (after example_host
                         (example_env
                            (fresh_heap (Some example_config) example_session))
                         example_events)))) <= 1)%nat.
Proof.
  split; [reflexivity|].
  apply (one_shared_initialisation example_host
           (example_env (fresh_heap (Some example_config) example_session))
           example_events eq_refl).
Defined.

(** What that page looks like in the end: the probe and three requests for
    documents were sent, both [initialize] calls handed back promise 0,
    and the remote backend is selected. *)
Example example_events_outcome :
  List.map req_url
    (requests (page_env
                 (after example_host
                    (example_env (fresh_heap (Some example_config) example_session))
                    example_events)))
  = [js "https://api.github.com/repos/noarz/site-data";
     js "https://api.github.com/repos/noarz/site-data/contents/news.json";
     js "https://api.github.com/repos/noarz/site-data/contents/social.json";
     js "https://api.github.com/repos/noarz/site-data/contents/news.json"]
  /\ List.map (fun ct : call * task answer =>
                 match snd ct with
                 | Ended (Returned (Promise p)) => Some p
                 | _ => None
                 end)
       (page_tasks (after example_host
                      (example_env (fresh_heap (Some example_config) example_session))
                      example_events))
     = [None; Some 0%nat; None; Some 0%nat; None]
  /\ useGitHub
       (dataManager
          (heap (page_env
                   (after example_host
                      (example_env (fresh_heap (Some example_config) example_session))
                      example_events)))) = true.
Proof. by vm_compute. Qed.

(* ================================================================== *)
(** ** More worked examples *)
(* ================================================================== *)

(** The probe of the example repository, answered. *)
Lemma GitHubAPI_initialize_probe_witness :
  exists e',
    run example_host
      (GitHubAPI_initialize example_host (js "noarz") (js "site-data"))
      (example_env remote_heap) [probe_answer]
    = (Returned true, e', []).
Proof.
  destruct (GitHubAPI_initialize_probe example_host (example_env remote_heap)
              [probe_answer] example_api (js "noarz") (js "site-data") eq_refl)
    as (b & e' & Hrun & _ & _ & _ & Hb).
  assert (b = true) as ->.
  { apply Hb. vm_compute. by intros [?|[_ ?]]. }
  by exists e'.
Defined.

(** Deleting the news file the remote has. *)
Lemma deleteFile_sends_no_body_witness :
  List.map req_body
    (sent_since (example_env remote_heap)
       (snd (fst (run example_host
                    (deleteFile example_host (js "news.json") (js "Remove"))
                    (example_env remote_heap)
                    [respond 200 "OK" (file_payload (js "b2xk") (js "95d09f2b"));
                     respond 200 "OK" (VObj [])]))))
  = [None; None].
Proof.
  assert (Hfound : file_found
            (respond 200 "OK" (file_payload (js "b2xk") (js "95d09f2b")))
            (js "old") (VStr (js "95d09f2b"))).
  { eexists _, _, _. by repeat split. }
  destruct (deleteFile_sends_no_body example_host (example_env remote_heap)
              [respond 200 "OK" (file_payload (js "b2xk") (js "95d09f2b"));
               respond 200 "OK" (VObj [])]
              example_api (js "news.json") (js "Remove") _
              [respond 200 "OK" (VObj [])] (js "old") (VStr (js "95d09f2b"))
              eq_refl eq_refl Hfound) as (-> & _).
  reflexivity.
Defined.


(** A Thai word as the content of a file. *)
Lemma saveFile_rejects_wide_content_witness :
  exists err e1 r1,
    run example_host
      (saveFile example_host (js "notes.txt") thai_word (js "Add notes"))
      (example_env remote_heap)
      [respond 404 "Not Found" (message_payload "Not Found")]
    = (Raised err, e1, r1)
    /\ sent_since (example_env remote_heap) e1
       = [get_request example_api (js "notes.txt")].
Proof.
  destruct (saveFile_rejects_wide_content example_host (example_env remote_heap)
              [respond 404 "Not Found" (message_payload "Not Found")]
              example_api (js "notes.txt") thai_word (js "Add notes") 3586
              eq_refl)
    as (err & e1 & r1 & Hrun & Hsent & _).
  { apply elem_of_cons. by left. }
  { reflexivity. }
  by exists err, e1, r1.
Defined.

(** The news read and written with the remote out of reach. *)
Lemma remote_accessors_never_throw_witness :
  (exists x e1 r1,
     run example_host (get_document example_host NewsItems)
       (example_env remote_heap) [] = (Returned x, e1, r1))
  /\ exists b e1 r1,
       run example_host (save_document example_host NewsItems example_news)
         (example_env remote_heap) [] = (Returned (VBool b), e1, r1).
Proof.
  destruct (remote_accessors_never_throw example_host (example_env remote_heap)
              [] example_api NewsItems example_news)
    as [(x & e1 & r1 & Hget & _) (b & e2 & r2 & Hsave & _)].
  { by repeat split. }
  split; [by exists x, e1, r1|by exists b, e2, r2].
Defined.

(** The social links when the remote is out of reach. *)
Lemma remote_reader_falls_back_witness :
  fst (fst (run example_host (get_document example_host SocialLinks)
              (example_env remote_heap) []))
  = Returned default_social_links.
Proof.
  destruct (remote_reader_falls_back example_host (example_env remote_heap) []
              example_api SocialLinks (Rejected failed_to_fetch) [])
    as (e1 & -> & _).
  - by repeat split.
  - reflexivity.
  - exact I.
  - reflexivity.
Defined.

(** Site settings with a Thai header. *)
Lemma remote_save_wide_text_witness :
  fst (fst (run example_host (save_document example_host SiteSettings thai_settings)
              (example_env remote_heap) faithful_script))
  = Returned (VBool false).
Proof.
  destruct (remote_save_wide_text example_host (example_env remote_heap)
              faithful_script example_api SiteSettings thai_settings 3586)
    as (e1 & r1 & -> & _).
  - by repeat split.
  - reflexivity.
  - by vm_compute.
  - reflexivity.
Defined.

Lemma fresh_env_configured :
  configured (heap fresh_env) example_config (js "secret").
Proof.
  split; [reflexivity|]. split; [reflexivity|]. split; [discriminate|].
  split; [discriminate|]. split; [|discriminate].
  unfold getToken. cbn. apply lookup_insert_eq.
Defined.

(** The first [initialize] of the example page, the probe answered. *)
Lemma initialize_selects_remote_witness :
  exists p e',
    run example_host (initialize example_host) fresh_env [probe_answer]
    = (Returned p, e', [])
    /\ dataManager (heap e')
       = mkDataManager (Some example_api) true true (Some p).
Proof.
  destruct (initialize_selects_remote example_host fresh_env [probe_answer]
              example_config (js "secret") eq_refl fresh_env_configured eq_refl)
    as (p & e' & Hrun & Hdm & _).
  { vm_compute. by intros [?|[_ ?]]. }
  by exists p, e'.
Defined.

(** The same with nothing configured. *)
Lemma initialize_always_settles_witness :
  exists p e' r',
    run example_host (initialize example_host)
      (example_env (fresh_heap None ∅)) [] = (Returned p, e', r')
    /\ isInitialized (dataManager (heap e')) = true.
Proof.
  destruct (initialize_always_settles example_host
              (example_env (fresh_heap None ∅)) [] eq_refl)
    as (p & b & e' & r' & Hrun & Hinit & _).
  by exists p, e', r'.
Defined.

(** The token, set and cleared. *)
Lemma token_kept_for_session_witness :
  exists e1,
    run example_host (setToken (VStr (js "secret")))
      (example_env (fresh_heap (Some example_config) ∅)) []
    = (Returned true, e1, [])
    /\ getToken (heap e1) = Some (js "secret").
Proof.
  destruct (proj1 (token_kept_for_session example_host
                     (example_env (fresh_heap (Some example_config) ∅)) []
                     (VStr (js "secret"))) eq_refl)
    as (e1 & Hrun & Htok & _).
  by exists e1.
Defined.

(** The site settings read by a page that never called [initialize]. *)
Lemma accessor_initializes_first_witness :
  run example_host (get_document example_host SiteSettings)
    (example_env (fresh_heap None ∅)) []
  = run example_host (initialize example_host;;
                      get_document example_host SiteSettings)
      (example_env (fresh_heap None ∅)) [].
Proof.
  apply (accessor_initializes_first example_host
           (example_env (fresh_heap None ∅)) [] SiteSettings VNull eq_refl
           eq_refl).
Defined.

(** The token on its way to the example repository. *)
Lemma token_reaches_probe_witness :
  exists sent,
    sent_since (example_env (fresh_heap (Some example_config) ∅))
      (snd (fst (run example_host
                   (setToken (VStr (js "secret"));; initialize example_host)
                   (example_env (fresh_heap (Some example_config) ∅)) [])))
    = [sent]
    /\ req_url sent = js "https://api.github.com/repos/noarz/site-data"
    /\ assoc_header (js "Authorization") (req_headers sent)
       = Some (js "token secret").
Proof.
  destruct (token_reaches_probe example_host
              (example_env (fresh_heap (Some example_config) ∅)) []
              (js "secret") example_config)
    as (sent & Hsent & Hurl & _ & _ & Hauth); try done.
  by exists sent.
Defined.

(** News saved locally with the settings already there. *)
Lemma local_save_independent_witness :
  fst (fst (run example_host (get_document example_host SiteSettings)
              (snd (fst (run example_host
                           (save_document example_host NewsItems example_news)
                           (example_env (local_heap ∅)) [])))
              []))
  = fst (fst (run example_host (get_document example_host SiteSettings)
                (example_env (local_heap ∅)) [])).
Proof.
  destruct (local_save_independent example_host (example_env (local_heap ∅)) []
              NewsItems SiteSettings example_news)
    as (res & e1 & Hrun & _ & _ & _ & Hsame).
  - by split.
  - discriminate.
  - by rewrite Hrun.
Defined.

(** The settings saved twice. *)
Lemma local_save_overwrites_witness :
  run example_host (save_document example_host SiteSettings titled_settings)
    (with_storage (stored SiteSettings untitled_settings ∅)
       (example_env (local_heap ∅))) []
  = (Returned (VBool true),
     with_storage (stored SiteSettings titled_settings ∅)
       (example_env (local_heap ∅)), []).
Proof.
  apply (local_save_overwrites example_host (example_env (local_heap ∅)) []
           SiteSettings untitled_settings titled_settings (VBool true) _ []
           (VBool true) _ [] (conj eq_refl eq_refl)).
  - exact (run_local_writer_stored example_host (example_env (local_heap ∅)) []
             SiteSettings untitled_settings (conj eq_refl eq_refl)).
  - exact (run_local_writer_stored example_host (example_env (local_heap ∅)) []
             SiteSettings titled_settings (conj eq_refl eq_refl)).
Defined.

(** Settings saved without a header. *)
Lemma local_settings_read_back_witness :
  exists e1,
    run example_host
      (saveSiteSettings example_host (VObj [(js "siteTitle", VStr [])]))
      (example_env (local_heap ∅)) []
    = (Returned (VBool true), e1, [])
    /\ run example_host (getSiteSettings example_host) e1 []
       = (Returned (VObj [(js "siteTitle", VStr (js "NOARZ"));
                          (js "newsHeader", VStr (js "undefined"))]),
          e1, []).
Proof.
  apply (proj1 (local_settings_read_back example_host
                  (example_env (local_heap ∅)) []
                  [(js "siteTitle", VStr [])] (conj eq_refl eq_refl))).
Defined.

(** The site settings of a page that never wrote them. *)
Lemma fresh_defaults_by_backend_witness :
  run example_host (get_document example_host SiteSettings)
    (example_env (local_heap ∅)) []
  = (Returned (VObj [(js "siteTitle", VStr (js "NOARZ"));
                     (js "newsHeader", VStr default_newsHeader)]),
     example_env (local_heap ∅), [])
  /\ fst (fst (run example_host (get_document example_host SiteSettings)
                 (example_env remote_heap)
                 [respond 404 "Not Found" (message_payload "Not Found")]))
     = Returned (VObj []).
Proof.
  destruct (fresh_defaults_by_backend example_host SiteSettings)
    as (Hlocal & Hremote & _).
  split.
  - apply Hlocal; [by split|]. intros key _. apply lookup_empty.
  - rewrite (Hremote (example_env remote_heap)
               [respond 404 "Not Found" (message_payload "Not Found")]
               example_api
               (respond 404 "Not Found" (message_payload "Not Found")) []).
    + reflexivity.
    + by repeat split.
    + reflexivity.
    + eexists. by split.
Defined.

(** A save and a read made while the probe is unanswered. *)
Lemma nothing_before_selection_witness :
  localStorage
    (heap (page_env
             (after example_host fresh_env
                [Call (CallSave NewsItems example_news);
                 Call (CallGet SiteSettings)])))
  = localStorage (heap fresh_env)
  /\ List.map req_url
       (sent_since fresh_env
          (page_env
             (after example_host fresh_env
                [Call (CallSave NewsItems example_news);
                 Call (CallGet SiteSettings)])))
     = [js "https://api.github.com/repos/noarz/site-data"].
Proof.
  split; [|by vm_compute].
  apply (proj1 (nothing_before_selection example_host fresh_env
                  [Call (CallSave NewsItems example_news);
                   Call (CallGet SiteSettings)] eq_refl eq_refl)).
Defined.

(** The token entered once the page has settled on local storage. *)
Lemma late_token_is_ignored_witness :
  exists p e',
    run example_host
      (initialize example_host;; setToken (VStr (js "secret"));;
       initialize example_host)
      (example_env (fresh_heap (Some example_config) ∅)) [probe_answer]
    = (Returned p, e', [probe_answer])
    /\ useGitHub (dataManager (heap e')) = false.
Proof.
  destruct (late_token_is_ignored example_host
              (example_env (fresh_heap (Some example_config) ∅)) [probe_answer]
              (js "secret") eq_refl (lookup_empty _))
    as (p & e' & Hrun & _ & _ & _ & Huse & _).
  { discriminate. }
  by exists p, e'.
Defined.

(** A path that is a directory: the remote answers with a listing. *)
Lemma getFile_without_content_witness :
  run example_host (getFile example_host (js "images"))
    (example_env remote_heap) [respond 200 "OK" (VArr [])]
  = (Raised (atob_error example_host),
     add_request (get_request example_api (js "images"))
       (example_env remote_heap), []).
Proof.
  apply (getFile_without_content example_host (example_env remote_heap)
           [respond 200 "OK" (VArr [])] example_api (js "images")
           (mkResponse 200 (js "OK") (text_of (JSON_stringify (VArr [])))) []
           eq_refl eq_refl eq_refl).
  right. exists (VArr []). by split.
Defined.
